(** * Cookie scraper: the analysis engine of [cookie_spider.py] and
      [cookie_utils.py], embedded and checked against its specification.

    Python values are modelled by the types the collector writes them with:
    [str] as [string] (bytes; [lower] acts on ASCII letters), [int] as [Z]
    or [nat] for counters, [float] as exact rationals [Q], a [dict] read with
    [.get(key, default)] as a record of [option] fields, a [dict] used as a
    table as an association list in insertion order. *)

From Stdlib Require Import List String Ascii Bool Arith ZArith QArith Lia.
From Stdlib Require Import Permutation Sorted Numbers.DecimalString.
Import ListNotations.

Open Scope string_scope.
Open Scope list_scope.

(** ** Python string operations *)

Module PyStr.

Definition is_empty (s : string) : bool :=
  match s with EmptyString => true | String _ _ => false end.

(** [s.startswith(p)] *)
Fixpoint startswith (p s : string) : bool :=
  match p, s with
  | EmptyString, _ => true
  | String _ _, EmptyString => false
  | String a p', String b s' => Ascii.eqb a b && startswith p' s'
  end.

(** [p in s] for strings: [p] occurs in [s] as a contiguous substring. *)
Fixpoint contains (p s : string) : bool :=
  startswith p s ||
  match s with
  | EmptyString => false
  | String _ s' => contains p s'
  end.

(** [s.endswith(p)] *)
Fixpoint endswith (p s : string) : bool :=
  String.eqb p s ||
  match s with
  | EmptyString => false
  | String _ s' => endswith p s'
  end.

(** [s.split(sep)] for a one-character separator: never the empty list. *)
Fixpoint split (sep : ascii) (s : string) : list string :=
  match s with
  | EmptyString => [EmptyString]
  | String c s' =>
      if Ascii.eqb c sep then EmptyString :: split sep s'
      else match split sep s' with
           | h :: t => String c h :: t
           | [] => [String c EmptyString]
           end
  end.

(** [sep.join(parts)] *)
Definition join (sep : string) (parts : list string) : string :=
  String.concat sep parts.

(** [l[-n:]] for [n > 0]: the last [n] elements, all of [l] when it is shorter. *)
Definition last_n {A : Type} (n : nat) (l : list A) : list A :=
  skipn (List.length l - n) l.

(** [l[-n]], for a list known to have at least [n] elements. *)
Definition nth_last (n : nat) (l : list string) : string :=
  nth (List.length l - n) l EmptyString.

Definition lower_char (c : ascii) : ascii :=
  let n := nat_of_ascii c in
  if (65 <=? n)%nat && (n <=? 90)%nat then ascii_of_nat (n + 32) else c.

(** [s.lower()] *)
Fixpoint lower (s : string) : string :=
  match s with
  | EmptyString => EmptyString
  | String c s' => String (lower_char c) (lower s')
  end.

Definition upper_char (c : ascii) : ascii :=
  let n := nat_of_ascii c in
  if (97 <=? n)%nat && (n <=? 122)%nat then ascii_of_nat (n - 32) else c.

(** [s.capitalize()] *)
Definition capitalize (s : string) : string :=
  match s with
  | EmptyString => EmptyString
  | String c s' => String (upper_char c) (lower s')
  end.

(** [x in [a, b, ...]] for a list of strings. *)
Definition mem (x : string) (l : list string) : bool :=
  existsb (String.eqb x) l.

(** [any(kw in s for kw in kws)] *)
Definition any_in (kws : list string) (s : string) : bool :=
  existsb (fun kw => contains kw s) kws.

(** [str(n)] / [f"{n}"] for an integer. *)
Definition of_Z (n : Z) : string :=
  NilZero.string_of_int (Z.to_int n).

End PyStr.

(** ** Python numbers: floats as exact rationals *)

Module PyNum.

(** [x < y] *)
Definition Qlt_bool (x y : Q) : bool := negb (Qle_bool y x).

(** [int(x)] on a float: truncation towards zero. *)
Definition py_int (x : Q) : Z := Z.quot (Qnum x) (Zpos (Qden x)).

End PyNum.

(** ** cookie_spider.py *)

Module Spider.

Import PyStr PyNum.

Definition second_level_labels : list string :=
  ["co"; "com"; "org"; "net"; "edu"; "gov"].

Definition country_labels : list string := ["uk"; "au"; "nz"; "jp"].

(** [extract_base_domain(self, domain)] *)
Definition extract_base_domain (domain : string) : string :=
  if is_empty domain then "" else
  let domain :=
    if contains ":" domain then hd EmptyString (split ":" domain) else domain in
  let parts := split "." domain in
  if (2 <? List.length parts)%nat
     && (mem (nth_last 2 parts) second_level_labels
         && mem (nth_last 1 parts) country_labels)
  then join "." (last_n 3 parts)
  else if (2 <=? List.length parts)%nat then join "." (last_n 2 parts)
  else domain.

Definition analytics_keywords : list string :=
  ["analytics"; "ga"; "_ga"; "gtm"; "pixel"; "stats"; "track"; "visit"].
Definition ad_keywords : list string :=
  ["ad"; "ads"; "advert"; "campaign"; "promo"; "promotion"; "marketing"].
Definition session_keywords : list string :=
  ["session"; "sid"; "user"; "auth"; "login"; "account"].
Definition preference_keywords : list string :=
  ["pref"; "setting"; "consent"; "accept"; "agree"].
Definition functional_keywords : list string :=
  ["func"; "feature"; "ui"; "display"; "layout"; "theme"].

(** [identify_tracking_purpose(self, cookie_name, cookie_value)] *)
Definition identify_tracking_purpose (cookie_name cookie_value : string) : string :=
  let name_lower := lower cookie_name in
  if any_in analytics_keywords name_lower then "Analytics"
  else if any_in ad_keywords name_lower then "Advertising"
  else if any_in session_keywords name_lower then "Session/Authentication"
  else if any_in preference_keywords name_lower then "Preferences/Consent"
  else if any_in functional_keywords name_lower then "Functional"
  else if mem name_lower ["_fbp"; "fr"] then "Facebook Tracking"
  else if mem name_lower ["_gid"; "_ga"; "_gat"] then "Google Analytics"
  else if mem name_lower ["__utma"; "__utmb"; "__utmc"; "__utmz"]
       then "Google Analytics (Legacy)"
  else if mem name_lower ["_hjid"; "_hjSessionUser"] then "Hotjar Analytics"
  else if mem name_lower ["_pin_unauth"; "_pinterest_sess"] then "Pinterest Tracking"
  else if mem name_lower ["_twitter_sess"; "ct0"] then "Twitter Tracking"
  else "Unknown".

(** The record built by [calculate_cookie_age]: [None] is Python's [None]. *)
Record age_info : Type := mk_age_info {
  seconds : option Q;
  days : option Q;
  readable : string;
  is_session : bool
}.

(** The values [expiry_timestamp] is called with: [None], a number (Selenium's
    integer [expiry], or [datetime.timestamp()]), or a string. *)
Inductive expiry_value : Type :=
| ExpNone
| ExpNum (q : Q)
| ExpStr (s : string).

(** [f"{int(x)} unit{'s' if x != 1 else ''}"] *)
Definition unit_text (x : Q) (unit : string) : string :=
  of_Z (py_int x) ++ " " ++ unit ++ (if negb (Qeq_bool x 1) then "s" else "").

Definition session_age_info : age_info :=
  mk_age_info None None "Session cookie (expires when browser closes)" true.

Section CookieAge.

(** [float(s)] on a string: [None] stands for [ValueError]. *)
Variable float_of_str : string -> option Q.

(** [not expiry_timestamp] *)
Definition expiry_falsy (e : expiry_value) : bool :=
  match e with
  | ExpNone => true
  | ExpNum q => Qeq_bool q 0
  | ExpStr s => is_empty s
  end.

(** [float(expiry_timestamp)] *)
Definition to_float (e : expiry_value) : option Q :=
  match e with
  | ExpNone => None
  | ExpNum q => Some q
  | ExpStr s => float_of_str s
  end.

(** [calculate_cookie_age(self, expiry_timestamp, current_time)] *)
Definition calculate_cookie_age (expiry_timestamp : expiry_value) (current_time : Q)
  : age_info :=
  let age_info := session_age_info in
  if expiry_falsy expiry_timestamp then age_info else
  match to_float expiry_timestamp with
  | None => age_info
  | Some expiry_timestamp =>
      let age_seconds := (expiry_timestamp - current_time)%Q in
      if Qle_bool age_seconds 0 then
        mk_age_info (Some age_seconds) (Some (age_seconds / 86400)%Q) "Expired" false
      else
        let age_days := (age_seconds / 86400)%Q in
        let readable :=
          if Qlt_bool age_days 1 then
            let hours := (age_seconds / 3600)%Q in
            if Qlt_bool hours 1 then
              let minutes := (age_seconds / 60)%Q in
              unit_text minutes "minute"
            else unit_text hours "hour"
          else if Qlt_bool age_days 30 then unit_text age_days "day"
          else if Qlt_bool age_days 365 then
            let months := (age_days / 30)%Q in
            unit_text months "month"
          else
            let years := (age_days / 365)%Q in
            unit_text years "year" in
        mk_age_info (Some age_seconds) (Some age_days) readable false
  end.

End CookieAge.

End Spider.

(** ** Python dictionaries used as tables *)

Module Dict.

Section Ops.

Context {K V : Type}.
Variable eqb : K -> K -> bool.

(** [d.get(k)] *)
Fixpoint get (k : K) (d : list (K * V)) : option V :=
  match d with
  | [] => None
  | (k', v) :: d' => if eqb k k' then Some v else get k d'
  end.

(** [d.get(k, dflt)] *)
Definition get_or (k : K) (dflt : V) (d : list (K * V)) : V :=
  match get k d with Some v => v | None => dflt end.

(** [d[k] = v]: an existing key keeps its place, a new one goes last. *)
Fixpoint set (k : K) (v : V) (d : list (K * V)) : list (K * V) :=
  match d with
  | [] => [(k, v)]
  | (k', v') :: d' => if eqb k k' then (k', v) :: d' else (k', v') :: set k v d'
  end.

(** [k in d] *)
Definition has (k : K) (d : list (K * V)) : bool :=
  match get k d with Some _ => true | None => false end.

End Ops.

(** [d[k] = d.get(k, 0) + 1] *)
Definition bump {K : Type} (eqb : K -> K -> bool) (k : K) (d : list (K * nat))
  : list (K * nat) :=
  set eqb k (get_or eqb k 0%nat d + 1)%nat d.

(** [sorted(items, key=..., reverse=True)]: stable, largest key first. *)
Fixpoint insert_desc {A : Type} (key : A -> nat) (x : A) (l : list A) : list A :=
  match l with
  | [] => [x]
  | y :: l' => if (key y <? key x)%nat then x :: l else y :: insert_desc key x l'
  end.

Definition sorted_desc {A : Type} (key : A -> nat) (l : list A) : list A :=
  fold_left (fun acc x => insert_desc key x acc) l [].

(** [sorted(items, key=...)] on integer keys: stable, smallest key first. *)
Fixpoint insert_asc {A : Type} (key : A -> Z) (x : A) (l : list A) : list A :=
  match l with
  | [] => [x]
  | y :: l' => if (key x <? key y)%Z then x :: l else y :: insert_asc key x l'
  end.

Definition sorted_asc {A : Type} (key : A -> Z) (l : list A) : list A :=
  fold_left (fun acc x => insert_asc key x acc) l [].

End Dict.

(** String-keyed tables. *)
Definition sget {V : Type} := @Dict.get string V String.eqb.
Definition sget_or {V : Type} := @Dict.get_or string V String.eqb.
Definition sset {V : Type} := @Dict.set string V String.eqb.
Definition shas {V : Type} := @Dict.has string V String.eqb.

(** [o] is the entry of a key that may be missing, [or_else o d] is
    [x.get(key, d)]. *)
Definition or_else {A : Type} (o : option A) (d : A) : A :=
  match o with Some a => a | None => d end.

(** ** urllib.parse *)

Module Url.

Import PyStr.

Definition is_alpha (c : ascii) : bool :=
  let n := nat_of_ascii c in
  ((65 <=? n) && (n <=? 90) || (97 <=? n) && (n <=? 122))%nat.

Definition is_digit (c : ascii) : bool :=
  let n := nat_of_ascii c in ((48 <=? n) && (n <=? 57))%nat.

(** [c in scheme_chars] *)
Definition is_scheme_char (c : ascii) : bool :=
  is_alpha c || is_digit c
  || Ascii.eqb c "+" || Ascii.eqb c "-" || Ascii.eqb c ".".

(** [(url[:i], url[i+1:])] for [i = url.find(':')], [None] when there is none. *)
Fixpoint cut_colon (url : string) : option (string * string) :=
  match url with
  | EmptyString => None
  | String c rest =>
      if Ascii.eqb c ":" then Some (EmptyString, rest)
      else match cut_colon rest with
           | Some (pre, post) => Some (String c pre, post)
           | None => None
           end
  end.

Fixpoint all_chars (p : ascii -> bool) (s : string) : bool :=
  match s with
  | EmptyString => true
  | String c s' => p c && all_chars p s'
  end.

(** [_splitnetloc]: the text up to the first of [/], [?], [#]. *)
Fixpoint until_delim (s : string) : string :=
  match s with
  | EmptyString => EmptyString
  | String c s' =>
      if Ascii.eqb c "/" || Ascii.eqb c "?" || Ascii.eqb c "#" then EmptyString
      else String c (until_delim s')
  end.

(** [urlparse(url).netloc], after [urlsplit]: a scheme is a letter followed
    by scheme characters up to the first colon; the network location is what
    follows a leading [//]. The stripping of control characters and the
    validation of bracketed hosts are left out. *)
Definition netloc (url : string) : string :=
  let url :=
    match cut_colon url with
    | Some (String c pre, post) =>
        if is_alpha c && all_chars is_scheme_char (String c pre) then post else url
    | _ => url
    end in
  match url with
  | String "/" (String "/" rest) => until_delim rest
  | _ => EmptyString
  end.

End Url.

(** ** Snapshot records read by cookie_utils.py *)

(** A non-empty ['age'] dict of a cookie, with the keys the analysis reads;
    a key that is missing or [null] is [None]. *)
Record age_json : Type := mk_age_json {
  age_is_session : option bool;
  age_days : option Q
}.

(** A cookie dict. Each field is the entry of one key, [None] when the key is
    missing. [c_age] is [None] also for an empty dict. The collector writes
    [httponly]/[samesite]; the keys [httpOnly]/[sameSite] are read by the XSS
    report. *)
Record cookie : Type := mk_cookie {
  c_name : option string;
  c_value : option string;
  c_domain : option string;
  c_path : option string;
  c_secure : option bool;
  c_httponly : option bool;
  c_httpOnly : option bool;
  c_samesite : option string;
  c_sameSite : option string;
  c_age : option age_json;
  c_is_third_party : option bool;
  c_tracking_purpose : option string
}.

(** One snapshot file. *)
Record snapshot : Type := mk_snapshot {
  d_url : option string;
  d_cookies : option (list cookie);
  d_localStorage : option (list (string * string));
  d_sessionStorage : option (list (string * string));
  d_third_party_cookies : option (list cookie)
}.

(** ** cookie_utils.py: analyze_cookies *)

Module CookieStats.

Import PyStr PyNum.

Record age_categories : Type := mk_age_categories {
  cat_session : nat;
  cat_short_term : nat;
  cat_medium_term : nat;
  cat_long_term : nat;
  cat_expired : nat
}.

Record stats : Type := mk_stats {
  total_domains : nat;
  total_cookies : nat;
  total_localStorage : nat;
  total_sessionStorage : nat;
  cookies_per_domain : list (string * nat);
  storage_per_domain : list (string * nat);
  common_cookie_names : list (string * nat);
  common_storage_keys : list (string * nat);
  secure_cookies : nat;
  httponly_cookies : nat;
  third_party_cookies : nat;
  session_cookies : nat;
  persistent_cookies : nat;
  cookie_age_categories : age_categories;
  avg_cookie_age_days : Q;
  max_cookie_age_days : Z;
  cookie_age_distribution : list (Z * nat);
  samesite_stats : list (string * nat);
  samesite_by_domain : list (string * list (string * nat))
}.

Definition on_cookies_per_domain f (s : stats) : stats :=
  let (a1, a2, a3, a4, a5, a6, a7, a8, a9, a10, a11, a12, a13, a14, a15, a16, a17, a18, a19) := s in
  mk_stats a1 a2 a3 a4 (f a5) a6 a7 a8 a9 a10 a11 a12 a13 a14 a15 a16 a17 a18 a19.
Definition on_storage_per_domain f (s : stats) : stats :=
  let (a1, a2, a3, a4, a5, a6, a7, a8, a9, a10, a11, a12, a13, a14, a15, a16, a17, a18, a19) := s in
  mk_stats a1 a2 a3 a4 a5 (f a6) a7 a8 a9 a10 a11 a12 a13 a14 a15 a16 a17 a18 a19.
Definition on_common_cookie_names f (s : stats) : stats :=
  let (a1, a2, a3, a4, a5, a6, a7, a8, a9, a10, a11, a12, a13, a14, a15, a16, a17, a18, a19) := s in
  mk_stats a1 a2 a3 a4 a5 a6 (f a7) a8 a9 a10 a11 a12 a13 a14 a15 a16 a17 a18 a19.
Definition on_common_storage_keys f (s : stats) : stats :=
  let (a1, a2, a3, a4, a5, a6, a7, a8, a9, a10, a11, a12, a13, a14, a15, a16, a17, a18, a19) := s in
  mk_stats a1 a2 a3 a4 a5 a6 a7 (f a8) a9 a10 a11 a12 a13 a14 a15 a16 a17 a18 a19.
Definition on_secure_cookies f (s : stats) : stats :=
  let (a1, a2, a3, a4, a5, a6, a7, a8, a9, a10, a11, a12, a13, a14, a15, a16, a17, a18, a19) := s in
  mk_stats a1 a2 a3 a4 a5 a6 a7 a8 (f a9) a10 a11 a12 a13 a14 a15 a16 a17 a18 a19.
Definition on_httponly_cookies f (s : stats) : stats :=
  let (a1, a2, a3, a4, a5, a6, a7, a8, a9, a10, a11, a12, a13, a14, a15, a16, a17, a18, a19) := s in
  mk_stats a1 a2 a3 a4 a5 a6 a7 a8 a9 (f a10) a11 a12 a13 a14 a15 a16 a17 a18 a19.
Definition on_third_party_cookies f (s : stats) : stats :=
  let (a1, a2, a3, a4, a5, a6, a7, a8, a9, a10, a11, a12, a13, a14, a15, a16, a17, a18, a19) := s in
  mk_stats a1 a2 a3 a4 a5 a6 a7 a8 a9 a10 (f a11) a12 a13 a14 a15 a16 a17 a18 a19.
Definition on_session_cookies f (s : stats) : stats :=
  let (a1, a2, a3, a4, a5, a6, a7, a8, a9, a10, a11, a12, a13, a14, a15, a16, a17, a18, a19) := s in
  mk_stats a1 a2 a3 a4 a5 a6 a7 a8 a9 a10 a11 (f a12) a13 a14 a15 a16 a17 a18 a19.
Definition on_persistent_cookies f (s : stats) : stats :=
  let (a1, a2, a3, a4, a5, a6, a7, a8, a9, a10, a11, a12, a13, a14, a15, a16, a17, a18, a19) := s in
  mk_stats a1 a2 a3 a4 a5 a6 a7 a8 a9 a10 a11 a12 (f a13) a14 a15 a16 a17 a18 a19.
Definition on_cookie_age_categories f (s : stats) : stats :=
  let (a1, a2, a3, a4, a5, a6, a7, a8, a9, a10, a11, a12, a13, a14, a15, a16, a17, a18, a19) := s in
  mk_stats a1 a2 a3 a4 a5 a6 a7 a8 a9 a10 a11 a12 a13 (f a14) a15 a16 a17 a18 a19.
Definition on_avg_cookie_age_days f (s : stats) : stats :=
  let (a1, a2, a3, a4, a5, a6, a7, a8, a9, a10, a11, a12, a13, a14, a15, a16, a17, a18, a19) := s in
  mk_stats a1 a2 a3 a4 a5 a6 a7 a8 a9 a10 a11 a12 a13 a14 (f a15) a16 a17 a18 a19.
Definition on_max_cookie_age_days f (s : stats) : stats :=
  let (a1, a2, a3, a4, a5, a6, a7, a8, a9, a10, a11, a12, a13, a14, a15, a16, a17, a18, a19) := s in
  mk_stats a1 a2 a3 a4 a5 a6 a7 a8 a9 a10 a11 a12 a13 a14 a15 (f a16) a17 a18 a19.
Definition on_cookie_age_distribution f (s : stats) : stats :=
  let (a1, a2, a3, a4, a5, a6, a7, a8, a9, a10, a11, a12, a13, a14, a15, a16, a17, a18, a19) := s in
  mk_stats a1 a2 a3 a4 a5 a6 a7 a8 a9 a10 a11 a12 a13 a14 a15 a16 (f a17) a18 a19.
Definition on_samesite_stats f (s : stats) : stats :=
  let (a1, a2, a3, a4, a5, a6, a7, a8, a9, a10, a11, a12, a13, a14, a15, a16, a17, a18, a19) := s in
  mk_stats a1 a2 a3 a4 a5 a6 a7 a8 a9 a10 a11 a12 a13 a14 a15 a16 a17 (f a18) a19.
Definition on_samesite_by_domain f (s : stats) : stats :=
  let (a1, a2, a3, a4, a5, a6, a7, a8, a9, a10, a11, a12, a13, a14, a15, a16, a17, a18, a19) := s in
  mk_stats a1 a2 a3 a4 a5 a6 a7 a8 a9 a10 a11 a12 a13 a14 a15 a16 a17 a18 (f a19).

Definition zero_categories : age_categories := mk_age_categories 0 0 0 0 0.

Definition zero_samesite : list (string * nat) :=
  [("None", 0%nat); ("Lax", 0%nat); ("Strict", 0%nat); ("unspecified", 0%nat)].

(** [d[k] += 1] on a key that is there. *)
Definition incr (k : string) (d : list (string * nat)) : list (string * nat) :=
  match sget k d with
  | Some n => sset k (n + 1)%nat d
  | None => d
  end.

(** The age bucket of a persistent cookie with a known age. *)
Definition bump_category (age_days : Q) (c : age_categories) : age_categories :=
  let (se, sh, me, lo, ex) := c in
  if Qle_bool age_days 0 then mk_age_categories se sh me lo (ex + 1)
  else if Qlt_bool age_days 1 then mk_age_categories se (sh + 1) me lo ex
  else if Qle_bool age_days 30 then mk_age_categories se sh (me + 1) lo ex
  else mk_age_categories se sh me (lo + 1) ex.

Definition bump_session (c : age_categories) : age_categories :=
  let (se, sh, me, lo, ex) := c in mk_age_categories (se + 1) sh me lo ex.

(** The samesite label a cookie is counted under. *)
Definition samesite_label (cookie : cookie) : string :=
  let samesite := or_else (c_samesite cookie) "" in
  if is_empty samesite then "unspecified"
  else if negb (mem (lower samesite) ["none"; "lax"; "strict"]) then "unspecified"
  else capitalize samesite.

(** The test of the third-party counter. *)
Definition counts_as_third_party (main_domain cookie_domain : string) : bool :=
  negb (is_empty cookie_domain)
  && negb (endswith main_domain cookie_domain)
  && negb (endswith cookie_domain main_domain).

(** The ['age'] part of the loop body. *)
Definition count_age (st : stats) (cookie : cookie) : stats :=
  match c_age cookie with
  | None => st
  | Some age_info =>
      if or_else (age_is_session age_info) true then
        on_cookie_age_categories bump_session (on_session_cookies S st)
      else
        let st := on_persistent_cookies S st in
        match age_days age_info with
        | None => st
        | Some age_days =>
            let st := on_cookie_age_categories (bump_category age_days) st in
            let rounded_age := Z.max 0 (py_int age_days) in
            on_cookie_age_distribution (Dict.bump Z.eqb rounded_age) st
        end
  end.

(** The body of [for cookie in cookies]. *)
Definition count_cookie (domain main_domain : string) (st : stats) (cookie : cookie)
  : stats :=
  let name := or_else (c_name cookie) "" in
  let st := on_common_cookie_names (Dict.bump String.eqb name) st in
  let st := if or_else (c_secure cookie) false then on_secure_cookies S st else st in
  let st := if or_else (c_httponly cookie) false then on_httponly_cookies S st else st in
  let cookie_domain := or_else (c_domain cookie) "" in
  let st :=
    if counts_as_third_party main_domain cookie_domain
    then on_third_party_cookies S st else st in
  let st := count_age st cookie in
  let samesite := samesite_label cookie in
  let st := on_samesite_stats (incr samesite) st in
  let st :=
    if negb (shas domain (samesite_by_domain st))
    then on_samesite_by_domain (sset domain zero_samesite) st else st in
  on_samesite_by_domain
    (fun d => sset domain (incr samesite (sget_or domain [] d)) d) st.

(** [main_domain] of a snapshot. *)
Definition main_domain_of (data : snapshot) : string :=
  match d_url data with
  | Some url => join "." (last_n 2 (split "." (Url.netloc url)))
  | None => "unknown"
  end.

(** The body of [for data in cookie_files]. *)
Definition count_file (st : stats) (data : snapshot) : stats :=
  let domain := or_else (d_url data) "unknown" in
  let cookies := or_else (d_cookies data) [] in
  let local_storage := or_else (d_localStorage data) [] in
  let session_storage := or_else (d_sessionStorage data) [] in
  let st := on_cookies_per_domain (sset domain (List.length cookies)) st in
  let st :=
    on_storage_per_domain
      (sset domain (List.length local_storage + List.length session_storage)%nat) st in
  let main_domain := main_domain_of data in
  let st := fold_left (count_cookie domain main_domain) cookies st in
  let st :=
    fold_left
      (fun st kv => on_common_storage_keys (Dict.bump String.eqb ("localStorage:" ++ fst kv)%string) st)
      local_storage st in
  fold_left
    (fun st kv => on_common_storage_keys (Dict.bump String.eqb ("sessionStorage:" ++ fst kv)%string) st)
    session_storage st.

Definition sum_of (l : list nat) : nat := fold_right Nat.add 0%nat l.

Definition initial_stats (cookie_files : list snapshot) : stats :=
  mk_stats
    (List.length cookie_files)
    (sum_of (map (fun data => List.length (or_else (d_cookies data) [])) cookie_files))
    (sum_of (map (fun data => List.length (or_else (d_localStorage data) [])) cookie_files))
    (sum_of (map (fun data => List.length (or_else (d_sessionStorage data) [])) cookie_files))
    [] [] [] [] 0 0 0 0 0 zero_categories 0 0 [] zero_samesite [].

(** The ages the average and the maximum are taken over. *)
Definition persistent_ages (dist : list (Z * nat)) : list Z :=
  flat_map (fun ac => if (0 <? fst ac)%Z then repeat (fst ac) (snd ac) else []) dist.

(** What follows the loop: the two top-10 tables, average and maximum age,
    the age table in key order. *)
Definition finish (st : stats) : stats :=
  let st := on_common_cookie_names (fun d => firstn 10 (Dict.sorted_desc snd d)) st in
  let st := on_common_storage_keys (fun d => firstn 10 (Dict.sorted_desc snd d)) st in
  let ages := persistent_ages (cookie_age_distribution st) in
  let st :=
    match ages with
    | [] => st
    | a :: rest =>
        let st :=
          on_avg_cookie_age_days
            (fun _ => (inject_Z (fold_right Z.add 0%Z ages)
                       / inject_Z (Z.of_nat (List.length ages)))%Q) st in
        on_max_cookie_age_days (fun _ => fold_right Z.max a rest) st
    end in
  on_cookie_age_distribution (Dict.sorted_asc fst) st.

(** The result for an empty input: it has no ['cookie_age_distribution'] and
    an empty ['domain_analysis'], which no field here stands for. *)
Definition empty_stats : stats :=
  mk_stats 0 0 0 0 [] [] [] [] 0 0 0 0 0 zero_categories 0 0 [] zero_samesite [].

(** [analyze_cookies(cookie_files)] *)
Definition analyze_cookies (cookie_files : list snapshot) : stats :=
  match cookie_files with
  | [] => empty_stats
  | _ => finish (fold_left count_file cookie_files (initial_stats cookie_files))
  end.

End CookieStats.

(** ** cookie_utils.py: analyze_xss_vulnerabilities *)

Module Xss.

Import PyStr.

Record vulnerable_cookie : Type := mk_vulnerable_cookie {
  v_name : string;
  v_matched_patterns : list string;
  v_httponly : bool;
  v_secure : bool
}.

Record vulnerable_domain : Type := mk_vulnerable_domain {
  count : nat;
  cookies : list vulnerable_cookie
}.

Record finding : Type := mk_finding {
  f_domain : string;
  f_cookie_domain : string;
  f_cookie_name : string;
  f_matched_patterns : list string;
  f_httponly : bool;
  f_secure : bool;
  f_path : string;
  f_sameSite : string
}.

Record stats : Type := mk_stats {
  total_cookies_analyzed : nat;
  potentially_vulnerable_cookies : nat;
  xss_findings : list finding;
  vulnerable_domains : list (string * vulnerable_domain)
}.

(** [_initialize_xss_stats()] *)
Definition _initialize_xss_stats : stats := mk_stats 0 0 [] [].

(** The raw patterns of [_get_xss_patterns()]. *)
Definition xss_patterns : list string :=
  [ "<script[^>]*>"; "javascript\s*:"; "\bon\w+\s*="; "\beval\s*\(";
    "document\.cookie"; "document\.location"; "<img[^>]*\bonerror\b[^>]*>";
    "<iframe[^>]*>"; "\balert\s*\("; "\bprompt\s*\("; "\bconfirm\s*\(";
    "\bdocument\.write\s*\("; "\bdocument\.domain"; "\blocation\.href";
    "\blocation\.replace\s*\("; "\bwindow\.open\s*\("; "data:text/html";
    "&#x[0-9a-fA-F]+;"; "&#[0-9]+;"; "\\x[0-9a-fA-F]{2}"; "\\u[0-9a-fA-F]{4}" ].

Section Scanner.

(** [urllib.parse.unquote] and [re.compile(p, re.IGNORECASE).search(v)],
    the latter as the truth value of its result. *)
Variable unquote : string -> string.
Variable re_search : string -> string -> bool.

(** [_check_cookie_for_xss(cookie_value, compiled_patterns, xss_patterns)] *)
Definition _check_cookie_for_xss (cookie_value : string) : list string :=
  let decoded_value := unquote cookie_value in
  filter (fun pattern => re_search pattern decoded_value) xss_patterns.

(** [_update_xss_stats(stats, domain, cookie, cookie_name, cookie_domain,
    matched_patterns)] *)
Definition _update_xss_stats (st : stats) (domain : string) (cookie : cookie)
    (cookie_name cookie_domain : string) (matched_patterns : list string) : stats :=
  let vulnerable := (potentially_vulnerable_cookies st + 1)%nat in
  let domains := vulnerable_domains st in
  let domains :=
    if negb (shas domain domains)
    then sset domain (mk_vulnerable_domain 0 []) domains else domains in
  let entry := sget_or domain (mk_vulnerable_domain 0 []) domains in
  let entry := mk_vulnerable_domain (count entry + 1) (cookies entry) in
  let entry :=
    mk_vulnerable_domain (count entry)
      (cookies entry ++
       [mk_vulnerable_cookie cookie_name matched_patterns
          (or_else (c_httpOnly cookie) false) (or_else (c_secure cookie) false)]) in
  let domains := sset domain entry domains in
  let finding :=
    mk_finding domain cookie_domain cookie_name matched_patterns
      (or_else (c_httpOnly cookie) false) (or_else (c_secure cookie) false)
      (or_else (c_path cookie) "/") (or_else (c_sameSite cookie) "None") in
  mk_stats (total_cookies_analyzed st) vulnerable (xss_findings st ++ [finding]) domains.

(** The body of the loop of [_process_cookies_for_xss]. *)
Definition process_cookie (domain : string) (st : stats) (cookie : cookie) : stats :=
  let st :=
    mk_stats (total_cookies_analyzed st + 1) (potentially_vulnerable_cookies st)
      (xss_findings st) (vulnerable_domains st) in
  let cookie_name := or_else (c_name cookie) "unknown" in
  let cookie_value := or_else (c_value cookie) "" in
  let cookie_domain := or_else (c_domain cookie) domain in
  if is_empty cookie_value then st else
  let matched_patterns := _check_cookie_for_xss cookie_value in
  match matched_patterns with
  | [] => st
  | _ :: _ => _update_xss_stats st domain cookie cookie_name cookie_domain matched_patterns
  end.

(** [_process_cookies_for_xss(data, domain, stats, ...)] *)
Definition _process_cookies_for_xss (data : snapshot) (domain : string) (st : stats)
  : stats :=
  fold_left (process_cookie domain) (or_else (d_cookies data) []) st.

(** The body of [for data in cookie_files]. *)
Definition process_file (st : stats) (data : snapshot) : stats :=
  let url := or_else (d_url data) "unknown" in
  let domain := Url.netloc url in
  _process_cookies_for_xss data domain st.

(** [analyze_xss_vulnerabilities(cookie_files)] *)
Definition analyze_xss_vulnerabilities (cookie_files : list snapshot) : stats :=
  match cookie_files with
  | [] => mk_stats 0 0 [] []
  | _ => fold_left process_file cookie_files _initialize_xss_stats
  end.

End Scanner.

(** The sum of the ['count'] fields over ['vulnerable_domains']. *)
Definition count_sum (domains : list (string * vulnerable_domain)) : nat :=
  fold_right (fun kv acc => (count (snd kv) + acc)%nat) 0%nat domains.

End Xss.

(** ** cookie_utils.py: analyze_domain_relationships *)

Module Relationships.

Import PyStr.

(** An entry of ['third_parties']. ['purposes'] is a Python [set] while the
    files are read, held as its distinct elements in the order they were
    added, and a [list] in the result. *)
Record third_party : Type := mk_third_party {
  count : nat;
  purposes : list string;
  cookie_names : list string
}.

Record first_party : Type := mk_first_party {
  third_parties : list (string * third_party);
  total_third_party_cookies : nat
}.

Record tracker : Type := mk_tracker {
  domain : string;
  tracker_count : nat
}.

Record stats : Type := mk_stats {
  domain_relationships : list (string * first_party);
  third_party_domains : list (string * nat);
  third_party_purposes : list (string * list (string * nat));
  top_trackers : list tracker
}.

Definition empty_stats : stats := mk_stats [] [] [] [].

(** [s.add(x)] *)
Definition set_add (x : string) (s : list string) : list string :=
  if mem x s then s else s ++ [x].

(** [cookie_domain[1:]] when [cookie_domain.startswith('.')] *)
Definition strip_dot (cookie_domain : string) : string :=
  match cookie_domain with
  | String "." rest => rest
  | _ => cookie_domain
  end.

Definition on_relationships (f : list (string * first_party) -> list (string * first_party))
    (st : stats) : stats :=
  mk_stats (f (domain_relationships st)) (third_party_domains st)
    (third_party_purposes st) (top_trackers st).

Definition on_third_party_domains (f : list (string * nat) -> list (string * nat))
    (st : stats) : stats :=
  mk_stats (domain_relationships st) (f (third_party_domains st))
    (third_party_purposes st) (top_trackers st).

Definition on_third_party_purposes
    (f : list (string * list (string * nat)) -> list (string * list (string * nat)))
    (st : stats) : stats :=
  mk_stats (domain_relationships st) (third_party_domains st)
    (f (third_party_purposes st)) (top_trackers st).

(** [rels[fp] = f(rels[fp])], for a key that is there. *)
Definition on_first_party (fp : string) (f : first_party -> first_party)
    (rels : list (string * first_party)) : list (string * first_party) :=
  match sget fp rels with
  | Some e => sset fp (f e) rels
  | None => rels
  end.

(** [rels[fp]['third_parties'][tp] = f(...)], for keys that are there. *)
Definition on_third_party (fp tp : string) (f : third_party -> third_party)
    (rels : list (string * first_party)) : list (string * first_party) :=
  on_first_party fp
    (fun e =>
       match sget tp (third_parties e) with
       | Some t =>
           mk_first_party (sset tp (f t) (third_parties e)) (total_third_party_cookies e)
       | None => e
       end) rels.

(** [if tp not in rels[fp]['third_parties']: rels[fp]['third_parties'][tp] = {...}] *)
Definition ensure_third_party (fp tp : string) (rels : list (string * first_party))
  : list (string * first_party) :=
  on_first_party fp
    (fun e =>
       if negb (shas tp (third_parties e))
       then mk_first_party (sset tp (mk_third_party 0 [] []) (third_parties e))
              (total_third_party_cookies e)
       else e) rels.

(** The updates both branches share: the entry is created if missing, counted,
    and the cookie name recorded. *)
Definition count_relation (fp tp cookie_name : string) (rels : list (string * first_party))
  : list (string * first_party) :=
  let rels := ensure_third_party fp tp rels in
  let rels :=
    on_third_party fp tp
      (fun t => mk_third_party (count t + 1) (purposes t) (cookie_names t)) rels in
  let rels :=
    on_first_party fp
      (fun e => mk_first_party (third_parties e) (total_third_party_cookies e + 1)) rels in
  on_third_party fp tp
    (fun t => mk_third_party (count t) (purposes t) (cookie_names t ++ [cookie_name])) rels.

Section Analysis.

(** [tldextract.extract(d)] rendered as [f"{extract.domain}.{extract.suffix}"];
    it raises nothing on a string. *)
Variable registered : string -> string.

(** [list(s)] on a set of strings: the order in which a set with the given
    history of additions is iterated. *)
Variable iter_order : list string -> list string.

(** The body of [for cookie in third_party_cookies]. *)
Definition tagged_cookie (first_party_registered : string) (st : stats) (cookie : cookie)
  : stats :=
  let cookie_domain := or_else (c_domain cookie) "" in
  if is_empty cookie_domain then st else
  let cookie_domain := strip_dot cookie_domain in
  let third_party_registered := registered cookie_domain in
  if String.eqb third_party_registered first_party_registered then st else
  let cookie_name := or_else (c_name cookie) "unknown" in
  let st :=
    on_relationships
      (count_relation first_party_registered third_party_registered cookie_name) st in
  let purpose := or_else (c_tracking_purpose cookie) "Unknown" in
  let st :=
    on_relationships
      (on_third_party first_party_registered third_party_registered
         (fun t => mk_third_party (count t) (set_add purpose (purposes t)) (cookie_names t)))
      st in
  let st := on_third_party_domains (Dict.bump String.eqb third_party_registered) st in
  let st :=
    if negb (shas third_party_registered (third_party_purposes st))
    then on_third_party_purposes (sset third_party_registered []) st else st in
  on_third_party_purposes
    (fun d =>
       let by_purpose := sget_or third_party_registered [] d in
       sset third_party_registered
         (sset purpose (sget_or purpose 0 by_purpose + 1)%nat by_purpose) d) st.

(** The body of [for cookie in data.get('cookies', [])] of the fallback. *)
Definition untagged_cookie (first_party_domain first_party_registered : string)
    (st : stats) (cookie : cookie) : stats :=
  let cookie_domain := or_else (c_domain cookie) "" in
  if is_empty cookie_domain then st else
  let is_third_party := or_else (c_is_third_party cookie) false in
  let cookie_domain := if is_third_party then cookie_domain else strip_dot cookie_domain in
  let is_third_party :=
    if is_third_party then true
    else negb (String.eqb (registered cookie_domain) first_party_registered) in
  if is_third_party then
    let third_party_registered := registered cookie_domain in
    let cookie_name := or_else (c_name cookie) "unknown" in
    let st :=
      on_relationships
        (count_relation first_party_registered third_party_registered cookie_name) st in
    on_third_party_domains (Dict.bump String.eqb third_party_registered) st
  else st.

(** [if fp not in stats['domain_relationships']: ... = {'third_parties': {},
    'total_third_party_cookies': 0}] *)
Definition enter_first_party (first_party_registered : string) (st : stats) : stats :=
  if negb (shas first_party_registered (domain_relationships st))
  then on_relationships (sset first_party_registered (mk_first_party [] 0)) st
  else st.

(** The body of [for data in cookie_files]. *)
Definition relate_file (st : stats) (data : snapshot) : stats :=
  let url := or_else (d_url data) "unknown" in
  let first_party_domain := Url.netloc url in
  let first_party_registered := registered first_party_domain in
  let st := enter_first_party first_party_registered st in
  let third_party_cookies := or_else (d_third_party_cookies data) [] in
  match third_party_cookies with
  | _ :: _ => fold_left (tagged_cookie first_party_registered) third_party_cookies st
  | [] =>
      match d_cookies data with
      | Some cookies =>
          fold_left (untagged_cookie first_party_domain first_party_registered) cookies st
      | None => st
      end
  end.

(** [purposes = list(purposes)] for every pair of the graph. *)
Definition export_purposes (rels : list (string * first_party))
  : list (string * first_party) :=
  map (fun fe =>
         (fst fe,
          mk_first_party
            (map (fun te =>
                    (fst te,
                     mk_third_party (count (snd te)) (iter_order (purposes (snd te)))
                       (cookie_names (snd te))))
               (third_parties (snd fe)))
            (total_third_party_cookies (snd fe))))
    rels.

(** What follows the loop. *)
Definition finish (st : stats) : stats :=
  let st := on_relationships export_purposes st in
  let top := firstn 10 (Dict.sorted_desc snd (third_party_domains st)) in
  mk_stats (domain_relationships st) (third_party_domains st) (third_party_purposes st)
    (map (fun dc => mk_tracker (fst dc) (snd dc)) top).

(** The state after the loop over the files. *)
Definition relate_files (cookie_files : list snapshot) : stats :=
  fold_left relate_file cookie_files empty_stats.

(** [analyze_domain_relationships(cookie_files)] *)
Definition analyze_domain_relationships (cookie_files : list snapshot) : stats :=
  match cookie_files with
  | [] => empty_stats
  | _ => finish (relate_files cookie_files)
  end.

End Analysis.

(** Python's order on [str]: by code point, a proper prefix first. *)
Fixpoint str_le (a b : string) : bool :=
  match a, b with
  | EmptyString, _ => true
  | String _ _, EmptyString => false
  | String x a', String y b' =>
      if Ascii.eqb x y then str_le a' b'
      else (nat_of_ascii x <? nat_of_ascii y)%nat
  end.

(** [l == sorted(l)] *)
Fixpoint is_sorted (l : list string) : bool :=
  match l with
  | [] => true
  | x :: l' =>
      match l' with
      | [] => true
      | y :: _ => str_le x y && is_sorted l'
      end
  end.

(** Every ['purposes'] field of a relationship graph. *)
Definition all_purposes (rels : list (string * first_party)) : list (list string) :=
  flat_map (fun fe => map (fun te => purposes (snd te)) (third_parties (snd fe))) rels.

End Relationships.

(** ** The specification's wording, for comparison with the code *)

Module Spec.

Import PyStr.

(** [host:port] to [host]: the text before the first colon. *)
Fixpoint strip_port (hostname : string) : string :=
  match hostname with
  | EmptyString => EmptyString
  | String c rest => if Ascii.eqb c ":" then EmptyString else String c (strip_port rest)
  end.

(** The labels of a hostname. *)
Definition labels (hostname : string) : list string := split "." (strip_port hostname).

(** The second-to-last label is a second-level indicator and the last one a
    listed country code. *)
Definition is_special (ls : list string) : bool :=
  mem (nth_last 2 ls) Spider.second_level_labels
  && mem (nth_last 1 ls) Spider.country_labels.

(** Section 4.1 as worded: a hostname with fewer than two labels is returned
    as it was given. *)
Definition registered_domain (hostname : string) : string :=
  let ls := labels hostname in
  if (List.length ls <? 2)%nat then hostname
  else if is_special ls then join "." (last_n 3 ls)
  else join "." (last_n 2 ls).

(** Section 4.4 as worded: the leading dot of the cookie domain is dropped and
    the registered domains of cookie and page are compared. *)
Definition is_third_party (cookie_domain page_domain : string) : bool :=
  negb (String.eqb (Spider.extract_base_domain (Relationships.strip_dot cookie_domain))
          (Spider.extract_base_domain page_domain)).

(** The cookies of a list of snapshots, each with its snapshot. *)
Definition cookie_pairs (cookie_files : list snapshot) : list (snapshot * cookie) :=
  flat_map (fun data => map (pair data) (or_else (d_cookies data) [])) cookie_files.

(** The cookies with a domain that the wording of section 4.4 makes
    third-party. *)
Definition third_party_by_registered_domain (cookie_files : list snapshot) : nat :=
  List.length
    (filter
       (fun dc =>
          let cookie_domain := or_else (c_domain (snd dc)) "" in
          negb (is_empty cookie_domain)
          && is_third_party cookie_domain (Url.netloc (or_else (d_url (fst dc)) "unknown")))
       (cookie_pairs cookie_files)).

(** The cookies that the suffix test of [analyze_cookies] makes third-party. *)
Definition third_party_by_suffix (cookie_files : list snapshot) : nat :=
  List.length
    (filter
       (fun dc =>
          CookieStats.counts_as_third_party (CookieStats.main_domain_of (fst dc))
            (or_else (c_domain (snd dc)) ""))
       (cookie_pairs cookie_files)).

Definition has_age (c : cookie) : bool :=
  match c_age c with Some _ => true | None => false end.

(** All cookies of a list of snapshots. *)
Definition all_cookies (cookie_files : list snapshot) : list cookie :=
  flat_map (fun data => or_else (d_cookies data) []) cookie_files.

(** A snapshot with another ['third_party_cookies'] list. *)
Definition with_third_party_cookies (l : list cookie) (data : snapshot) : snapshot :=
  mk_snapshot (d_url data) (d_cookies data) (d_localStorage data)
    (d_sessionStorage data) (Some l).

End Spec.

(** ** Projections used to state and prove the properties *)

Module Views.

Definition b2n (b : bool) : nat := if b then 1%nat else 0%nat.

(** The number of elements of [l] that pass [p]. *)
Definition count_if {A : Type} (p : A -> bool) (l : list A) : nat :=
  List.length (filter p l).

(** The counters of [analyze_cookies] the claims are about: total,
    third-party, and session plus persistent. *)
Definition view (st : CookieStats.stats) : nat * nat * nat :=
  (CookieStats.total_cookies st, CookieStats.third_party_cookies st,
   (CookieStats.session_cookies st + CookieStats.persistent_cookies st)%nat).

(** What the loop of the XSS report keeps true of the report being built. *)
Definition consistent (st : Xss.stats) : Prop :=
  Xss.potentially_vulnerable_cookies st = List.length (Xss.xss_findings st)
  /\ Xss.potentially_vulnerable_cookies st = Xss.count_sum (Xss.vulnerable_domains st)
  /\ (Xss.potentially_vulnerable_cookies st <= Xss.total_cookies_analyzed st)%nat.

(** Every set of purposes of a relationship graph holds each purpose once. *)
Definition distinct_purposes (rels : list (string * Relationships.first_party)) : Prop :=
  forall fp e, In (fp, e) rels ->
  forall tp t, In (tp, t) (Relationships.third_parties e) ->
  NoDup (Relationships.purposes t).

(** A cookie counted as a session cookie, as a persistent one, and the age
    in days of a persistent one when it is known. *)
Definition is_session_cookie (c : cookie) : bool :=
  match c_age c with
  | Some a => or_else (age_is_session a) true
  | None => false
  end.

Definition is_persistent_cookie (c : cookie) : bool :=
  match c_age c with
  | Some a => negb (or_else (age_is_session a) true)
  | None => false
  end.

Definition known_days (c : cookie) : option Q :=
  match c_age c with
  | Some a => if or_else (age_is_session a) true then None else age_days a
  | None => None
  end.

Definition has_known_days (c : cookie) : bool :=
  match known_days c with Some _ => true | None => false end.

(** The sum of the counts of a table. *)
Definition table_sum {K : Type} (d : list (K * nat)) : nat :=
  fold_right (fun kv acc => (snd kv + acc)%nat) 0%nat d.

Definition categories_sum (c : CookieStats.age_categories) : nat :=
  (CookieStats.cat_short_term c + CookieStats.cat_medium_term c
   + CookieStats.cat_long_term c + CookieStats.cat_expired c)%nat.

(** More fields of [analyze_cookies], and what one cookie does to each. *)
Definition tally (st : CookieStats.stats)
  : nat * nat * nat * nat * CookieStats.age_categories * list (Z * nat)
    * list (string * nat) * list (string * nat) * list (string * nat)
    * list (string * list (string * nat)) :=
  (CookieStats.secure_cookies st, CookieStats.httponly_cookies st,
   CookieStats.session_cookies st, CookieStats.persistent_cookies st,
   CookieStats.cookie_age_categories st, CookieStats.cookie_age_distribution st,
   CookieStats.samesite_stats st, CookieStats.common_cookie_names st,
   CookieStats.cookies_per_domain st, CookieStats.samesite_by_domain st).

Definition categories_step (c : cookie) (cats : CookieStats.age_categories)
  : CookieStats.age_categories :=
  if is_session_cookie c then CookieStats.bump_session cats
  else match known_days c with
       | Some d => CookieStats.bump_category d cats
       | None => cats
       end.

Definition distribution_step (c : cookie) (dist : list (Z * nat)) : list (Z * nat) :=
  match known_days c with
  | Some d => Dict.bump Z.eqb (Z.max 0 (PyNum.py_int d)) dist
  | None => dist
  end.

Definition by_domain_step (dom : string) (c : cookie)
    (sbd : list (string * list (string * nat))) : list (string * list (string * nat)) :=
  let sbd := if negb (shas dom sbd) then sset dom CookieStats.zero_samesite sbd else sbd in
  sset dom (CookieStats.incr (CookieStats.samesite_label c) (sget_or dom [] sbd)) sbd.

Definition tally_cookie (dom : string) (c : cookie)
    (t : nat * nat * nat * nat * CookieStats.age_categories * list (Z * nat)
         * list (string * nat) * list (string * nat) * list (string * nat)
         * list (string * list (string * nat))) :=
  let '(sec, http, ses, per, cats, dist, ss, names, pd, sbd) := t in
  (if or_else (c_secure c) false then S sec else sec,
   if or_else (c_httponly c) false then S http else http,
   if is_session_cookie c then S ses else ses,
   if is_persistent_cookie c then S per else per,
   categories_step c cats,
   distribution_step c dist,
   CookieStats.incr (CookieStats.samesite_label c) ss,
   Dict.bump String.eqb (or_else (c_name c) "") names,
   pd,
   by_domain_step dom c sbd).

(** A cookie the XSS report lists: its value is not empty and the scan of
    it finds a pattern. *)
Definition flagged (scan : string -> list string) (c : cookie) : bool :=
  negb (PyStr.is_empty (or_else (c_value c) ""))
  && match scan (or_else (c_value c) "") with [] => false | _ :: _ => true end.

(** Every entry of ['vulnerable_domains'] counts the cookies it lists, and
    lists at least one. *)
Definition domains_consistent (domains : list (string * Xss.vulnerable_domain)) : Prop :=
  NoDup (map fst domains)
  /\ Forall (fun kv => Xss.count (snd kv) = List.length (Xss.cookies (snd kv))
                       /\ (1 <= Xss.count (snd kv))%nat) domains.

(** The sum of the counts of the third parties of one first party, and the
    sum of the totals of the first parties. *)
Definition third_party_sum (tps : list (string * Relationships.third_party)) : nat :=
  fold_right (fun kv acc => (Relationships.count (snd kv) + acc)%nat) 0%nat tps.

Definition first_party_sum (rels : list (string * Relationships.first_party)) : nat :=
  fold_right (fun kv acc => (Relationships.total_third_party_cookies (snd kv) + acc)%nat)
    0%nat rels.

(** Every first party's total is the sum of the counts of its third
    parties, and every third party has one cookie name per cookie counted. *)
Definition graph_consistent (rels : list (string * Relationships.first_party)) : Prop :=
  forall fp e, In (fp, e) rels ->
    Relationships.total_third_party_cookies e = third_party_sum (Relationships.third_parties e)
    /\ forall tp t, In (tp, t) (Relationships.third_parties e) ->
         Relationships.count t = List.length (Relationships.cookie_names t)
         /\ (1 <= Relationships.count t)%nat.

(** One first party's entry is as [graph_consistent] asks. *)
Definition entry_consistent (e : Relationships.first_party) : Prop :=
  Relationships.total_third_party_cookies e = third_party_sum (Relationships.third_parties e)
  /\ forall tp t, In (tp, t) (Relationships.third_parties e) ->
       Relationships.count t = List.length (Relationships.cookie_names t)
       /\ (1 <= Relationships.count t)%nat.

(** What the loop of the relationship analysis keeps true of the state. *)
Definition counts_consistent (st : Relationships.stats) : Prop :=
  graph_consistent (Relationships.domain_relationships st)
  /\ table_sum (Relationships.third_party_domains st)
     = first_party_sum (Relationships.domain_relationships st)
  /\ NoDup (map fst (Relationships.third_party_domains st)).

(** The two totals of storage items of [analyze_cookies]. *)
Definition storage_totals (st : CookieStats.stats) : nat * nat :=
  (CookieStats.total_localStorage st, CookieStats.total_sessionStorage st).

(** The two fields [analyze_cookies] fills in after its loop. *)
Definition extent (st : CookieStats.stats) : Q * Z :=
  (CookieStats.avg_cookie_age_days st, CookieStats.max_cookie_age_days st).

End Views.

(** ** Sample inputs *)

Module Samples.

(** A cookie in the raw collector format: no derived field. *)
Definition raw_cookie (name cookie_domain : string) : cookie :=
  mk_cookie (Some name) (Some "v") (Some cookie_domain) (Some "/") (Some false)
    (Some false) None (Some "Lax") None None None None.

(** A pre-tagged third-party cookie. *)
Definition tagged (name cookie_domain purpose : string) : cookie :=
  mk_cookie (Some name) (Some "v") (Some cookie_domain) (Some "/") (Some false)
    (Some false) None (Some "") None
    (Some (mk_age_json (Some true) None)) (Some true) (Some purpose).

Definition page (url : string) (cookies : list cookie) : snapshot :=
  mk_snapshot (Some url) (Some cookies) (Some []) (Some []) None.

Definition tagged_page (url : string) (cookies third : list cookie) : snapshot :=
  mk_snapshot (Some url) (Some cookies) (Some []) (Some []) (Some third).

(** A set iterated in the order of insertion. *)
Definition insertion_order (s : list string) : list string := s.

End Samples.

(** ** cookie_spider.py: the cookies of a page *)

Module Collector.

Import PyStr Spider.

(** A cookie as Selenium's [get_cookies()] gives it: [expiry] is a number of
    seconds when it is there. *)
Record selenium_cookie : Type := mk_selenium_cookie {
  s_name : option string;
  s_value : option string;
  s_domain : option string;
  s_path : option string;
  s_expiry : option Q;
  s_secure : option bool;
  s_httpOnly : option bool;
  s_sameSite : option string
}.

(** [s.replace(a, b)] for single characters. *)
Fixpoint replace_char (a b : ascii) (s : string) : string :=
  match s with
  | EmptyString => EmptyString
  | String c s' => String (if Ascii.eqb c a then b else c) (replace_char a b s')
  end.

(** [f"{domain.replace('.', '_')}_{timestamp}.json"], the name a page's file
    is saved under; [timestamp] is the formatted time. *)
Definition saved_filename (domain timestamp : string) : string :=
  (replace_char "." "_" domain ++ "_" ++ timestamp ++ ".json")%string.

(** The ['age'] dict as it is read back from the saved file. *)
Definition age_as_json (a : age_info) : age_json :=
  mk_age_json (Some (is_session a)) (days a).

Section Collect.

(** [tldextract.extract(d)] rendered as [f"{extract.domain}.{extract.suffix}"],
    and [float] on a string. *)
Variable registered : string -> string.
Variable float_of_str : string -> option Q.

(** [is_third_party_cookie(self, cookie_domain, page_domain)]; [registered]
    raises nothing, so the [except] branch is never taken. *)
Definition is_third_party_cookie (cookie_domain page_domain : string) : bool * string :=
  if is_empty cookie_domain then (false, "No cookie domain") else
  let cookie_domain := Relationships.strip_dot cookie_domain in
  let page_registered_domain := registered page_domain in
  let cookie_registered_domain := registered cookie_domain in
  let is_third_party :=
    negb (String.eqb page_registered_domain cookie_registered_domain) in
  let domain_info :=
    ("Page: " ++ page_registered_domain ++ ", Cookie: " ++ cookie_registered_domain)%string in
  (is_third_party, domain_info).

(** The [cookie_info] dict of one cookie, as it is read back from the saved
    file; the keys ['expires'] and ['domain_info'], which no analysis here
    reads, are left out. *)
Definition cookie_info (main_domain : string) (current_time : Q) (raw : selenium_cookie)
  : cookie :=
  let expiry := match s_expiry raw with Some q => ExpNum q | None => ExpNone end in
  let age_info := calculate_cookie_age float_of_str expiry current_time in
  let cookie_domain := or_else (s_domain raw) "" in
  let (is_third_party, domain_info) := is_third_party_cookie cookie_domain main_domain in
  let tracking_purpose :=
    identify_tracking_purpose (or_else (s_name raw) "") (or_else (s_value raw) "") in
  mk_cookie (Some (or_else (s_name raw) "")) (Some (or_else (s_value raw) ""))
    (Some cookie_domain) (Some (or_else (s_path raw) "/"))
    (Some (or_else (s_secure raw) false)) (Some (or_else (s_httpOnly raw) false))
    None (Some (or_else (s_sameSite raw) "")) None
    (Some (age_as_json age_info)) (Some is_third_party) (Some tracking_purpose).

(** The body of [for cookie in selenium_cookies]: the pair is
    [(cookie_data, third_party_cookies)]. *)
Definition collect_cookie (main_domain : string) (current_time : Q)
    (lists : list cookie * list cookie) (raw : selenium_cookie)
  : list cookie * list cookie :=
  let info := cookie_info main_domain current_time raw in
  let cookie_data := fst lists ++ [info] in
  let third_party_cookies :=
    if or_else (c_is_third_party info) false then snd lists ++ [info] else snd lists in
  (cookie_data, third_party_cookies).

(** The part of [process_selenium_page] that turns the browser's cookies
    and storage into the record saved for the page. *)
Definition collect_page (url : string) (current_time : Q)
    (selenium_cookies : list selenium_cookie)
    (local_storage session_storage : list (string * string)) : snapshot :=
  let main_domain := Url.netloc url in
  let lists :=
    fold_left (collect_cookie main_domain current_time) selenium_cookies ([], []) in
  mk_snapshot (Some url) (Some (fst lists)) (Some local_storage) (Some session_storage)
    (Some (snd lists)).

(** The pages of a run: URL, time, cookies and the two storages of each. *)
Definition collect_pages
    (pages : list (string * Q * list selenium_cookie
                   * list (string * string) * list (string * string)))
  : list snapshot :=
  map (fun page =>
         let '(url, current_time, selenium_cookies, local_storage, session_storage) := page in
         collect_page url current_time selenium_cookies local_storage session_storage)
    pages.

(** A cookie with a domain whose registered domain is not [fp]'s. *)
Definition foreign (fp : string) (c : cookie) : bool :=
  negb (is_empty (or_else (c_domain c) ""))
  && negb (String.eqb (registered (Relationships.strip_dot (or_else (c_domain c) ""))) fp).

End Collect.

End Collector.

(** ** use_cookies.py *)

Module UseCookies.

Import PyStr.


(** The test a file name passes to be taken for the domain. *)
Definition is_candidate (target_domain filename : string) : bool :=
  startswith (Collector.replace_char "." "_" target_domain) filename
  && endswith ".json" filename.


(** What a statement can end in. *)
Inductive outcome (A : Type) : Type :=
| Returned (a : A)
| KeyError (key : string).

Arguments Returned {A} a.
Arguments KeyError {A} key.

(** The loop of [make_request_with_cookies] that builds [cookies_dict]:
    [cookie['name']] and [cookie['value']] raise on a missing key. *)
Definition add_cookie (cookies_dict : outcome (list (string * string))) (cookie : cookie)
  : outcome (list (string * string)) :=
  match cookies_dict with
  | KeyError key => KeyError key
  | Returned d =>
      match c_name cookie with
      | None => KeyError "name"
      | Some name =>
          match c_value cookie with
          | None => KeyError "value"
          | Some value => Returned (sset name value d)
          end
      end
  end.

Definition cookies_dict (cookies : list cookie) : outcome (list (string * string)) :=
  fold_left add_cookie cookies (Returned []).

(** A cookie with both keys, and a cookie of a given name. *)
Definition complete (c : cookie) : Prop := c_name c <> None /\ c_value c <> None.

Definition named (name : string) (c : cookie) : bool :=
  match c_name c with Some n => String.eqb n name | None => false end.

End UseCookies.

(** ** cookie_utils.py: the grouped age histogram and the report *)

Module Report.

Import PyStr.

(** [ranges]: lower bound and upper bound, [None] for [float('inf')]. *)
Definition ranges : list (Z * option Z) :=
  [(0, Some 1); (1, Some 7); (7, Some 30); (30, Some 90); (90, Some 180);
   (180, Some 365); (365, None)]%Z.

(** [min_age <= age < max_age] *)
Definition in_range (age : Z) (r : Z * option Z) : bool :=
  (fst r <=? age)%Z
  && match snd r with Some max_age => (age <? max_age)%Z | None => true end.

(** [for i, (min_age, max_age) in enumerate(ranges): if ...:
    range_counts[i] += count; break] *)
Fixpoint add_to_range (age : Z) (count : nat) (rs : list (Z * option Z))
    (range_counts : list nat) : list nat :=
  match rs, range_counts with
  | r :: rs', n :: range_counts' =>
      if in_range age r then (n + count)%nat :: range_counts'
      else n :: add_to_range age count rs' range_counts'
  | _, _ => range_counts
  end.

(** The grouping of the age table used by [generate_charts] and
    [print_stats] when it has more than ten keys. *)
Definition range_counts (distribution : list (Z * nat)) : list nat :=
  fold_left (fun counts ac => add_to_range (fst ac) (snd ac) ranges counts)
    distribution (repeat 0%nat (List.length ranges)).

(** What [print_stats] has done when it stops: the lines printed, and the
    exception if it raised one. *)
Inductive printed : Type :=
| Printed (lines : list string)
| Raised (lines : list string) (exception : string).

Definition of_nat (n : nat) : string := of_Z (Z.of_nat n).

Section PrintStats.

(** [f"{x:.1f}"], and the statements of [print_stats] from the SameSite
    section on, given the lines printed before. *)
Variable format_1f : Q -> string.
Variable rest_of_report : CookieStats.stats -> list string -> printed.

(** [n / total * 100]: [None] is [ZeroDivisionError]. *)
Definition percentage (n total : nat) : option Q :=
  if (total =? 0)%nat then None
  else Some (inject_Z (Z.of_nat n) / inject_Z (Z.of_nat total) * 100)%Q.

(** One line [f"{label}: {n} ({n/total*100:.1f}% of total)"]. *)
Definition share_line (label : string) (n total : nat) (lines : list string)
    (next : list string -> printed) : printed :=
  match percentage n total with
  | None => Raised lines "ZeroDivisionError"
  | Some p =>
      next (lines ++ [(label ++ ": " ++ of_nat n ++ " (" ++ format_1f p ++ "% of total)")%string])
  end.

(** [print_stats(stats)] down to the line of the third-party cookies. *)
Definition print_stats (stats : CookieStats.stats) : printed :=
  let total := CookieStats.total_cookies stats in
  let lines :=
    ["=== Browser Storage Statistics ===";
     ("Total domains analyzed: " ++ of_nat (CookieStats.total_domains stats))%string;
     "";
     "--- Cookie Statistics ---";
     ("Total cookies found: " ++ of_nat total)%string] in
  share_line "Secure cookies" (CookieStats.secure_cookies stats) total lines (fun lines =>
  share_line "HttpOnly cookies" (CookieStats.httponly_cookies stats) total lines (fun lines =>
  share_line "Third-party cookies" (CookieStats.third_party_cookies stats) total lines
    (rest_of_report stats))).

End PrintStats.

End Report.

(** ** cookie_utils.py: export_cookies_to_csv *)

Module CsvExport.

(** [s[:n]] *)
Fixpoint take (n : nat) (s : string) : string :=
  match n, s with
  | S n', String c s' => String c (take n' s')
  | _, _ => EmptyString
  end.

(** [v[:30] + '...' if len(v) > 30 else v] *)
Definition truncate (value : string) : string :=
  if (30 <? String.length value)%nat then (take 30 value ++ "...")%string else value.

(** A row of the table. The columns ['timestamp'], ['source'] and
    ['expires'] are read from keys that the records here do not hold; they
    are left out. *)
Record row : Type := mk_row {
  r_type : string;
  r_domain : string;
  r_name : string;
  r_value : string;
  r_storage_domain : string;
  r_path : string;
  r_secure : bool;
  r_httponly : bool;
  r_samesite : string;
  r_storage_type : string
}.

Definition cookie_row (domain : string) (cookie : cookie) : row :=
  mk_row "cookie" domain (or_else (c_name cookie) "")
    (truncate (or_else (c_value cookie) ""))
    (or_else (c_domain cookie) "") (or_else (c_path cookie) "")
    (or_else (c_secure cookie) false) (or_else (c_httponly cookie) false)
    (or_else (c_samesite cookie) "") "N/A".

Definition storage_row (domain storage_type : string) (item : string * string) : row :=
  mk_row "storage" domain (fst item) (truncate (snd item)) domain "/" false false ""
    storage_type.

(** The body of [for data in cookie_files]: the pair is
    [(cookie_rows, storage_rows)]. *)
Definition export_file (rows : list row * list row) (data : snapshot)
  : list row * list row :=
  let domain := or_else (d_url data) "unknown" in
  let cookie_rows :=
    fold_left (fun rows cookie => rows ++ [cookie_row domain cookie])
      (or_else (d_cookies data) []) (fst rows) in
  let storage_rows :=
    fold_left (fun rows item => rows ++ [storage_row domain "localStorage" item])
      (or_else (d_localStorage data) []) (snd rows) in
  let storage_rows :=
    fold_left (fun rows item => rows ++ [storage_row domain "sessionStorage" item])
      (or_else (d_sessionStorage data) []) storage_rows in
  (cookie_rows, storage_rows).

(** [export_cookies_to_csv(cookie_files, output_file)]: the rows written,
    [None] when no file is written. *)
Definition export_cookies_to_csv (cookie_files : list snapshot) : option (list row) :=
  let rows := fold_left export_file cookie_files ([], []) in
  let all_rows := fst rows ++ snd rows in
  match all_rows with
  | [] => None
  | _ :: _ => Some all_rows
  end.

End CsvExport.

(** * Properties *)

Import PyStr PyNum.

(** ** The string operations against their meaning *)

Section Strings.

Lemma startswith_iff :
  forall p s, startswith p s = true <-> exists rest, s = (p ++ rest)%string.
Proof.
  induction p as [|a p IH]; intro s; cbn -[Ascii.eqb].
  - split; [intros _; exists s; reflexivity | reflexivity].
  - destruct s as [|b s]; cbn -[Ascii.eqb].
    + split; [discriminate | intros [rest H]; discriminate].
    + rewrite andb_true_iff, Ascii.eqb_eq, IH. split.
      * intros [-> [rest ->]]. exists rest. reflexivity.
      * intros [rest H]. injection H as -> ->. split; [reflexivity | exists rest; reflexivity].
Qed.

Lemma endswith_iff :
  forall p s, endswith p s = true <-> exists pre, s = (pre ++ p)%string.
Proof.
  intros p s. split.
  - induction s as [|c s IH]; cbn [endswith]; rewrite orb_true_iff.
    + intros [H|H]; [|discriminate]. apply String.eqb_eq in H. subst p.
      exists EmptyString. reflexivity.
    + intros [H|H].
      * apply String.eqb_eq in H. subst p. exists EmptyString. reflexivity.
      * destruct (IH H) as [pre ->]. exists (String c pre). reflexivity.
  - intros [pre ->]. induction pre as [|c pre IH].
    + cbn [String.append]. destruct p; cbn [endswith]; rewrite String.eqb_refl; reflexivity.
    + cbn [String.append endswith]. rewrite IH. apply orb_true_r.
Qed.


Lemma split_nonempty : forall sep s, split sep s <> [].
Proof.
  intros sep s. destruct s as [|c s]; cbn -[Ascii.eqb]; [discriminate|].
  destruct (Ascii.eqb c sep); [discriminate|].
  destruct (split sep s); discriminate.
Qed.

(** Joining the pieces of a split gives the string back. *)
Lemma join_split :
  forall sep s, join (String sep EmptyString) (split sep s) = s.
Proof.
  intros sep s. unfold join. induction s as [|c s IH]; [reflexivity|].
  cbn -[Ascii.eqb]. destruct (Ascii.eqb c sep) eqn:E.
  - apply Ascii.eqb_eq in E. subst c.
    destruct (split sep s) as [|h t] eqn:Hs; [exfalso; exact (split_nonempty _ _ Hs)|].
    cbn [String.concat String.append] in *. rewrite IH. reflexivity.
  - destruct (split sep s) as [|h t] eqn:Hs; [exfalso; exact (split_nonempty _ _ Hs)|].
    cbn [String.concat] in *. destruct t as [|h' t'].
    + rewrite IH. reflexivity.
    + rewrite <- IH. reflexivity.
Qed.

End Strings.

(** ** Tracking-purpose classifier *)

Section Purpose.

Import Spider.

(** C2, as the code has it: the name [_ga] is labelled [Analytics], whatever
    the value; the keyword pass matches [ga] before the vendor tables are
    looked at. *)
Theorem ga_is_analytics :
  forall cookie_value, identify_tracking_purpose "_ga" cookie_value = "Analytics".
Proof. intro cookie_value. reflexivity. Qed.

(** C2, as stated, fails: [_ga] is not labelled [Google Analytics]. *)
Lemma ga_is_not_google_analytics :
  identify_tracking_purpose "_ga" "GA1.2.1234.5678" <> "Google Analytics".
Proof. vm_compute. discriminate. Qed.

(** C8: the label does not depend on the cookie value. *)
Theorem purpose_ignores_value :
  forall cookie_name v1 v2,
    identify_tracking_purpose cookie_name v1 = identify_tracking_purpose cookie_name v2.
Proof. intros cookie_name v1 v2. unfold identify_tracking_purpose. reflexivity. Qed.

End Purpose.

(** ** Age calculator *)

Section Age.

Import Spider.

Variable float_of_str : string -> option Q.

(** The session record is returned exactly for a falsy expiry ([None], zero,
    the empty string) and for one [float] rejects. *)
Lemma is_session_iff_falsy_or_unparsable :
  forall e now,
    is_session (calculate_cookie_age float_of_str e now)
    = expiry_falsy e || match to_float float_of_str e with None => true | Some _ => false end.
Proof.
  intros e now. unfold calculate_cookie_age.
  destruct (expiry_falsy e); [reflexivity|].
  destruct (to_float float_of_str e) as [q|]; [|reflexivity].
  destruct (Qle_bool (q - now) 0); reflexivity.
Qed.

(** A numeric expiry other than zero that is not in the future gives the
    expired record. *)
Lemma nonzero_past_expiry_is_expired :
  forall q now,
    Qeq_bool q 0 = false ->
    Qle_bool (q - now) 0 = true ->
    calculate_cookie_age float_of_str (ExpNum q) now
    = mk_age_info (Some (q - now)%Q) (Some ((q - now) / 86400)%Q) "Expired" false.
Proof.
  intros q now Hq Hle. unfold calculate_cookie_age. simpl.
  rewrite Hq, Hle. reflexivity.
Qed.

(** C4 fails at expiry 0: the truthiness test [not expiry_timestamp] takes
    the number zero for a missing expiry, so the session record is returned
    where the expired one is due. *)
Theorem zero_expiry_is_session :
  forall now,
    calculate_cookie_age float_of_str (ExpNum 0) now = session_age_info
    /\ readable (calculate_cookie_age float_of_str (ExpNum 0) 1700000000) <> "Expired"
    /\ Qle_bool (0 - 1700000000) 0 = true.
Proof.
  intro now. split; [reflexivity|]. split; [|reflexivity].
  vm_compute. discriminate.
Qed.

(** C7 fails between one and two units: the count printed is truncated but
    the plural is chosen by comparing the untruncated value with 1. An age of
    1.5 days reads [1 days], 90 seconds [1 minutes]. *)
Theorem truncated_one_is_plural :
  readable (calculate_cookie_age float_of_str (ExpNum 129600) 0) = "1 days"
  /\ py_int (129600 / 86400) = 1%Z
  /\ readable (calculate_cookie_age float_of_str (ExpNum 90) 0) = "1 minutes"
  /\ readable (calculate_cookie_age float_of_str (ExpNum 86400) 0) = "1 day".
Proof. repeat split; reflexivity. Qed.

End Age.

(** ** Domain resolver *)

Section Resolver.

Import Spider.

Lemma contains_colon_false :
  forall d, contains ":" d = false -> Spec.strip_port d = d.
Proof.
  induction d as [|c d IH]; [reflexivity|].
  cbn -[Ascii.eqb]. rewrite (Ascii.eqb_sym c ":"%char).
  destruct (Ascii.eqb ":" c); cbn -[Ascii.eqb]; [discriminate|].
  intro H. rewrite IH by exact H. reflexivity.
Qed.

Lemma hd_split_colon :
  forall d, hd EmptyString (split ":" d) = Spec.strip_port d.
Proof.
  induction d as [|c d IH]; [reflexivity|].
  cbn -[Ascii.eqb]. destruct (Ascii.eqb c ":"); [reflexivity|].
  destruct (split ":" d) as [|h t] eqn:E.
  - exfalso. exact (split_nonempty _ _ E).
  - cbn in *. rewrite IH. reflexivity.
Qed.

(** The port is dropped the same way whether or not there is one. *)
Lemma port_dropped :
  forall d,
    (if contains ":" d then hd EmptyString (split ":" d) else d) = Spec.strip_port d.
Proof.
  intro d. destruct (contains ":" d) eqn:E.
  - apply hd_split_colon.
  - symmetry. apply contains_colon_false. exact E.
Qed.

Lemma last_n_short :
  forall (A : Type) (l : list A) n m,
    (List.length l <= n)%nat -> (List.length l <= m)%nat -> last_n n l = last_n m l.
Proof.
  intros A l n m Hn Hm. unfold last_n.
  replace (List.length l - n)%nat with 0%nat by lia.
  replace (List.length l - m)%nat with 0%nat by lia.
  reflexivity.
Qed.

(** C5, as the code has it: the port is dropped first, and a hostname with
    fewer than two labels comes back without its port. *)
Theorem extract_base_domain_by_labels :
  forall hostname,
    extract_base_domain hostname
    = (let ls := Spec.labels hostname in
       if (List.length ls <? 2)%nat then Spec.strip_port hostname
       else if Spec.is_special ls then join "." (last_n 3 ls)
       else join "." (last_n 2 ls))
    /\ extract_base_domain "www.example.com" = "example.com"
    /\ extract_base_domain "shop.example.co.uk" = "example.co.uk".
Proof.
  intro hostname. split; [|split; reflexivity].
  unfold extract_base_domain, Spec.labels, Spec.is_special.
  destruct hostname as [|c rest]; [reflexivity|].
  cbv [is_empty]. rewrite port_dropped.
  set (host := Spec.strip_port (String c rest)).
  set (parts := split "." host). cbv zeta.
  destruct (Nat.ltb_spec (List.length parts) 2) as [Hlt|Hge].
  - replace (2 <? List.length parts)%nat with false
      by (symmetry; apply Nat.ltb_ge; lia).
    replace (2 <=? List.length parts)%nat with false
      by (symmetry; apply Nat.leb_gt; lia).
    reflexivity.
  - replace (2 <=? List.length parts)%nat with true
      by (symmetry; apply Nat.leb_le; lia).
    destruct (Nat.ltb_spec 2 (List.length parts)) as [Hgt|Hle].
    + reflexivity.
    + rewrite (last_n_short _ parts 3 2) by lia.
      rewrite andb_false_l.
      destruct (mem (nth_last 2 parts) second_level_labels
                && mem (nth_last 1 parts) country_labels); reflexivity.
Qed.

(** C5, as stated, fails: a single label with a port is not returned
    unchanged. *)
Lemma single_label_with_port_loses_port :
  (List.length (Spec.labels "localhost:8080") < 2)%nat
  /\ extract_base_domain "localhost:8080" = "localhost"
  /\ extract_base_domain "localhost:8080" <> "localhost:8080"
  /\ extract_base_domain "localhost:8080" <> Spec.registered_domain "localhost:8080".
Proof.
  split; [vm_compute; lia|]. split; [reflexivity|].
  split; vm_compute; discriminate.
Qed.

End Resolver.

(** ** Aggregator: counters of [analyze_cookies] *)

Section Counters.

Import CookieStats Views.

Lemma view_on_cookies_per_domain f st : view (on_cookies_per_domain f st) = view st.
Proof. destruct st; reflexivity. Qed.
Lemma view_on_storage_per_domain f st : view (on_storage_per_domain f st) = view st.
Proof. destruct st; reflexivity. Qed.
Lemma view_on_common_cookie_names f st : view (on_common_cookie_names f st) = view st.
Proof. destruct st; reflexivity. Qed.
Lemma view_on_common_storage_keys f st : view (on_common_storage_keys f st) = view st.
Proof. destruct st; reflexivity. Qed.
Lemma view_on_secure_cookies f st : view (on_secure_cookies f st) = view st.
Proof. destruct st; reflexivity. Qed.
Lemma view_on_httponly_cookies f st : view (on_httponly_cookies f st) = view st.
Proof. destruct st; reflexivity. Qed.
Lemma view_on_cookie_age_categories f st : view (on_cookie_age_categories f st) = view st.
Proof. destruct st; reflexivity. Qed.
Lemma view_on_avg_cookie_age_days f st : view (on_avg_cookie_age_days f st) = view st.
Proof. destruct st; reflexivity. Qed.
Lemma view_on_max_cookie_age_days f st : view (on_max_cookie_age_days f st) = view st.
Proof. destruct st; reflexivity. Qed.
Lemma view_on_cookie_age_distribution f st : view (on_cookie_age_distribution f st) = view st.
Proof. destruct st; reflexivity. Qed.
Lemma view_on_samesite_stats f st : view (on_samesite_stats f st) = view st.
Proof. destruct st; reflexivity. Qed.
Lemma view_on_samesite_by_domain f st : view (on_samesite_by_domain f st) = view st.
Proof. destruct st; reflexivity. Qed.

Lemma view_on_third_party_cookies st :
  view (on_third_party_cookies S st)
  = (fst (fst (view st)), S (snd (fst (view st))), snd (view st)).
Proof. destruct st; reflexivity. Qed.
Lemma view_on_session_cookies st :
  view (on_session_cookies S st)
  = (fst (fst (view st)), snd (fst (view st)), S (snd (view st))).
Proof. destruct st; reflexivity. Qed.
Lemma view_on_persistent_cookies st :
  view (on_persistent_cookies S st)
  = (fst (fst (view st)), snd (fst (view st)), S (snd (view st))).
Proof. destruct st; unfold view; cbn. rewrite Nat.add_succ_r. reflexivity. Qed.

Create Rewrite HintDb view_db.

#[local] Hint Rewrite view_on_cookies_per_domain view_on_storage_per_domain
  view_on_common_cookie_names view_on_common_storage_keys view_on_secure_cookies
  view_on_httponly_cookies view_on_cookie_age_categories view_on_avg_cookie_age_days
  view_on_max_cookie_age_days view_on_cookie_age_distribution view_on_samesite_stats
  view_on_samesite_by_domain view_on_third_party_cookies view_on_session_cookies
  view_on_persistent_cookies : view_db.

Lemma triple_eq :
  forall (a a' b b' c c' : nat), a = a' -> b = b' -> c = c' -> (a, b, c) = (a', b', c').
Proof. intros; subst; reflexivity. Qed.

(** One step of case analysis on the state a view is taken of. *)
Ltac view_step :=
  first
    [ progress autorewrite with view_db
    | match goal with
      | |- context [view (if ?b then _ else _)] => destruct b eqn:?
      | |- context [view (match ?o with Some _ => _ | None => _ end)] => destruct o eqn:?
      end ].

(** A character that lower-cases to [n], [l] or [s] upper-cases to [N], [L]
    or [S]. *)
Lemma upper_of_lower_initial :
  forall a,
    (lower_char a = "n"%char -> upper_char a = "N"%char)
    /\ (lower_char a = "l"%char -> upper_char a = "L"%char)
    /\ (lower_char a = "s"%char -> upper_char a = "S"%char).
Proof.
  intro a. destruct a as [[] [] [] [] [] [] [] []];
    vm_compute; repeat split; intro H; first [reflexivity | discriminate H].
Qed.

(** The label a cookie is counted under is one of the four keys of the
    SameSite tables, so [stats['samesite_stats'][samesite] += 1] finds it. *)
Lemma samesite_label_is_key :
  forall c, mem (samesite_label c) ["None"; "Lax"; "Strict"; "unspecified"] = true.
Proof.
  intro c. unfold samesite_label.
  destruct (or_else (c_samesite c) "") as [|a rest]; [reflexivity|].
  cbn [is_empty].
  destruct (negb (mem (lower (String a rest)) ["none"; "lax"; "strict"])) eqn:E;
    [reflexivity|].
  apply negb_false_iff in E. unfold mem in E. cbn [existsb lower] in E.
  rewrite !orb_true_iff in E. cbn [capitalize].
  destruct (upper_of_lower_initial a) as (Hn & Hl & Hs).
  destruct E as [E|[E|[E|E]]]; [| | |discriminate];
    apply String.eqb_eq in E; injection E as E1 E2; rewrite E2;
    [rewrite (Hn E1) | rewrite (Hl E1) | rewrite (Hs E1)]; reflexivity.
Qed.

Lemma view_count_age :
  forall st c,
    view (count_age st c)
    = (fst (fst (view st)), snd (fst (view st)), (snd (view st) + b2n (Spec.has_age c))%nat).
Proof.
  intros st c. unfold count_age, Spec.has_age.
  destruct (c_age c) as [a|]; cbn [b2n].
  - repeat view_step; cbn [fst snd]; apply triple_eq; lia.
  - destruct (view st) as [[t th] a]. cbn. apply triple_eq; lia.
Qed.

Lemma view_count_cookie :
  forall dom md st c,
    view (count_cookie dom md st c)
    = (fst (fst (view st)),
       (snd (fst (view st)) + b2n (counts_as_third_party md (or_else (c_domain c) "")))%nat,
       (snd (view st) + b2n (Spec.has_age c))%nat).
Proof.
  intros dom md st c. unfold count_cookie. cbv zeta.
  repeat (view_step || rewrite view_count_age); cbn [fst snd b2n]; apply triple_eq; lia.
Qed.

Lemma view_count_cookies :
  forall dom md cs st,
    view (fold_left (count_cookie dom md) cs st)
    = (fst (fst (view st)),
       (snd (fst (view st))
        + count_if (fun c => counts_as_third_party md (or_else (c_domain c) "")) cs)%nat,
       (snd (view st) + count_if Spec.has_age cs)%nat).
Proof.
  intros dom md cs. unfold count_if.
  induction cs as [|c cs IH]; intro st; cbn [fold_left filter].
  - destruct (view st) as [[t th] a]. cbn. apply triple_eq; lia.
  - rewrite IH, view_count_cookie. cbn [fst snd].
    destruct (counts_as_third_party md (or_else (c_domain c) ""));
      destruct (Spec.has_age c); cbn [b2n List.length]; apply triple_eq; lia.
Qed.

Lemma view_storage_keys :
  forall (prefix : string) (kvs : list (string * string)) st,
    view (fold_left
            (fun st kv =>
               on_common_storage_keys (Dict.bump String.eqb (prefix ++ fst kv)%string) st)
            kvs st)
    = view st.
Proof.
  intros prefix kvs. induction kvs as [|kv kvs IH]; intro st; cbn [fold_left].
  - reflexivity.
  - rewrite IH. apply view_on_common_storage_keys.
Qed.

Lemma view_count_file :
  forall st data,
    view (count_file st data)
    = (fst (fst (view st)),
       (snd (fst (view st))
        + count_if
            (fun c => counts_as_third_party (main_domain_of data) (or_else (c_domain c) ""))
            (or_else (d_cookies data) []))%nat,
       (snd (view st) + count_if Spec.has_age (or_else (d_cookies data) []))%nat).
Proof.
  intros st data. unfold count_file. cbv zeta.
  rewrite !view_storage_keys, view_count_cookies.
  autorewrite with view_db. reflexivity.
Qed.

Lemma view_finish : forall st, view (finish st) = view st.
Proof.
  intro st. unfold finish. cbv zeta.
  rewrite view_on_cookie_age_distribution.
  destruct (persistent_ages _); repeat view_step; reflexivity.
Qed.

Lemma count_if_app :
  forall (A : Type) (p : A -> bool) l1 l2,
    count_if p (l1 ++ l2) = (count_if p l1 + count_if p l2)%nat.
Proof.
  intros A p l1 l2. unfold count_if. rewrite filter_app, length_app. reflexivity.
Qed.

Lemma count_if_pairs :
  forall (p : snapshot * cookie -> bool) data cs,
    count_if p (map (pair data) cs) = count_if (fun c => p (data, c)) cs.
Proof.
  intros p data cs. unfold count_if.
  induction cs as [|c cs IH]; [reflexivity|].
  cbn [map filter]. destruct (p (data, c)); cbn [List.length]; rewrite IH; reflexivity.
Qed.

Lemma count_if_complement :
  forall (A : Type) (p : A -> bool) l,
    (count_if p l + count_if (fun x => negb (p x)) l)%nat = List.length l.
Proof.
  intros A p l. unfold count_if.
  induction l as [|x l IH]; [reflexivity|].
  cbn [filter]. destruct (p x); cbn [negb List.length]; lia.
Qed.

Lemma view_count_files :
  forall files st,
    view (fold_left count_file files st)
    = (fst (fst (view st)),
       (snd (fst (view st))
        + count_if
            (fun dc =>
               counts_as_third_party (main_domain_of (fst dc)) (or_else (c_domain (snd dc)) ""))
            (Spec.cookie_pairs files))%nat,
       (snd (view st) + count_if Spec.has_age (Spec.all_cookies files))%nat).
Proof.
  induction files as [|data files IH]; intro st.
  - cbn [fold_left Spec.cookie_pairs Spec.all_cookies flat_map]. unfold count_if.
    cbn [filter List.length].
    destruct (view st) as [[t th] a]. cbn [fst snd]. apply triple_eq; lia.
  - cbn [fold_left Spec.cookie_pairs Spec.all_cookies flat_map].
    rewrite IH, view_count_file. cbn [fst snd].
    rewrite !count_if_app, count_if_pairs. cbn [fst snd].
    apply triple_eq; unfold Spec.cookie_pairs, Spec.all_cookies; lia.
Qed.

Lemma total_is_length :
  forall files,
    sum_of (map (fun data => List.length (or_else (d_cookies data) [])) files)
    = List.length (Spec.all_cookies files).
Proof.
  induction files as [|data files IH]; [reflexivity|].
  cbn [map sum_of fold_right Spec.all_cookies flat_map].
  rewrite length_app. unfold sum_of in IH. rewrite IH. reflexivity.
Qed.

Lemma view_analyze_cookies :
  forall files,
    view (analyze_cookies files)
    = (List.length (Spec.all_cookies files),
       Spec.third_party_by_suffix files,
       count_if Spec.has_age (Spec.all_cookies files)).
Proof.
  intro files. unfold analyze_cookies.
  destruct files as [|data files]; [reflexivity|].
  rewrite view_finish, view_count_files.
  unfold initial_stats, view at 1 2 3. cbn [total_cookies third_party_cookies
    session_cookies persistent_cookies fst snd].
  rewrite total_is_length. reflexivity.
Qed.

(** C1, as the code has it: session plus persistent counts the cookies that
    carry a non-empty ['age'] record; the others make up the rest of the
    total. *)
Theorem session_plus_persistent_counts_aged :
  forall cookie_files,
    let r := analyze_cookies cookie_files in
    (session_cookies r + persistent_cookies r)%nat
    = count_if Spec.has_age (Spec.all_cookies cookie_files)
    /\ total_cookies r = List.length (Spec.all_cookies cookie_files)
    /\ (session_cookies r + persistent_cookies r
        + count_if (fun c => negb (Spec.has_age c)) (Spec.all_cookies cookie_files))%nat
       = total_cookies r.
Proof.
  intros cookie_files r.
  pose proof (view_analyze_cookies cookie_files) as H. fold r in H.
  unfold view in H. injection H as Ht _ Ha.
  rewrite Ht, Ha. repeat split. apply count_if_complement.
Qed.

(** C1, as stated, fails: a cookie without ['age'] is in the total and in
    neither of the two counters. *)
Lemma cookie_without_age_in_neither_counter :
  let r := analyze_cookies
             [Samples.page "http://example.com/" [Samples.raw_cookie "sid" "example.com"]] in
  total_cookies r = 1%nat
  /\ session_cookies r = 0%nat
  /\ persistent_cookies r = 0%nat
  /\ (session_cookies r + persistent_cookies r)%nat <> total_cookies r.
Proof. vm_compute. repeat split. discriminate. Qed.

(** C3, as the code has it: the third-party counter counts the cookies with
    a domain that neither ends with the last two labels of the page's
    network location nor is a suffix of them. *)
Theorem third_party_counter_is_suffix_test :
  forall cookie_files,
    third_party_cookies (analyze_cookies cookie_files)
    = Spec.third_party_by_suffix cookie_files.
Proof.
  intro cookie_files.
  pose proof (view_analyze_cookies cookie_files) as H.
  unfold view in H. injection H as _ Hth _. exact Hth.
Qed.

(** C3, as stated, fails in both directions: [notexample.com] on a page of
    [example.com] has another registered domain and is not counted;
    [example.com] on a page served from [example.com:8080] has the same
    registered domain and is counted. *)
Lemma third_party_counter_is_not_registered_domain :
  (let files := [Samples.page "http://example.com/"
                   [Samples.raw_cookie "id" "notexample.com"]] in
   third_party_cookies (analyze_cookies files) = 0%nat
   /\ Spec.third_party_by_registered_domain files = 1%nat)
  /\
  (let files := [Samples.page "http://example.com:8080/"
                   [Samples.raw_cookie "id" "example.com"]] in
   third_party_cookies (analyze_cookies files) = 1%nat
   /\ Spec.third_party_by_registered_domain files = 0%nat).
Proof. vm_compute. repeat split. Qed.

End Counters.

(** ** String-keyed tables *)

Section DictFacts.

Context {V : Type}.

Lemma sget_sset_same :
  forall k (v : V) d, sget k (sset k v d) = Some v.
Proof.
  intros k v d. unfold sget, sset.
  induction d as [|[k' v'] d IH]; cbn [Dict.set Dict.get].
  - rewrite String.eqb_refl. reflexivity.
  - destruct (String.eqb k k') eqn:E; cbn [Dict.get]; rewrite E; [reflexivity|exact IH].
Qed.

Lemma sget_sset_other :
  forall k k' (v : V) d, k <> k' -> sget k (sset k' v d) = sget k d.
Proof.
  intros k k' v d Hne. unfold sget, sset.
  assert (Hkk : String.eqb k k' = false) by (apply String.eqb_neq; exact Hne).
  induction d as [|[k2 v2] d IH]; cbn [Dict.set Dict.get].
  - rewrite Hkk. reflexivity.
  - destruct (String.eqb k' k2) eqn:E; cbn [Dict.get].
    + apply String.eqb_eq in E. subst k2. rewrite Hkk. reflexivity.
    + rewrite IH. reflexivity.
Qed.

Lemma sset_sset :
  forall k (v1 v2 : V) d, sset k v2 (sset k v1 d) = sset k v2 d.
Proof.
  intros k v1 v2 d. unfold sset.
  induction d as [|[k' v'] d IH]; cbn [Dict.set].
  - rewrite String.eqb_refl. reflexivity.
  - destruct (String.eqb k k') eqn:E; cbn [Dict.set]; rewrite E; [reflexivity|].
    rewrite IH. reflexivity.
Qed.

Lemma shas_sget :
  forall k (d : list (string * V)),
    shas k d = match sget k d with Some _ => true | None => false end.
Proof. reflexivity. Qed.

Lemma sget_or_some :
  forall k (dflt v : V) d, sget k d = Some v -> sget_or k dflt d = v.
Proof.
  intros k dflt v d H. unfold sget_or, Dict.get_or. unfold sget in H. rewrite H. reflexivity.
Qed.

(** A sum over the values of a table, after one entry is written. *)
Lemma sum_sset :
  forall (w : V -> nat) k v d,
    (fold_right (fun kv acc => w (snd kv) + acc) 0 (sset k v d)
     + match sget k d with Some v0 => w v0 | None => 0 end)%nat
    = (fold_right (fun kv acc => w (snd kv) + acc) 0 d + w v)%nat.
Proof.
  intros w k v d. unfold sget, sset.
  induction d as [|[k' v'] d IH]; cbn [Dict.set Dict.get fold_right snd].
  - lia.
  - destruct (String.eqb k k'); cbn [fold_right snd]; lia.
Qed.

End DictFacts.

(** ** XSS report *)

Section XssReport.

Import Xss Views.

Variable unquote : string -> string.
Variable re_search : string -> string -> bool.

Lemma count_sum_after_update :
  forall dom domains names,
    let domains1 :=
      if negb (shas dom domains)
      then sset dom (mk_vulnerable_domain 0 []) domains else domains in
    let entry := sget_or dom (mk_vulnerable_domain 0 []) domains1 in
    count_sum (sset dom (mk_vulnerable_domain (count entry + 1) (names entry)) domains1)
    = (count_sum domains + 1)%nat.
Proof.
  intros dom domains names. cbv zeta. rewrite shas_sget.
  unfold count_sum.
  destruct (sget dom domains) as [e|] eqn:E; cbn [negb].
  - rewrite (sget_or_some _ _ _ _ E).
    pose proof (sum_sset count dom (mk_vulnerable_domain (count e + 1) (names e)) domains) as H.
    rewrite E in H. cbn [count] in H. lia.
  - rewrite (sget_or_some _ _ _ _ (sget_sset_same dom (mk_vulnerable_domain 0 []) domains)).
    pose proof (sum_sset count dom (mk_vulnerable_domain 0 []) domains) as H0.
    rewrite E in H0.
    pose proof (sum_sset count dom
                  (mk_vulnerable_domain (0 + 1) (names (mk_vulnerable_domain 0 [])))
                  (sset dom (mk_vulnerable_domain 0 []) domains)) as H1.
    rewrite sget_sset_same in H1. cbn [count] in *. lia.
Qed.

Lemma consistent_update :
  forall st dom c name cdom matched,
    (potentially_vulnerable_cookies st < total_cookies_analyzed st)%nat ->
    potentially_vulnerable_cookies st = List.length (xss_findings st) ->
    potentially_vulnerable_cookies st = count_sum (vulnerable_domains st) ->
    consistent (_update_xss_stats st dom c name cdom matched).
Proof.
  intros st dom c name cdom matched Hlt Hlen Hsum.
  unfold consistent, _update_xss_stats. cbv zeta.
  cbn [potentially_vulnerable_cookies xss_findings vulnerable_domains
       total_cookies_analyzed count cookies].
  rewrite length_app. cbn [List.length].
  split; [lia|]. split; [|lia].
  rewrite (count_sum_after_update dom (vulnerable_domains st)
             (fun e => cookies e ++
                [mk_vulnerable_cookie name matched (or_else (c_httpOnly c) false)
                   (or_else (c_secure c) false)])).
  lia.
Qed.

Lemma consistent_process_cookie :
  forall dom st c, consistent st -> consistent (process_cookie unquote re_search dom st c).
Proof.
  intros dom st c (Hlen & Hsum & Hle). unfold process_cookie. cbv zeta.
  destruct (is_empty (or_else (c_value c) "")).
  - unfold consistent. cbn. repeat split; try assumption. lia.
  - destruct (_check_cookie_for_xss unquote re_search (or_else (c_value c) "")).
    + unfold consistent. cbn. repeat split; try assumption. lia.
    + apply consistent_update; cbn; try assumption. lia.
Qed.

Lemma consistent_process_file :
  forall st data, consistent st -> consistent (process_file unquote re_search st data).
Proof.
  intros st data. unfold process_file, _process_cookies_for_xss. cbv zeta.
  generalize (or_else (d_cookies data) []) as cs. intro cs. revert st.
  induction cs as [|c cs IH]; intros st H; cbn [fold_left]; [exact H|].
  apply IH. apply consistent_process_cookie. exact H.
Qed.

(** C9: the counters of the XSS report agree with its lists. *)
Theorem xss_report_consistent :
  forall cookie_files,
    let r := analyze_xss_vulnerabilities unquote re_search cookie_files in
    potentially_vulnerable_cookies r = List.length (xss_findings r)
    /\ potentially_vulnerable_cookies r = count_sum (vulnerable_domains r)
    /\ (potentially_vulnerable_cookies r <= total_cookies_analyzed r)%nat.
Proof.
  intros cookie_files r. change (consistent r). subst r.
  unfold analyze_xss_vulnerabilities.
  assert (Hall : forall files st, consistent st ->
                   consistent (fold_left (process_file unquote re_search) files st)).
  { induction files as [|d files IH]; intros st H; cbn [fold_left]; [exact H|].
    apply IH. apply consistent_process_file. exact H. }
  destruct cookie_files as [|d files].
  - unfold consistent. cbn. repeat split. lia.
  - apply Hall. unfold consistent. cbn. repeat split. lia.
Qed.

End XssReport.

(** ** Domain-relationship graph *)

Section Graph.

Import Relationships Views.

Variable registered : string -> string.
Variable iter_order : list string -> list string.

Lemma in_sset :
  forall (V : Type) (a k : string) (b v : V) d,
    In (a, b) (sset k v d) -> (a = k /\ b = v) \/ In (a, b) d.
Proof.
  intros V a k b v d. unfold sset.
  induction d as [|[k' v'] d IH]; cbn [Dict.set In].
  - intros [H|[]]. injection H as <- <-. left. split; reflexivity.
  - destruct (String.eqb k k') eqn:E; cbn [In].
    + apply String.eqb_eq in E. subst k'.
      intros [H|H]; [injection H as <- <-; left; split; reflexivity | right; right; exact H].
    + intros [H|H]; [right; left; exact H|].
      destruct (IH H) as [H'|H']; [left; exact H' | right; right; exact H'].
Qed.

Lemma sget_in :
  forall (V : Type) (k : string) (v : V) d, sget k d = Some v -> In (k, v) d.
Proof.
  intros V k v d. unfold sget.
  induction d as [|[k' v'] d IH]; cbn [Dict.get In]; [discriminate|].
  destruct (String.eqb k k') eqn:E.
  - apply String.eqb_eq in E. subst k'. intro H. injection H as <-. left. reflexivity.
  - intro H. right. apply IH. exact H.
Qed.

Lemma mem_false_not_in :
  forall x l, mem x l = false -> ~ In x l.
Proof.
  intros x l H Hin. unfold mem in H.
  assert (Ht : existsb (String.eqb x) l = true).
  { apply existsb_exists. exists x. split; [exact Hin | apply String.eqb_refl]. }
  rewrite H in Ht. discriminate.
Qed.

Lemma set_add_nodup :
  forall x s, NoDup s -> NoDup (set_add x s).
Proof.
  intros x s H. unfold set_add. destruct (mem x s) eqn:E; [exact H|].
  apply NoDup_app; [exact H | repeat constructor; intros [] | ].
  intros y Hy [Hx|[]]. subst y. exact (mem_false_not_in _ _ E Hy).
Qed.

(** An update of one first-party entry keeps the sets duplicate-free when the
    new entry has duplicate-free sets. *)
Lemma distinct_on_first_party :
  forall fp f rels,
    distinct_purposes rels ->
    (forall e, In (fp, e) rels ->
       forall tp t, In (tp, t) (third_parties (f e)) -> NoDup (purposes t)) ->
    distinct_purposes (on_first_party fp f rels).
Proof.
  intros fp f rels Hrels Hf. unfold on_first_party.
  destruct (sget fp rels) as [e|] eqn:E; [|exact Hrels].
  intros fp' e' Hin tp t Ht.
  destruct (in_sset _ _ _ _ _ _ Hin) as [[-> ->]|Hold].
  - exact (Hf e (sget_in _ _ _ _ E) tp t Ht).
  - exact (Hrels fp' e' Hold tp t Ht).
Qed.

Lemma distinct_on_third_party :
  forall fp tp f rels,
    distinct_purposes rels ->
    (forall t, NoDup (purposes t) -> NoDup (purposes (f t))) ->
    distinct_purposes (on_third_party fp tp f rels).
Proof.
  intros fp tp f rels Hrels Hf. unfold on_third_party.
  apply distinct_on_first_party; [exact Hrels|].
  intros e He tp' t' Hin.
  destruct (sget tp (third_parties e)) as [t|] eqn:E.
  - cbn [third_parties] in Hin.
    destruct (in_sset _ _ _ _ _ _ Hin) as [[-> ->]|Hold].
    + apply Hf. exact (Hrels fp e He tp t (sget_in _ _ _ _ E)).
    + exact (Hrels fp e He tp' t' Hold).
  - exact (Hrels fp e He tp' t' Hin).
Qed.

Lemma distinct_ensure_third_party :
  forall fp tp rels,
    distinct_purposes rels -> distinct_purposes (ensure_third_party fp tp rels).
Proof.
  intros fp tp rels Hrels. unfold ensure_third_party.
  apply distinct_on_first_party; [exact Hrels|].
  intros e He tp' t' Hin.
  destruct (negb (shas tp (third_parties e))).
  - cbn [third_parties] in Hin.
    destruct (in_sset _ _ _ _ _ _ Hin) as [[-> ->]|Hold].
    + cbn. constructor.
    + exact (Hrels fp e He tp' t' Hold).
  - exact (Hrels fp e He tp' t' Hin).
Qed.

Lemma distinct_count_relation :
  forall fp tp name rels,
    distinct_purposes rels -> distinct_purposes (count_relation fp tp name rels).
Proof.
  intros fp tp name rels Hrels. unfold count_relation. cbv zeta.
  apply distinct_on_third_party; [|intros t Ht; exact Ht].
  apply distinct_on_first_party.
  - apply distinct_on_third_party; [|intros t Ht; exact Ht].
    apply distinct_ensure_third_party. exact Hrels.
  - intros e He tp' t' Hin. cbn [third_parties] in Hin.
    assert (H : distinct_purposes
                  (on_third_party fp tp
                     (fun t => mk_third_party (count t + 1) (purposes t) (cookie_names t))
                     (ensure_third_party fp tp rels))).
    { apply distinct_on_third_party; [|intros t Ht; exact Ht].
      apply distinct_ensure_third_party. exact Hrels. }
    exact (H fp e He tp' t' Hin).
Qed.

Lemma on_first_party_hit :
  forall fp f rels e,
    sget fp rels = Some e -> on_first_party fp f rels = sset fp (f e) rels.
Proof. intros fp f rels e H. unfold on_first_party. rewrite H. reflexivity. Qed.

(** Once the first party has its entry, every subscript of [count_relation]
    finds its key: the pair is counted once more, the total goes up by one
    and the cookie name is recorded. *)
Lemma count_relation_effect :
  forall fp tp name rels e,
    sget fp rels = Some e ->
    let t0 := sget_or tp (mk_third_party 0 [] []) (third_parties e) in
    count_relation fp tp name rels
    = sset fp
        (mk_first_party
           (sset tp (mk_third_party (count t0 + 1) (purposes t0) (cookie_names t0 ++ [name]))
              (third_parties e))
           (total_third_party_cookies e + 1))
        rels.
Proof.
  intros fp tp name rels e He t0. unfold count_relation, ensure_third_party, on_third_party.
  cbv zeta.
  rewrite (on_first_party_hit fp _ rels e He).
  set (e1 := if negb (shas tp (third_parties e))
             then mk_first_party (sset tp (mk_third_party 0 [] []) (third_parties e))
                    (total_third_party_cookies e)
             else e).
  assert (Ht : sget tp (third_parties e1) = Some t0
               /\ total_third_party_cookies e1 = total_third_party_cookies e
               /\ forall v, sset tp v (third_parties e1) = sset tp v (third_parties e)).
  { subst e1 t0. rewrite shas_sget.
    destruct (sget tp (third_parties e)) as [t|] eqn:E; cbn [negb third_parties
      total_third_party_cookies].
    - rewrite (sget_or_some _ _ _ _ E). repeat split. exact E.
    - unfold sget_or, Dict.get_or. unfold sget in E. rewrite E.
      split; [apply sget_sset_same|]. split; [reflexivity|]. intro v. apply sset_sset. }
  destruct Ht as (Ht & Htot & Hset).
  rewrite (on_first_party_hit fp _ _ e1 (sget_sset_same fp e1 rels)).
  rewrite Ht, sset_sset. cbn [third_parties total_third_party_cookies].
  rewrite (on_first_party_hit fp _ _ _ (sget_sset_same fp _ rels)).
  rewrite sset_sset. cbn [third_parties total_third_party_cookies].
  rewrite (on_first_party_hit fp _ _ _ (sget_sset_same fp _ rels)).
  cbn [third_parties total_third_party_cookies].
  rewrite sget_sset_same, !sset_sset. cbn [count purposes cookie_names].
  rewrite Hset, Htot. reflexivity.
Qed.

(** The first party of a snapshot has its entry when the cookies are read. *)
Lemma enter_first_party_has :
  forall fp st, shas fp (domain_relationships (enter_first_party fp st)) = true.
Proof.
  intros fp st. unfold enter_first_party.
  destruct (shas fp (domain_relationships st)) eqn:E; cbn [negb]; [exact E|].
  cbn [domain_relationships on_relationships]. rewrite shas_sget, sget_sset_same.
  reflexivity.
Qed.

Lemma distinct_tagged_cookie :
  forall fp st c,
    distinct_purposes (domain_relationships st) ->
    distinct_purposes (domain_relationships (tagged_cookie registered fp st c)).
Proof.
  intros fp st c H. unfold tagged_cookie. cbv zeta.
  destruct (is_empty (or_else (c_domain c) "")); [exact H|].
  destruct (String.eqb _ fp); [exact H|].
  match goal with
  | |- context [if ?b then _ else _] => destruct b
  end; cbn [domain_relationships on_third_party_purposes on_third_party_domains
            on_relationships];
    (apply distinct_on_third_party;
     [apply distinct_count_relation; exact H
     | intros t Ht; cbn [purposes]; apply set_add_nodup; exact Ht]).
Qed.

Lemma distinct_untagged_cookie :
  forall fpd fp st c,
    distinct_purposes (domain_relationships st) ->
    distinct_purposes (domain_relationships (untagged_cookie registered fpd fp st c)).
Proof.
  intros fpd fp st c H. unfold untagged_cookie. cbv zeta.
  destruct (is_empty (or_else (c_domain c) "")); [exact H|].
  match goal with
  | |- context [if (if ?a then true else ?b) then _ else _] =>
      destruct (if a then true else b)
  end; [|exact H].
  cbn [domain_relationships on_third_party_domains on_relationships].
  apply distinct_count_relation. exact H.
Qed.

Lemma distinct_fold :
  forall (step : stats -> cookie -> stats),
    (forall st c, distinct_purposes (domain_relationships st) ->
                  distinct_purposes (domain_relationships (step st c))) ->
    forall cs st,
      distinct_purposes (domain_relationships st) ->
      distinct_purposes (domain_relationships (fold_left step cs st)).
Proof.
  intros step Hstep cs. induction cs as [|c cs IH]; intros st H; cbn [fold_left].
  - exact H.
  - apply IH. apply Hstep. exact H.
Qed.

Lemma distinct_enter_first_party :
  forall fp st,
    distinct_purposes (domain_relationships st) ->
    distinct_purposes (domain_relationships (enter_first_party fp st)).
Proof.
  intros fp st H. unfold enter_first_party.
  destruct (negb (shas fp (domain_relationships st))); [|exact H].
  cbn [domain_relationships on_relationships].
  intros fp' e' Hin tp t Ht.
  destruct (in_sset _ _ _ _ _ _ Hin) as [[-> ->]|Hold].
  - destruct Ht.
  - exact (H fp' e' Hold tp t Ht).
Qed.

Lemma distinct_relate_file :
  forall st data,
    distinct_purposes (domain_relationships st) ->
    distinct_purposes (domain_relationships (relate_file registered st data)).
Proof.
  intros st data H. unfold relate_file. cbv zeta.
  pose proof (distinct_enter_first_party
                (registered (Url.netloc (or_else (d_url data) "unknown"))) st H) as H1.
  destruct (or_else (d_third_party_cookies data) []) as [|c cs].
  - destruct (d_cookies data) as [cookies|]; [|exact H1].
    apply distinct_fold; [|exact H1].
    intros; apply distinct_untagged_cookie; assumption.
  - apply distinct_fold; [|exact H1].
    intros; apply distinct_tagged_cookie; assumption.
Qed.

Lemma distinct_relate_files :
  forall files, distinct_purposes (domain_relationships (relate_files registered files)).
Proof.
  intro files. unfold relate_files.
  assert (Hall : forall fs st, distinct_purposes (domain_relationships st) ->
            distinct_purposes (domain_relationships (fold_left (relate_file registered) fs st))).
  { induction fs as [|d fs IH]; intros st H; cbn [fold_left]; [exact H|].
    apply IH. apply distinct_relate_file. exact H. }
  apply Hall. intros fp e [].
Qed.

Lemma all_purposes_export :
  forall rels,
    all_purposes (export_purposes iter_order rels) = map iter_order (all_purposes rels).
Proof.
  induction rels as [|[fp e] rels IH]; [reflexivity|].
  cbn [export_purposes map all_purposes flat_map fst snd third_parties].
  rewrite map_app. f_equal.
  - rewrite !map_map. apply map_ext. intros [tp t]. reflexivity.
  - exact IH.
Qed.

Lemma distinct_all_purposes :
  forall rels, distinct_purposes rels -> Forall (@NoDup string) (all_purposes rels).
Proof.
  intros rels H. apply Forall_forall. intros p Hp.
  unfold all_purposes in Hp. apply in_flat_map in Hp.
  destruct Hp as [[fp e] [He Hp]]. apply in_map_iff in Hp.
  destruct Hp as [[tp t] [<- Ht]]. exact (H fp e He tp t Ht).
Qed.

Lemma relationships_finish :
  forall st,
    domain_relationships (finish iter_order st)
    = export_purposes iter_order (domain_relationships st).
Proof. intro st. reflexivity. Qed.

(** C6, as the code has it: each ['purposes'] field of the result is
    [list(s)] of the set [s] gathered for the pair, so it lists every purpose
    of the set once, in the order the set is iterated; nothing sorts it. *)
Theorem purposes_are_listed_sets :
  (forall s, Permutation (iter_order s) s) ->
  forall cookie_files,
    let gathered := all_purposes (domain_relationships (relate_files registered cookie_files)) in
    let r := analyze_domain_relationships registered iter_order cookie_files in
    all_purposes (domain_relationships r) = map iter_order gathered
    /\ Forall2 (@Permutation string) (all_purposes (domain_relationships r)) gathered
    /\ Forall (@NoDup string) (all_purposes (domain_relationships r)).
Proof.
  intros Horder cookie_files gathered r.
  assert (Heq : all_purposes (domain_relationships r) = map iter_order gathered).
  { subst r gathered. unfold analyze_domain_relationships.
    destruct cookie_files as [|d files]; [reflexivity|].
    rewrite relationships_finish. apply all_purposes_export. }
  pose proof (distinct_all_purposes _ (distinct_relate_files cookie_files)) as Hnd.
  fold gathered in Hnd.
  split; [exact Heq|]. rewrite Heq. clear Heq. split.
  - induction gathered as [|p ps IH]; cbn [map]; constructor.
    + apply Horder.
    + apply IH. inversion Hnd; assumption.
  - induction gathered as [|p ps IH]; cbn [map]; constructor.
    + inversion Hnd; subst. apply (Permutation_NoDup (l := p)); [|assumption].
      apply Permutation_sym. apply Horder.
    + apply IH. inversion Hnd; assumption.
Qed.

Lemma tagged_cookie_same_domain :
  forall fp st c,
    registered (strip_dot (or_else (c_domain c) "")) = fp ->
    tagged_cookie registered fp st c = st.
Proof.
  intros fp st c H. unfold tagged_cookie. cbv zeta.
  destruct (is_empty (or_else (c_domain c) "")); [reflexivity|].
  rewrite H, String.eqb_refl. reflexivity.
Qed.

Lemma relate_file_tagged :
  forall st data c cs,
    d_third_party_cookies data = Some (c :: cs) ->
    relate_file registered st data
    = fold_left (tagged_cookie registered (registered (Url.netloc (or_else (d_url data) "unknown"))))
        (c :: cs)
        (enter_first_party (registered (Url.netloc (or_else (d_url data) "unknown"))) st).
Proof.
  intros st data c cs H. unfold relate_file. cbv zeta. rewrite H. reflexivity.
Qed.

(** C10: a pre-tagged entry whose registered domain is the page's leaves the
    whole accumulator as it was, so the snapshot and the analysis come out as
    if the loop over the tagged list had run without the entry. *)
Theorem same_domain_tagged_entry_is_skipped :
  forall pre data post l1 c l2,
    d_third_party_cookies data = Some (l1 ++ c :: l2) ->
    registered (strip_dot (or_else (c_domain c) ""))
    = registered (Url.netloc (or_else (d_url data) "unknown")) ->
    let fp := registered (Url.netloc (or_else (d_url data) "unknown")) in
    (forall st, tagged_cookie registered fp st c = st)
    /\ (forall st,
          relate_file registered st data
          = fold_left (tagged_cookie registered fp) (l1 ++ l2) (enter_first_party fp st))
    /\ analyze_domain_relationships registered iter_order (pre ++ data :: post)
       = finish iter_order
           (fold_left (relate_file registered) post
              (fold_left (tagged_cookie registered fp) (l1 ++ l2)
                 (enter_first_party fp (relate_files registered pre)))).
Proof.
  intros pre data post l1 c l2 Hlist Hsame fp.
  assert (Hskip : forall st, tagged_cookie registered fp st c = st).
  { intro st. apply tagged_cookie_same_domain. exact Hsame. }
  assert (Hfile : forall st,
            relate_file registered st data
            = fold_left (tagged_cookie registered fp) (l1 ++ l2) (enter_first_party fp st)).
  { intro st.
    assert (Hne : exists x xs, l1 ++ c :: l2 = x :: xs).
    { destruct l1 as [|x xs]; [exists c, l2 | exists x, (xs ++ c :: l2)]; reflexivity. }
    destruct Hne as (x & xs & Hx). rewrite Hx in Hlist.
    rewrite (relate_file_tagged st data x xs Hlist). fold fp. rewrite <- Hx.
    rewrite !fold_left_app. cbn [fold_left]. rewrite Hskip. reflexivity. }
  split; [exact Hskip|]. split; [exact Hfile|].
  unfold analyze_domain_relationships.
  destruct (pre ++ data :: post) as [|x xs] eqn:E.
  - destruct pre; discriminate.
  - rewrite <- E. unfold relate_files. rewrite fold_left_app. cbn [fold_left].
    rewrite Hfile. reflexivity.
Qed.

(** With other tagged entries left, the result is that of the snapshot
    without the skipped entry. *)
Lemma removing_skipped_entry :
  forall pre data post l1 c l2,
    d_third_party_cookies data = Some (l1 ++ c :: l2) ->
    registered (strip_dot (or_else (c_domain c) ""))
    = registered (Url.netloc (or_else (d_url data) "unknown")) ->
    l1 ++ l2 <> [] ->
    analyze_domain_relationships registered iter_order (pre ++ data :: post)
    = analyze_domain_relationships registered iter_order
        (pre ++ Spec.with_third_party_cookies (l1 ++ l2) data :: post).
Proof.
  intros pre data post l1 c l2 Hlist Hsame Hne.
  assert (Hfile : forall st,
            relate_file registered st data
            = relate_file registered st (Spec.with_third_party_cookies (l1 ++ l2) data)).
  { intro st.
    destruct (l1 ++ l2) as [|x xs] eqn:E; [contradiction|].
    rewrite (relate_file_tagged st (Spec.with_third_party_cookies (x :: xs) data) x xs)
      by reflexivity.
    cbn [Spec.with_third_party_cookies d_url]. rewrite <- E.
    assert (Hx : exists y ys, l1 ++ c :: l2 = y :: ys).
    { destruct l1 as [|y ys]; [exists c, l2 | exists y, (ys ++ c :: l2)]; reflexivity. }
    destruct Hx as (y & ys & Hy). rewrite Hy in Hlist.
    rewrite (relate_file_tagged st data y ys Hlist). rewrite <- Hy.
    rewrite !fold_left_app. cbn [fold_left].
    rewrite (tagged_cookie_same_domain _ _ c Hsame). reflexivity. }
  unfold analyze_domain_relationships.
  destruct (pre ++ data :: post) as [|x xs] eqn:E1; [destruct pre; discriminate|].
  destruct (pre ++ Spec.with_third_party_cookies (l1 ++ l2) data :: post) as [|z zs] eqn:E2;
    [destruct pre; discriminate|].
  rewrite <- E1, <- E2. unfold relate_files. rewrite !fold_left_app. cbn [fold_left].
  rewrite Hfile. reflexivity.
Qed.

End Graph.

(** ** Instances on sample inputs *)

Section Instances.

Import Relationships Samples.

(** C6, as stated, fails: with a set iterated in insertion order, purposes
    added as [Unknown] then [Analytics] come out in that order. *)
Lemma purposes_in_iteration_order_unsorted :
  (forall s, Permutation (insertion_order s) s)
  /\ all_purposes
       (domain_relationships
          (analyze_domain_relationships Spider.extract_base_domain insertion_order
             [tagged_page "http://www.a.com/" []
                [tagged "uid" ".t.net" "Unknown"; tagged "_ga" "cdn.t.net" "Analytics"]]))
     = [["Unknown"; "Analytics"]]
  /\ is_sorted ["Unknown"; "Analytics"] = false.
Proof.
  split; [intro s; apply Permutation_refl|]. split; reflexivity.
Qed.

Lemma purposes_are_listed_sets_witness :
  (forall s, Permutation (insertion_order s) s)
  /\ Forall (@NoDup string)
       (all_purposes
          (domain_relationships
             (analyze_domain_relationships Spider.extract_base_domain insertion_order
                [tagged_page "http://www.a.com/" []
                   [tagged "uid" ".t.net" "Unknown"; tagged "_ga" "cdn.t.net" "Analytics"]]))).
Proof.
  split; [intro s; apply Permutation_refl|].
  apply (purposes_are_listed_sets Spider.extract_base_domain insertion_order
           (fun s => Permutation_refl s)).
Defined.

Lemma same_domain_tagged_entry_is_skipped_witness :
  let own := tagged "sid" ".a.com" "Session/Authentication" in
  let other := tagged "uid" ".t.net" "Unknown" in
  let data := tagged_page "http://www.a.com/" [] [other; own] in
  d_third_party_cookies data = Some ([other] ++ own :: [])
  /\ Spider.extract_base_domain (strip_dot (or_else (c_domain own) ""))
     = Spider.extract_base_domain (Url.netloc (or_else (d_url data) "unknown"))
  /\ analyze_domain_relationships Spider.extract_base_domain insertion_order ([] ++ data :: [])
     = finish insertion_order
         (fold_left (relate_file Spider.extract_base_domain) []
            (fold_left (tagged_cookie Spider.extract_base_domain "a.com") ([other] ++ [])
               (enter_first_party "a.com" (relate_files Spider.extract_base_domain [])))).
Proof.
  intros own other data.
  split; [reflexivity|]. split; [reflexivity|].
  apply (same_domain_tagged_entry_is_skipped Spider.extract_base_domain insertion_order
           [] data [] [other] own [] eq_refl eq_refl).
Defined.

End Instances.

(** * Further properties of the code *)

(** ** Splitting and joining *)

Section SplitJoin.

Lemma has_char_cons :
  forall c a s,
    contains (String c EmptyString) (String a s)
    = Ascii.eqb c a || contains (String c EmptyString) s.
Proof.
  intros c a s. cbn -[Ascii.eqb]. rewrite andb_true_r. reflexivity.
Qed.

Lemma has_char_app :
  forall c s t,
    contains (String c EmptyString) (s ++ t)
    = contains (String c EmptyString) s || contains (String c EmptyString) t.
Proof.
  intros c s t. induction s as [|a s IH].
  - cbn [String.append]. reflexivity.
  - cbn [String.append]. rewrite !has_char_cons, IH, orb_assoc. reflexivity.
Qed.

Lemma split_without_sep :
  forall sep x, contains (String sep EmptyString) x = false -> split sep x = [x].
Proof.
  intros sep x. induction x as [|a x IH]; [reflexivity|].
  rewrite has_char_cons, orb_false_iff. intros [Ha Hx].
  cbn -[Ascii.eqb]. rewrite Ascii.eqb_sym, Ha, (IH Hx). reflexivity.
Qed.

Lemma split_app_sep :
  forall sep x t,
    contains (String sep EmptyString) x = false ->
    split sep (x ++ String sep t) = x :: split sep t.
Proof.
  intros sep x t. induction x as [|a x IH].
  - intros _. cbn -[Ascii.eqb]. rewrite Ascii.eqb_refl. reflexivity.
  - rewrite has_char_cons, orb_false_iff. intros [Ha Hx].
    cbn -[Ascii.eqb]. rewrite Ascii.eqb_sym, Ha, (IH Hx). reflexivity.
Qed.

(** Splitting what was joined gives the pieces back, when no piece holds the
    separator. *)
Lemma split_join :
  forall sep ls,
    ls <> [] ->
    Forall (fun l => contains (String sep EmptyString) l = false) ls ->
    split sep (join (String sep EmptyString) ls) = ls.
Proof.
  intros sep ls Hne Hall. unfold join.
  induction Hall as [|x rest Hx Hrest IH]; [contradiction|].
  destruct rest as [|y rest'].
  - cbn [String.concat]. apply split_without_sep. exact Hx.
  - change (String.concat (String sep EmptyString) (x :: y :: rest'))
      with (x ++ String sep (String.concat (String sep EmptyString) (y :: rest')))%string.
    rewrite (split_app_sep _ _ _ Hx), IH by discriminate. reflexivity.
Qed.

(** The pieces of a split hold no separator, and no character the string
    does not hold. *)
Lemma split_pieces :
  forall sep c s,
    (Ascii.eqb c sep = true \/ contains (String c EmptyString) s = false) ->
    Forall (fun l => contains (String c EmptyString) l = false) (split sep s).
Proof.
  intros sep c s. induction s as [|a s IH]; intro H.
  - constructor; [reflexivity | constructor].
  - assert (Hs : Ascii.eqb c sep = true \/ contains (String c EmptyString) s = false).
    { destruct H as [H|H]; [left; exact H|].
      rewrite has_char_cons, orb_false_iff in H. right. apply H. }
    specialize (IH Hs). cbn -[Ascii.eqb].
    destruct (Ascii.eqb a sep) eqn:Ea.
    + constructor; [reflexivity | exact IH].
    + destruct (split sep s) as [|h t] eqn:E; [exfalso; exact (split_nonempty _ _ E)|].
      inversion IH as [|h' t' Hh Ht]; subst.
      constructor; [|exact Ht].
      rewrite has_char_cons, Hh, orb_false_r.
      destruct H as [H|H].
      * apply Ascii.eqb_eq in H. subst c. rewrite Ascii.eqb_sym. exact Ea.
      * rewrite has_char_cons, orb_false_iff in H. apply H.
Qed.

Lemma join_without_char :
  forall sep c ls,
    Ascii.eqb c sep = false ->
    Forall (fun l => contains (String c EmptyString) l = false) ls ->
    contains (String c EmptyString) (join (String sep EmptyString) ls) = false.
Proof.
  intros sep c ls Hc Hall. unfold join.
  induction Hall as [|x rest Hx Hrest IH]; [reflexivity|].
  destruct rest as [|y rest'].
  - exact Hx.
  - change (String.concat (String sep EmptyString) (x :: y :: rest'))
      with (x ++ String sep (String.concat (String sep EmptyString) (y :: rest')))%string.
    rewrite has_char_app, has_char_cons, Hx, Hc, IH. reflexivity.
Qed.

Lemma length_last_n :
  forall (A : Type) n (l : list A), List.length (last_n n l) = Nat.min n (List.length l).
Proof. intros A n l. unfold last_n. rewrite length_skipn. lia. Qed.

Lemma Forall_last_n :
  forall (A : Type) (P : A -> Prop) n l, Forall P l -> Forall P (last_n n l).
Proof.
  intros A P n l H. unfold last_n. rewrite <- (firstn_skipn (List.length l - n) l) in H.
  apply Forall_app in H. apply H.
Qed.

Lemma nth_last_last_n :
  forall k n l,
    (1 <= k)%nat -> (k <= n)%nat -> (k <= List.length l)%nat ->
    nth_last k (last_n n l) = nth_last k l.
Proof.
  intros k n l Hk Hkn Hkl. unfold nth_last. rewrite length_last_n.
  unfold last_n. rewrite nth_skipn. f_equal. lia.
Qed.

Lemma last_n_all :
  forall (A : Type) n (l : list A), (List.length l <= n)%nat -> last_n n l = l.
Proof.
  intros A n l H. unfold last_n. replace (List.length l - n)%nat with 0%nat by lia.
  reflexivity.
Qed.

End SplitJoin.

(** ** Domain resolver, further *)

Section ResolverShape.

Import Spider.

Lemma strip_port_without_colon :
  forall d, contains ":" (Spec.strip_port d) = false.
Proof.
  induction d as [|c d IH]; [reflexivity|].
  cbn -[Ascii.eqb contains]. destruct (Ascii.eqb c ":") eqn:E; [reflexivity|].
  rewrite has_char_cons, IH, Ascii.eqb_sym, E. reflexivity.
Qed.

Lemma strip_port_app :
  forall host rest,
    contains ":" host = false -> Spec.strip_port (host ++ String ":" rest) = host.
Proof.
  intros host rest. induction host as [|c host IH]; [reflexivity|].
  rewrite has_char_cons, orb_false_iff. intros [Hc Hh].
  cbn -[Ascii.eqb]. rewrite Ascii.eqb_sym, Hc, (IH Hh). reflexivity.
Qed.

(** The result as a function of the labels of the text before the first
    colon. *)
Lemma extract_base_domain_cases :
  forall d,
    extract_base_domain d
    = (let ls := Spec.labels d in
       if (List.length ls <? 2)%nat then Spec.strip_port d
       else if Spec.is_special ls then join "." (last_n 3 ls)
       else join "." (last_n 2 ls)).
Proof.
  intro d. unfold extract_base_domain, Spec.labels, Spec.is_special.
  destruct d as [|c rest]; [reflexivity|].
  cbv [is_empty]. rewrite port_dropped.
  set (parts := split "." (Spec.strip_port (String c rest))). cbv zeta.
  destruct (Nat.ltb_spec (List.length parts) 2) as [Hlt|Hge].
  - replace (2 <? List.length parts)%nat with false by (symmetry; apply Nat.ltb_ge; lia).
    replace (2 <=? List.length parts)%nat with false by (symmetry; apply Nat.leb_gt; lia).
    reflexivity.
  - replace (2 <=? List.length parts)%nat with true by (symmetry; apply Nat.leb_le; lia).
    destruct (Nat.ltb_spec 2 (List.length parts)) as [Hgt|Hle]; [reflexivity|].
    rewrite andb_false_l, (last_n_all _ 3 parts), (last_n_all _ 2 parts) by lia.
    destruct (_ && _); reflexivity.
Qed.

(** What the three cases have in common: the result is the join of a
    non-empty list of labels without dot or colon, at most three, which
    is special exactly when it has three labels or the input's labels are
    two special ones. *)
Lemma extract_base_domain_labels :
  forall d,
    exists ls,
      extract_base_domain d = join "." ls
      /\ ls <> []
      /\ Forall (fun l => contains "." l = false) ls
      /\ Forall (fun l => contains ":" l = false) ls
      /\ (List.length ls <= 3)%nat
      /\ ((List.length ls < 2)%nat
          \/ (Spec.is_special ls = true)
          \/ (List.length ls = 2%nat /\ Spec.is_special ls = false)).
Proof.
  intro d. rewrite extract_base_domain_cases. cbv zeta.
  pose proof (split_pieces "." "." (Spec.strip_port d) (or_introl eq_refl)) as Hdot.
  pose proof (split_pieces "." ":" (Spec.strip_port d)
                (or_intror (strip_port_without_colon d))) as Hcol.
  fold (Spec.labels d) in Hdot, Hcol.
  assert (Hne : Spec.labels d <> []) by apply split_nonempty.
  destruct (Nat.ltb_spec (List.length (Spec.labels d)) 2) as [Hlt|Hge].
  - exists (Spec.labels d).
    split; [unfold Spec.labels; symmetry; apply join_split|].
    repeat split; try assumption; lia.
  - destruct (Spec.is_special (Spec.labels d)) eqn:Esp.
    + exists (last_n 3 (Spec.labels d)).
      assert (Hlen : List.length (last_n 3 (Spec.labels d))
                     = Nat.min 3 (List.length (Spec.labels d))) by apply length_last_n.
      assert (Hsp : Spec.is_special (last_n 3 (Spec.labels d)) = true).
      { unfold Spec.is_special in *. rewrite !nth_last_last_n by lia. exact Esp. }
      split; [reflexivity|]. split; [intro H; rewrite H in Hlen; cbn [List.length] in Hlen; lia|].
      split; [apply Forall_last_n; assumption|].
      split; [apply Forall_last_n; assumption|]. split; [lia|].
      right. left. exact Hsp.
    + exists (last_n 2 (Spec.labels d)).
      assert (Hlen : List.length (last_n 2 (Spec.labels d))
                     = Nat.min 2 (List.length (Spec.labels d))) by apply length_last_n.
      assert (Hsp : Spec.is_special (last_n 2 (Spec.labels d)) = false).
      { unfold Spec.is_special in *. rewrite !nth_last_last_n by lia. exact Esp. }
      split; [reflexivity|]. split; [intro H; rewrite H in Hlen; cbn [List.length] in Hlen; lia|].
      split; [apply Forall_last_n; assumption|].
      split; [apply Forall_last_n; assumption|]. split; [lia|].
      right. right. split; [lia | exact Hsp].
Qed.

(** The base domain of a base domain is itself. *)
Theorem extract_base_domain_idempotent :
  forall d, extract_base_domain (extract_base_domain d) = extract_base_domain d.
Proof.
  intro d. destruct (extract_base_domain_labels d)
    as (ls & Hr & Hne & Hdot & Hcol & Hlen & Hshape).
  rewrite Hr. rewrite extract_base_domain_cases. cbv zeta.
  assert (Hport : Spec.strip_port (join "." ls) = join "." ls).
  { apply contains_colon_false. apply join_without_char; [reflexivity | exact Hcol]. }
  assert (Hlabels : Spec.labels (join "." ls) = ls).
  { unfold Spec.labels. rewrite Hport. apply split_join; assumption. }
  rewrite Hlabels, Hport.
  destruct Hshape as [Hlt | [Hsp | [H2 Hsp]]].
  - replace (List.length ls <? 2)%nat with true by (symmetry; apply Nat.ltb_lt; exact Hlt).
    reflexivity.
  - rewrite Hsp. rewrite (last_n_all _ 3 ls) by lia.
    destruct (List.length ls <? 2)%nat; reflexivity.
  - rewrite Hsp, H2. cbn [Nat.ltb Nat.leb]. rewrite (last_n_all _ 2 ls) by lia. reflexivity.
Qed.

(** The result never holds a colon and never more than three labels. *)
Theorem extract_base_domain_shape :
  forall d,
    contains ":" (extract_base_domain d) = false
    /\ (1 <= List.length (split "." (extract_base_domain d)) <= 3)%nat.
Proof.
  intro d. destruct (extract_base_domain_labels d)
    as (ls & Hr & Hne & Hdot & Hcol & Hlen & _).
  rewrite Hr. split.
  - apply join_without_char; [reflexivity | exact Hcol].
  - rewrite split_join by assumption. destruct ls; [contradiction | cbn in *; lia].
Qed.

(** A port, and whatever else follows the first colon, has no influence. *)
Theorem extract_base_domain_ignores_port :
  forall host port,
    contains ":" host = false ->
    extract_base_domain (host ++ ":" ++ port) = extract_base_domain host.
Proof.
  intros host port H. rewrite !extract_base_domain_cases. unfold Spec.labels.
  change (host ++ ":" ++ port)%string with (host ++ String ":" port)%string.
  rewrite (strip_port_app host port H), (contains_colon_false host H). reflexivity.
Qed.

End ResolverShape.

(** ** Tracking-purpose classifier, further *)

Section PurposeTables.

Import Spider.

Lemma lower_char_idempotent : forall a, lower_char (lower_char a) = lower_char a.
Proof. intro a. destruct a as [[] [] [] [] [] [] [] []]; reflexivity. Qed.

Lemma lower_idempotent : forall s, lower (lower s) = lower s.
Proof.
  induction s as [|a s IH]; [reflexivity|].
  cbn [lower]. rewrite lower_char_idempotent, IH. reflexivity.
Qed.

(** Names that differ only in the case of ASCII letters get the same label,
    whatever the two values are. *)
Lemma purpose_ignores_case :
  forall name1 name2 v1 v2,
    lower name1 = lower name2 ->
    identify_tracking_purpose name1 v1 = identify_tracking_purpose name2 v2.
Proof.
  intros name1 name2 v1 v2 H. unfold identify_tracking_purpose. cbv zeta.
  rewrite H. reflexivity.
Qed.

Lemma mem_cases :
  forall x l, mem x l = true -> In x l.
Proof.
  intros x l H. unfold mem in H. apply existsb_exists in H.
  destruct H as (y & Hy & E). apply String.eqb_eq in E. subst y. exact Hy.
Qed.

(** One name of a vendor table, tried against the tests of the classifier:
    either it is the name looked for, or a test that was found false is
    true of it, or it has an upper-case letter. *)
Ltac pick_name H :=
  first [ symmetry; exact H | left; symmetry; exact H | right; pick_name H ].

Ltac vendor_name nl :=
  match goal with
  | Hin : In nl _ |- _ =>
      cbn [In] in Hin;
      repeat (destruct Hin as [Hin|Hin];
              [ first
                  [ pick_name Hin
                  | exfalso;
                    match goal with
                    | H : any_in _ nl = false |- _ =>
                        rewrite <- Hin in H; vm_compute in H; discriminate H
                    end
                  | exfalso;
                    match goal with
                    | Hl : lower nl = nl |- _ =>
                        rewrite <- Hin in Hl; vm_compute in Hl; discriminate Hl
                    end ]
              | ]);
      try contradiction
  end.

(** Which names get a vendor label. The entries [_ga], [_gat],
    [_pin_unauth] and [_hjSessionUser] of the vendor tables never decide:
    the first three match a keyword before, the last holds upper-case
    letters and the name is compared in lower case. *)
Theorem vendor_labels :
  forall name v,
    let n := lower name in
    let label := identify_tracking_purpose name v in
    (label = "Facebook Tracking" <-> n = "_fbp" \/ n = "fr")
    /\ (label = "Google Analytics" <-> n = "_gid")
    /\ (label = "Google Analytics (Legacy)"
        <-> n = "__utma" \/ n = "__utmb" \/ n = "__utmc" \/ n = "__utmz")
    /\ (label = "Hotjar Analytics" <-> n = "_hjid")
    /\ (label = "Pinterest Tracking" <-> n = "_pinterest_sess")
    /\ (label = "Twitter Tracking" <-> n = "_twitter_sess" \/ n = "ct0").
Proof.
  intros name v n label.
  assert (Hl : lower n = n) by apply lower_idempotent.
  assert (Hback : forall s, n = s -> identify_tracking_purpose s v = label).
  { intros s Hs. subst label. apply purpose_ignores_case. rewrite <- Hs. exact Hl. }
  subst label. unfold identify_tracking_purpose in *. cbv zeta in *. fold n. fold n in Hback.
  repeat split.
  all: try (intro H;
            repeat match type of H with
                   | _ \/ _ => destruct H as [H|H]
                   end;
            rewrite <- (Hback _ H); reflexivity).
  all: intro H;
    destruct (any_in analytics_keywords n) eqn:K1; [discriminate H|];
    destruct (any_in ad_keywords n) eqn:K2; [discriminate H|];
    destruct (any_in session_keywords n) eqn:K3; [discriminate H|];
    destruct (any_in preference_keywords n) eqn:K4; [discriminate H|];
    destruct (any_in functional_keywords n) eqn:K5; [discriminate H|];
    destruct (mem n ["_fbp"; "fr"]) eqn:M1;
      [try discriminate H; apply mem_cases in M1; clear H |];
    [..| destruct (mem n ["_gid"; "_ga"; "_gat"]) eqn:M2;
      [try discriminate H; apply mem_cases in M2; clear H |];
    [..| destruct (mem n ["__utma"; "__utmb"; "__utmc"; "__utmz"]) eqn:M3;
      [try discriminate H; apply mem_cases in M3; clear H |];
    [..| destruct (mem n ["_hjid"; "_hjSessionUser"]) eqn:M4;
      [try discriminate H; apply mem_cases in M4; clear H |];
    [..| destruct (mem n ["_pin_unauth"; "_pinterest_sess"]) eqn:M5;
      [try discriminate H; apply mem_cases in M5; clear H |];
    [..| destruct (mem n ["_twitter_sess"; "ct0"]) eqn:M6;
      [try discriminate H; apply mem_cases in M6; clear H | discriminate H]]]]]].
  all: vendor_name n.
Qed.

End PurposeTables.

(** ** Age calculator, further *)

Section AgeRecord.

Import Spider.

Variable float_of_str : string -> option Q.




End AgeRecord.

(** ** Tables and sorting *)

Section Tables.

Import Views.

Context {K : Type}.
Variable eqb : K -> K -> bool.
Hypothesis eqb_spec : forall a b, eqb a b = true <-> a = b.

Lemma eqb_same : forall a, eqb a a = true.
Proof. intro a. apply eqb_spec. reflexivity. Qed.

Lemma eqb_differ : forall a b, a <> b -> eqb a b = false.
Proof.
  intros a b H. destruct (eqb a b) eqn:E; [|reflexivity].
  apply eqb_spec in E. contradiction.
Qed.

Lemma get_set_same :
  forall (V : Type) k (v : V) d, Dict.get eqb k (Dict.set eqb k v d) = Some v.
Proof.
  intros V k v d. induction d as [|[k' v'] d IH]; cbn [Dict.set Dict.get].
  - rewrite eqb_same. reflexivity.
  - destruct (eqb k k') eqn:E; cbn [Dict.get]; rewrite E; [reflexivity | exact IH].
Qed.

Lemma get_set_other :
  forall (V : Type) k k' (v : V) d,
    k <> k' -> Dict.get eqb k (Dict.set eqb k' v d) = Dict.get eqb k d.
Proof.
  intros V k k' v d Hne. pose proof (eqb_differ _ _ Hne) as Hkk.
  induction d as [|[k2 v2] d IH]; cbn [Dict.set Dict.get].
  - rewrite Hkk. reflexivity.
  - destruct (eqb k' k2) eqn:E; cbn [Dict.get].
    + apply eqb_spec in E. subst k2. rewrite Hkk. reflexivity.
    + rewrite IH. reflexivity.
Qed.

Lemma get_none_iff :
  forall (V : Type) k (d : list (K * V)), Dict.get eqb k d = None <-> ~ In k (map fst d).
Proof.
  intros V k d. induction d as [|[k' v'] d IH]; cbn [Dict.get map fst In].
  - split; [intros _ [] | reflexivity].
  - destruct (eqb k k') eqn:E.
    + apply eqb_spec in E. split; [discriminate | intro H; exfalso; apply H; left; auto].
    + rewrite IH. split.
      * intros H [H'|H']; [subst k'; rewrite eqb_same in E; discriminate | exact (H H')].
      * intros H H'. apply H. right. exact H'.
Qed.

Lemma get_in :
  forall (V : Type) k (v : V) d, Dict.get eqb k d = Some v -> In (k, v) d.
Proof.
  intros V k v d. induction d as [|[k' v'] d IH]; cbn [Dict.get In]; [discriminate|].
  destruct (eqb k k') eqn:E.
  - apply eqb_spec in E. subst k'. intro H. injection H as <-. left. reflexivity.
  - intro H. right. apply IH. exact H.
Qed.

Lemma in_get :
  forall (V : Type) k (v : V) d,
    NoDup (map fst d) -> In (k, v) d -> Dict.get eqb k d = Some v.
Proof.
  intros V k v d. induction d as [|[k' v'] d IH]; cbn [map fst Dict.get In]; [intros _ []|].
  intros Hnd [H|H].
  - injection H as -> ->. rewrite eqb_same. reflexivity.
  - inversion Hnd as [|? ? Hnotin Hnd']; subst.
    destruct (eqb k k') eqn:E.
    + apply eqb_spec in E. subst k'. exfalso. apply Hnotin.
      apply (in_map fst) in H. exact H.
    + apply IH; assumption.
Qed.

(** The keys after a write: as before for a key that is there, one more at
    the end for a new one. *)
Lemma keys_set :
  forall (V : Type) k (v : V) d,
    map fst (Dict.set eqb k v d)
    = if Dict.has eqb k d then map fst d else map fst d ++ [k].
Proof.
  intros V k v d. unfold Dict.has.
  induction d as [|[k' v'] d IH]; cbn [Dict.set Dict.get map fst app]; [reflexivity|].
  destruct (eqb k k') eqn:E; cbn [map fst].
  - reflexivity.
  - rewrite IH. destruct (Dict.get eqb k d); reflexivity.
Qed.

Lemma keys_nodup_set :
  forall (V : Type) k (v : V) d,
    NoDup (map fst d) -> NoDup (map fst (Dict.set eqb k v d)).
Proof.
  intros V k v d H. rewrite keys_set. unfold Dict.has.
  destruct (Dict.get eqb k d) eqn:E; [exact H|].
  apply get_none_iff in E.
  apply NoDup_app; [exact H | repeat constructor; intros [] |].
  intros x Hx [Hk|[]]. subst x. exact (E Hx).
Qed.

Lemma sum_set :
  forall k v (d : list (K * nat)),
    (table_sum (Dict.set eqb k v d) + Dict.get_or eqb k 0%nat d)%nat = (table_sum d + v)%nat.
Proof.
  intros k v d. unfold table_sum, Dict.get_or.
  induction d as [|[k' v'] d IH]; cbn [Dict.set Dict.get fold_right snd].
  - lia.
  - destruct (eqb k k'); cbn [fold_right snd]; lia.
Qed.

Lemma sum_bump :
  forall k (d : list (K * nat)), table_sum (Dict.bump eqb k d) = (table_sum d + 1)%nat.
Proof.
  intros k d. unfold Dict.bump.
  pose proof (sum_set k (Dict.get_or eqb k 0%nat d + 1)%nat d). lia.
Qed.

Lemma get_or_bump :
  forall n m (d : list (K * nat)),
    Dict.get_or eqb n 0%nat (Dict.bump eqb m d)
    = (Dict.get_or eqb n 0%nat d + (if eqb n m then 1 else 0))%nat.
Proof.
  intros n m d. unfold Dict.bump, Dict.get_or at 1.
  destruct (eqb n m) eqn:E.
  - apply eqb_spec in E. subst m. rewrite get_set_same. reflexivity.
  - rewrite get_set_other.
    + unfold Dict.get_or. lia.
    + intro H. subst m. rewrite eqb_same in E. discriminate.
Qed.

End Tables.

Section Sorting.

Context {A : Type}.

Lemma insert_desc_perm :
  forall (key : A -> nat) x l, Permutation (Dict.insert_desc key x l) (x :: l).
Proof.
  intros key x l. induction l as [|y l IH]; cbn [Dict.insert_desc].
  - apply Permutation_refl.
  - destruct (key y <? key x)%nat; [apply Permutation_refl|].
    apply perm_trans with (y :: x :: l); [apply perm_skip; exact IH | apply perm_swap].
Qed.

Lemma insert_desc_sorted :
  forall (key : A -> nat) x l,
    StronglySorted (fun a b => (key b <= key a)%nat) l ->
    StronglySorted (fun a b => (key b <= key a)%nat) (Dict.insert_desc key x l).
Proof.
  intros key x l H. induction H as [|y l Hs IH Hall]; cbn [Dict.insert_desc].
  - repeat constructor.
  - destruct (Nat.ltb_spec (key y) (key x)) as [Hlt|Hge].
    + constructor; [constructor; assumption|].
      constructor; [lia|].
      rewrite Forall_forall in *. intros z Hz. specialize (Hall z Hz). cbn in Hall. lia.
    + constructor; [exact IH|].
      rewrite Forall_forall in *. intros z Hz.
      apply (Permutation_in _ (insert_desc_perm key x l)) in Hz.
      destruct Hz as [<-|Hz]; [exact Hge | exact (Hall z Hz)].
Qed.

Lemma sorted_desc_spec :
  forall (key : A -> nat) l,
    Permutation (Dict.sorted_desc key l) l
    /\ StronglySorted (fun a b => (key b <= key a)%nat) (Dict.sorted_desc key l).
Proof.
  intros key l. unfold Dict.sorted_desc.
  assert (H : forall l acc,
            StronglySorted (fun a b => (key b <= key a)%nat) acc ->
            Permutation (fold_left (fun acc x => Dict.insert_desc key x acc) l acc) (acc ++ l)
            /\ StronglySorted (fun a b => (key b <= key a)%nat)
                 (fold_left (fun acc x => Dict.insert_desc key x acc) l acc)).
  { clear l. induction l as [|x l IH]; intros acc Hacc; cbn [fold_left].
    - rewrite app_nil_r. split; [apply Permutation_refl | exact Hacc].
    - destruct (IH _ (insert_desc_sorted key x acc Hacc)) as [Hp Hs].
      split; [|exact Hs].
      apply perm_trans with (Dict.insert_desc key x acc ++ l); [exact Hp|].
      apply perm_trans with ((x :: acc) ++ l).
      + apply Permutation_app_tail. apply insert_desc_perm.
      + cbn [app]. apply Permutation_middle. }
  destruct (H l [] (SSorted_nil _)) as [Hp Hs]. split; assumption.
Qed.

Lemma insert_asc_perm :
  forall (key : A -> Z) x l, Permutation (Dict.insert_asc key x l) (x :: l).
Proof.
  intros key x l. induction l as [|y l IH]; cbn [Dict.insert_asc].
  - apply Permutation_refl.
  - destruct (key x <? key y)%Z; [apply Permutation_refl|].
    apply perm_trans with (y :: x :: l); [apply perm_skip; exact IH | apply perm_swap].
Qed.

Lemma insert_asc_sorted :
  forall (key : A -> Z) x l,
    StronglySorted (fun a b => (key a <= key b)%Z) l ->
    StronglySorted (fun a b => (key a <= key b)%Z) (Dict.insert_asc key x l).
Proof.
  intros key x l H. induction H as [|y l Hs IH Hall]; cbn [Dict.insert_asc].
  - repeat constructor.
  - destruct (Z.ltb_spec (key x) (key y)) as [Hlt|Hge].
    + constructor; [constructor; assumption|].
      constructor; [lia|].
      rewrite Forall_forall in *. intros z Hz. specialize (Hall z Hz). cbn in Hall. lia.
    + constructor; [exact IH|].
      rewrite Forall_forall in *. intros z Hz.
      apply (Permutation_in _ (insert_asc_perm key x l)) in Hz.
      destruct Hz as [<-|Hz]; [exact Hge | exact (Hall z Hz)].
Qed.

Lemma sorted_asc_spec :
  forall (key : A -> Z) l,
    Permutation (Dict.sorted_asc key l) l
    /\ StronglySorted (fun a b => (key a <= key b)%Z) (Dict.sorted_asc key l).
Proof.
  intros key l. unfold Dict.sorted_asc.
  assert (H : forall l acc,
            StronglySorted (fun a b => (key a <= key b)%Z) acc ->
            Permutation (fold_left (fun acc x => Dict.insert_asc key x acc) l acc) (acc ++ l)
            /\ StronglySorted (fun a b => (key a <= key b)%Z)
                 (fold_left (fun acc x => Dict.insert_asc key x acc) l acc)).
  { clear l. induction l as [|x l IH]; intros acc Hacc; cbn [fold_left].
    - rewrite app_nil_r. split; [apply Permutation_refl | exact Hacc].
    - destruct (IH _ (insert_asc_sorted key x acc Hacc)) as [Hp Hs].
      split; [|exact Hs].
      apply perm_trans with (Dict.insert_asc key x acc ++ l); [exact Hp|].
      apply perm_trans with ((x :: acc) ++ l).
      + apply Permutation_app_tail. apply insert_asc_perm.
      + cbn [app]. apply Permutation_middle. }
  destruct (H l [] (SSorted_nil _)) as [Hp Hs]. split; assumption.
Qed.

Lemma sorted_firstn :
  forall (R : A -> A -> Prop) n l, StronglySorted R l -> StronglySorted R (firstn n l).
Proof.
  intros R n l H. revert n. induction H as [|x l Hs IH Hall]; intro n.
  - rewrite firstn_nil. constructor.
  - destruct n as [|n]; cbn [firstn]; [constructor|].
    constructor; [apply IH|].
    rewrite Forall_forall in *. intros z Hz. apply Hall.
    rewrite <- (firstn_skipn n l). apply in_or_app. left. exact Hz.
Qed.

Lemma in_firstn :
  forall n (l : list A) x, In x (firstn n l) -> In x l.
Proof.
  intros n l x H. rewrite <- (firstn_skipn n l). apply in_or_app. left. exact H.
Qed.

End Sorting.

Section TableEntries.

Import Views.

Context {K : Type}.
Variable eqb : K -> K -> bool.
Hypothesis eqb_spec : forall a b, eqb a b = true <-> a = b.

Lemma in_set :
  forall (V : Type) (a k : K) (b v : V) d,
    In (a, b) (Dict.set eqb k v d) -> (a = k /\ b = v) \/ In (a, b) d.
Proof.
  intros V a k b v d. induction d as [|[k' v'] d IH]; cbn [Dict.set In].
  - intros [H|[]]. injection H as <- <-. left. split; reflexivity.
  - destruct (eqb k k') eqn:E; cbn [In].
    + apply eqb_spec in E. subst k'.
      intros [H|H]; [injection H as <- <-; left; split; reflexivity | right; right; exact H].
    + intros [H|H]; [right; left; exact H|].
      destruct (IH H) as [H'|H']; [left; exact H' | right; right; exact H'].
Qed.


Lemma bump_positive :
  forall k (d : list (K * nat)),
    Forall (fun kv => (1 <= snd kv)%nat) d ->
    Forall (fun kv => (1 <= snd kv)%nat) (Dict.bump eqb k d).
Proof.
  intros k d H. rewrite Forall_forall in *. intros [a b] Hin. unfold Dict.bump in Hin.
  destruct (in_set _ _ _ _ _ _ Hin) as [[-> ->]|Hold]; [cbn; lia | exact (H _ Hold)].
Qed.

End TableEntries.

Lemma count_if_mono :
  forall (A : Type) (p q : A -> bool) l,
    (forall x, p x = true -> q x = true) ->
    (Views.count_if p l <= Views.count_if q l)%nat.
Proof.
  intros A p q l H. unfold Views.count_if.
  induction l as [|x l IH]; [apply Nat.le_refl|].
  cbn [filter]. destruct (p x) eqn:Ep.
  - rewrite (H x Ep). cbn [List.length]. lia.
  - destruct (q x); cbn [List.length]; lia.
Qed.

(** ** Aggregator: the other fields of [analyze_cookies] *)

Section Tally.

Import CookieStats Views.

Lemma tally_on_cookies_per_domain f st :
  tally (on_cookies_per_domain f st)
  = (let '(a0, a1, a2, a3, a4, a5, a6, a7, a8, a9) := tally st in
     (a0, a1, a2, a3, a4, a5, a6, a7, f a8, a9)).
Proof. destruct st; reflexivity. Qed.
Lemma tally_on_storage_per_domain f st : tally (on_storage_per_domain f st) = tally st.
Proof. destruct st; reflexivity. Qed.
Lemma tally_on_common_cookie_names f st :
  tally (on_common_cookie_names f st)
  = (let '(a0, a1, a2, a3, a4, a5, a6, a7, a8, a9) := tally st in
     (a0, a1, a2, a3, a4, a5, a6, f a7, a8, a9)).
Proof. destruct st; reflexivity. Qed.
Lemma tally_on_common_storage_keys f st : tally (on_common_storage_keys f st) = tally st.
Proof. destruct st; reflexivity. Qed.
Lemma tally_on_secure_cookies f st :
  tally (on_secure_cookies f st)
  = (let '(a0, a1, a2, a3, a4, a5, a6, a7, a8, a9) := tally st in
     (f a0, a1, a2, a3, a4, a5, a6, a7, a8, a9)).
Proof. destruct st; reflexivity. Qed.
Lemma tally_on_httponly_cookies f st :
  tally (on_httponly_cookies f st)
  = (let '(a0, a1, a2, a3, a4, a5, a6, a7, a8, a9) := tally st in
     (a0, f a1, a2, a3, a4, a5, a6, a7, a8, a9)).
Proof. destruct st; reflexivity. Qed.
Lemma tally_on_third_party_cookies f st : tally (on_third_party_cookies f st) = tally st.
Proof. destruct st; reflexivity. Qed.
Lemma tally_on_session_cookies f st :
  tally (on_session_cookies f st)
  = (let '(a0, a1, a2, a3, a4, a5, a6, a7, a8, a9) := tally st in
     (a0, a1, f a2, a3, a4, a5, a6, a7, a8, a9)).
Proof. destruct st; reflexivity. Qed.
Lemma tally_on_persistent_cookies f st :
  tally (on_persistent_cookies f st)
  = (let '(a0, a1, a2, a3, a4, a5, a6, a7, a8, a9) := tally st in
     (a0, a1, a2, f a3, a4, a5, a6, a7, a8, a9)).
Proof. destruct st; reflexivity. Qed.
Lemma tally_on_cookie_age_categories f st :
  tally (on_cookie_age_categories f st)
  = (let '(a0, a1, a2, a3, a4, a5, a6, a7, a8, a9) := tally st in
     (a0, a1, a2, a3, f a4, a5, a6, a7, a8, a9)).
Proof. destruct st; reflexivity. Qed.
Lemma tally_on_avg_cookie_age_days f st : tally (on_avg_cookie_age_days f st) = tally st.
Proof. destruct st; reflexivity. Qed.
Lemma tally_on_max_cookie_age_days f st : tally (on_max_cookie_age_days f st) = tally st.
Proof. destruct st; reflexivity. Qed.
Lemma tally_on_cookie_age_distribution f st :
  tally (on_cookie_age_distribution f st)
  = (let '(a0, a1, a2, a3, a4, a5, a6, a7, a8, a9) := tally st in
     (a0, a1, a2, a3, a4, f a5, a6, a7, a8, a9)).
Proof. destruct st; reflexivity. Qed.
Lemma tally_on_samesite_stats f st :
  tally (on_samesite_stats f st)
  = (let '(a0, a1, a2, a3, a4, a5, a6, a7, a8, a9) := tally st in
     (a0, a1, a2, a3, a4, a5, f a6, a7, a8, a9)).
Proof. destruct st; reflexivity. Qed.
Lemma tally_on_samesite_by_domain f st :
  tally (on_samesite_by_domain f st)
  = (let '(a0, a1, a2, a3, a4, a5, a6, a7, a8, a9) := tally st in
     (a0, a1, a2, a3, a4, a5, a6, a7, a8, f a9)).
Proof. destruct st; reflexivity. Qed.
Create Rewrite HintDb tally_db.

#[local] Hint Rewrite tally_on_cookies_per_domain tally_on_storage_per_domain tally_on_common_cookie_names tally_on_common_storage_keys 
  tally_on_secure_cookies tally_on_httponly_cookies tally_on_third_party_cookies tally_on_session_cookies tally_on_persistent_cookies
  tally_on_cookie_age_categories tally_on_avg_cookie_age_days tally_on_max_cookie_age_days tally_on_cookie_age_distribution
  tally_on_samesite_stats tally_on_samesite_by_domain : tally_db.

Ltac tally_step :=
  first
    [ progress autorewrite with tally_db
    | match goal with
      | |- context [tally (if ?b then _ else _)] => destruct b eqn:?
      | |- context [tally (match ?o with Some _ => _ | None => _ end)] => destruct o eqn:?
      end ].

Lemma tally_by_domain :
  forall dom label s5,
    tally (on_samesite_by_domain
             (fun d => sset dom (incr label (sget_or dom [] d)) d)
             (if negb (shas dom (samesite_by_domain s5))
              then on_samesite_by_domain (sset dom zero_samesite) s5 else s5))
    = (let '(a0, a1, a2, a3, a4, a5, a6, a7, a8, a9) := tally s5 in
       (a0, a1, a2, a3, a4, a5, a6, a7, a8,
        let sbd := if negb (shas dom a9) then sset dom zero_samesite a9 else a9 in
        sset dom (incr label (sget_or dom [] sbd)) sbd)).
Proof.
  intros dom label s5. destruct s5 as [? ? ? ? ? ? ? ? ? ? ? ? ? ? ? ? ? ? sbd].
  cbn [samesite_by_domain]. unfold tally at 2.
  cbn [secure_cookies httponly_cookies session_cookies persistent_cookies
       cookie_age_categories cookie_age_distribution samesite_stats
       common_cookie_names cookies_per_domain samesite_by_domain].
  cbv zeta. destruct (negb (shas dom sbd)); reflexivity.
Qed.

Lemma tally_count_cookie :
  forall dom md st c,
    tally (count_cookie dom md st c) = tally_cookie dom c (tally st).
Proof.
  intros dom md st c. unfold count_cookie, count_age. cbv zeta.
  rewrite tally_by_domain.
  unfold tally_cookie, categories_step, distribution_step, by_domain_step,
    is_session_cookie, is_persistent_cookie, known_days.
  repeat tally_step.
  all: destruct (tally st) as [[[[[[[[[a0 a1] a2] a3] a4] a5] a6] a7] a8] a9].
  all: cbn [negb]; reflexivity.
Qed.

Lemma tally_count_cookies :
  forall dom md cs st,
    tally (fold_left (count_cookie dom md) cs st)
    = fold_left (fun t c => tally_cookie dom c t) cs (tally st).
Proof.
  intros dom md cs. induction cs as [|c cs IH]; intro st; cbn [fold_left].
  - reflexivity.
  - rewrite IH, tally_count_cookie. reflexivity.
Qed.

Lemma tally_storage_keys :
  forall (prefix : string) (kvs : list (string * string)) st,
    tally (fold_left
             (fun st kv =>
                on_common_storage_keys (Dict.bump String.eqb (prefix ++ fst kv)%string) st)
             kvs st)
    = tally st.
Proof.
  intros prefix kvs. induction kvs as [|kv kvs IH]; intro st; cbn [fold_left].
  - reflexivity.
  - rewrite IH. apply tally_on_common_storage_keys.
Qed.

(** What the cookies of a list do to the fields, field by field. *)
Lemma tally_cookies_by_field :
  forall dom cs a0 a1 a2 a3 a4 a5 a6 a7 a8 a9,
    fold_left (fun t c => tally_cookie dom c t) cs (a0, a1, a2, a3, a4, a5, a6, a7, a8, a9)
    = ((a0 + count_if (fun c => or_else (c_secure c) false) cs)%nat,
       (a1 + count_if (fun c => or_else (c_httponly c) false) cs)%nat,
       (a2 + count_if is_session_cookie cs)%nat,
       (a3 + count_if is_persistent_cookie cs)%nat,
       fold_left (fun cats c => categories_step c cats) cs a4,
       fold_left (fun dist c => distribution_step c dist) cs a5,
       fold_left (fun ss c => incr (samesite_label c) ss) cs a6,
       fold_left (fun names c => Dict.bump String.eqb (or_else (c_name c) "") names) cs a7,
       a8,
       fold_left (fun sbd c => by_domain_step dom c sbd) cs a9).
Proof.
  intros dom cs. unfold count_if.
  induction cs as [|c cs IH]; intros a0 a1 a2 a3 a4 a5 a6 a7 a8 a9.
  - cbn [fold_left filter List.length]. rewrite !Nat.add_0_r. reflexivity.
  - cbn [fold_left filter tally_cookie]. rewrite IH.
    destruct (or_else (c_secure c) false); destruct (or_else (c_httponly c) false);
      destruct (is_session_cookie c); destruct (is_persistent_cookie c);
      cbn [List.length]; rewrite ?Nat.add_succ_r; reflexivity.
Qed.

Lemma tally_count_file :
  forall st data,
    tally (count_file st data)
    = (let dom := or_else (d_url data) "unknown" in
       let cs := or_else (d_cookies data) [] in
       let '(a0, a1, a2, a3, a4, a5, a6, a7, a8, a9) := tally st in
       fold_left (fun t c => tally_cookie dom c t) cs
         (a0, a1, a2, a3, a4, a5, a6, a7, sset dom (List.length cs) a8, a9)).
Proof.
  intros st data. unfold count_file. cbv zeta.
  rewrite !tally_storage_keys, tally_count_cookies.
  autorewrite with tally_db.
  destruct (tally st) as [[[[[[[[[a0 a1] a2] a3] a4] a5] a6] a7] a8] a9]. reflexivity.
Qed.

Lemma fold_left_pairs :
  forall (B : Type) (f : B -> snapshot * cookie -> B) data cs b,
    fold_left f (map (pair data) cs) b = fold_left (fun b c => f b (data, c)) cs b.
Proof.
  intros B f data cs. induction cs as [|c cs IH]; intro b; [reflexivity|].
  cbn [map fold_left]. apply IH.
Qed.

(** What the files do to the fields, field by field. *)
Lemma tally_files_by_field :
  forall files st,
    tally (fold_left count_file files st)
    = (let '(a0, a1, a2, a3, a4, a5, a6, a7, a8, a9) := tally st in
       let cs := Spec.all_cookies files in
       ((a0 + count_if (fun c => or_else (c_secure c) false) cs)%nat,
        (a1 + count_if (fun c => or_else (c_httponly c) false) cs)%nat,
        (a2 + count_if is_session_cookie cs)%nat,
        (a3 + count_if is_persistent_cookie cs)%nat,
        fold_left (fun cats c => categories_step c cats) cs a4,
        fold_left (fun dist c => distribution_step c dist) cs a5,
        fold_left (fun ss c => incr (samesite_label c) ss) cs a6,
        fold_left (fun names c => Dict.bump String.eqb (or_else (c_name c) "") names) cs a7,
        fold_left
          (fun pd data =>
             sset (or_else (d_url data) "unknown")
               (List.length (or_else (d_cookies data) [])) pd)
          files a8,
        fold_left
          (fun sbd dc => by_domain_step (or_else (d_url (fst dc)) "unknown") (snd dc) sbd)
          (Spec.cookie_pairs files) a9)).
Proof.
  induction files as [|data files IH]; intro st.
  - cbn [fold_left Spec.all_cookies Spec.cookie_pairs flat_map]. unfold count_if.
    cbn [filter List.length fold_left].
    destruct (tally st) as [[[[[[[[[a0 a1] a2] a3] a4] a5] a6] a7] a8] a9].
    rewrite !Nat.add_0_r. reflexivity.
  - cbn [fold_left Spec.all_cookies Spec.cookie_pairs flat_map].
    rewrite IH, tally_count_file. cbv zeta.
    destruct (tally st) as [[[[[[[[[a0 a1] a2] a3] a4] a5] a6] a7] a8] a9].
    rewrite tally_cookies_by_field.
    rewrite !count_if_app, !fold_left_app, fold_left_pairs, !Nat.add_assoc.
    reflexivity.
Qed.

Lemma tally_finish :
  forall st,
    tally (finish st)
    = (let '(a0, a1, a2, a3, a4, a5, a6, a7, a8, a9) := tally st in
       (a0, a1, a2, a3, a4, Dict.sorted_asc fst a5, a6,
        firstn 10 (Dict.sorted_desc snd a7), a8, a9)).
Proof.
  intro st. unfold finish. cbv zeta.
  rewrite tally_on_cookie_age_distribution.
  destruct (persistent_ages _); repeat tally_step;
    destruct (tally st) as [[[[[[[[[a0 a1] a2] a3] a4] a5] a6] a7] a8] a9]; reflexivity.
Qed.

(** The fields of the result, field by field. *)
Lemma tally_analyze_cookies :
  forall files,
    tally (analyze_cookies files)
    = (let cs := Spec.all_cookies files in
       (count_if (fun c => or_else (c_secure c) false) cs,
        count_if (fun c => or_else (c_httponly c) false) cs,
        count_if is_session_cookie cs,
        count_if is_persistent_cookie cs,
        fold_left (fun cats c => categories_step c cats) cs zero_categories,
        Dict.sorted_asc fst (fold_left (fun dist c => distribution_step c dist) cs []),
        fold_left (fun ss c => incr (samesite_label c) ss) cs zero_samesite,
        firstn 10
          (Dict.sorted_desc snd
             (fold_left
                (fun names c => Dict.bump String.eqb (or_else (c_name c) "") names) cs [])),
        fold_left
          (fun pd data =>
             sset (or_else (d_url data) "unknown")
               (List.length (or_else (d_cookies data) [])) pd)
          files [],
        fold_left
          (fun sbd dc => by_domain_step (or_else (d_url (fst dc)) "unknown") (snd dc) sbd)
          (Spec.cookie_pairs files) [])).
Proof.
  intro files. unfold analyze_cookies.
  destruct files as [|data files]; [reflexivity|].
  rewrite tally_finish, tally_files_by_field. reflexivity.
Qed.

Lemma count_if_le :
  forall (A : Type) (p : A -> bool) l, (count_if p l <= List.length l)%nat.
Proof. intros A p l. unfold count_if. apply filter_length_le. Qed.

Lemma length_cookie_pairs :
  forall files, List.length (Spec.cookie_pairs files) = List.length (Spec.all_cookies files).
Proof.
  induction files as [|data files IH]; [reflexivity|].
  cbn [Spec.cookie_pairs Spec.all_cookies flat_map].
  rewrite !length_app, length_map. unfold Spec.cookie_pairs, Spec.all_cookies in IH.
  rewrite IH. reflexivity.
Qed.

(** No counter of [analyze_cookies] exceeds the total, so no percentage of
    the report exceeds 100. *)
Theorem counters_within_total :
  forall cookie_files,
    let r := analyze_cookies cookie_files in
    (secure_cookies r <= total_cookies r)%nat
    /\ (httponly_cookies r <= total_cookies r)%nat
    /\ (third_party_cookies r <= total_cookies r)%nat
    /\ (session_cookies r <= total_cookies r)%nat
    /\ (persistent_cookies r <= total_cookies r)%nat.
Proof.
  intros cookie_files r.
  pose proof (tally_analyze_cookies cookie_files) as Ht.
  pose proof (view_analyze_cookies cookie_files) as Hv.
  fold r in Ht, Hv. unfold tally in Ht. unfold view in Hv. cbv zeta in Ht.
  injection Hv as Htot Hthird _.
  injection Ht as Hsec Hhttp Hses Hper _ _ _ _ _ _.
  rewrite Htot, Hsec, Hhttp, Hses, Hper, Hthird.
  repeat split; try apply count_if_le.
  unfold Spec.third_party_by_suffix. rewrite <- length_cookie_pairs. apply filter_length_le.
Qed.

Lemma incr_key :
  forall k ss,
    In k (map fst ss) ->
    map fst (incr k ss) = map fst ss /\ table_sum (incr k ss) = (table_sum ss + 1)%nat.
Proof.
  intros k ss Hin. unfold incr, sget, sset.
  destruct (Dict.get String.eqb k ss) as [n|] eqn:E.
  - split.
    + rewrite (keys_set String.eqb). unfold Dict.has. rewrite E. reflexivity.
    + pose proof (sum_set String.eqb k (n + 1)%nat ss) as H.
      unfold Dict.get_or in H. rewrite E in H. lia.
  - exfalso. apply (get_none_iff String.eqb String.eqb_eq) in E. exact (E Hin).
Qed.

Lemma samesite_fold :
  forall cs ss,
    map fst ss = ["None"; "Lax"; "Strict"; "unspecified"] ->
    map fst (fold_left (fun ss c => incr (samesite_label c) ss) cs ss)
    = ["None"; "Lax"; "Strict"; "unspecified"]
    /\ table_sum (fold_left (fun ss c => incr (samesite_label c) ss) cs ss)
       = (table_sum ss + List.length cs)%nat.
Proof.
  induction cs as [|c cs IH]; intros ss Hk; cbn [fold_left List.length].
  - split; [exact Hk | lia].
  - assert (Hin : In (samesite_label c) (map fst ss)).
    { rewrite Hk. apply mem_cases. apply samesite_label_is_key. }
    destruct (incr_key _ _ Hin) as [Hk' Hs'].
    destruct (IH (incr (samesite_label c) ss)) as [Hk2 Hs2]; [rewrite Hk'; exact Hk|].
    split; [exact Hk2 | rewrite Hs2, Hs'; lia].
Qed.

(** The SameSite table has its four keys and its counts add up to the
    total: every cookie is counted under exactly one label. *)
Theorem samesite_counts_add_up :
  forall cookie_files,
    let r := analyze_cookies cookie_files in
    map fst (samesite_stats r) = ["None"; "Lax"; "Strict"; "unspecified"]
    /\ table_sum (samesite_stats r) = total_cookies r.
Proof.
  intros cookie_files r.
  pose proof (tally_analyze_cookies cookie_files) as Ht.
  pose proof (view_analyze_cookies cookie_files) as Hv.
  fold r in Ht, Hv. unfold tally in Ht. unfold view in Hv. cbv zeta in Ht.
  injection Hv as Htot _ _. injection Ht as _ _ _ _ _ _ Hss _ _ _.
  rewrite Hss, Htot.
  destruct (samesite_fold (Spec.all_cookies cookie_files) zero_samesite eq_refl) as [Hk Hs].
  split; [exact Hk | rewrite Hs; reflexivity].
Qed.

Lemma known_days_not_session :
  forall c, has_known_days c = true ->
            is_session_cookie c = false /\ is_persistent_cookie c = true.
Proof.
  intro c. unfold has_known_days, known_days, is_session_cookie, is_persistent_cookie.
  destruct (c_age c) as [a|]; [|discriminate].
  destruct (or_else (age_is_session a) true); [discriminate|]. split; reflexivity.
Qed.

Lemma bump_category_sum :
  forall d cats,
    cat_session (bump_category d cats) = cat_session cats
    /\ categories_sum (bump_category d cats) = (categories_sum cats + 1)%nat.
Proof.
  intros d cats. unfold bump_category, categories_sum. destruct cats.
  destruct (Qle_bool d 0); [cbn; lia|].
  destruct (Qlt_bool d 1); [cbn; lia|].
  destruct (Qle_bool d 30); cbn; lia.
Qed.

Lemma categories_fold :
  forall cs cats,
    cat_session (fold_left (fun cats c => categories_step c cats) cs cats)
    = (cat_session cats + count_if is_session_cookie cs)%nat
    /\ categories_sum (fold_left (fun cats c => categories_step c cats) cs cats)
       = (categories_sum cats + count_if has_known_days cs)%nat.
Proof.
  unfold count_if.
  induction cs as [|c cs IH]; intro cats; cbn [fold_left filter List.length].
  - split; lia.
  - destruct (IH (categories_step c cats)) as [H1 H2]. rewrite H1, H2. clear IH H1 H2.
    unfold categories_step, has_known_days.
    destruct (is_session_cookie c) eqn:Es.
    + assert (Hk : known_days c = None).
      { destruct (known_days c) eqn:Ek; [|reflexivity].
        destruct (known_days_not_session c) as [Hc _];
          [unfold has_known_days; rewrite Ek; reflexivity|].
        rewrite Hc in Es. discriminate. }
      rewrite Hk. destruct cats. unfold categories_sum. cbn. lia.
    + destruct (known_days c) as [d|].
      * destruct (bump_category_sum d cats) as [H1 H2]. rewrite H1, H2.
        cbn [List.length]. lia.
      * lia.
Qed.


Lemma distribution_fold :
  forall cs d,
    NoDup (map fst d) ->
    Forall (fun k => (0 <= k)%Z) (map fst d) ->
    let d' := fold_left (fun dist c => distribution_step c dist) cs d in
    NoDup (map fst d')
    /\ Forall (fun k => (0 <= k)%Z) (map fst d')
    /\ table_sum d' = (table_sum d + count_if has_known_days cs)%nat.
Proof.
  unfold count_if.
  induction cs as [|c cs IH]; intros d Hnd Hpos; cbn [fold_left filter List.length].
  - repeat split; try assumption. lia.
  - unfold distribution_step at 2 4 6.
    change (has_known_days c)
      with (match known_days c with Some _ => true | None => false end).
    destruct (known_days c) as [q|].
    + set (k := Z.max 0 (py_int q)).
      assert (Hnd' : NoDup (map fst (Dict.bump Z.eqb k d)))
        by (apply (keys_nodup_set Z.eqb Z.eqb_eq); exact Hnd).
      assert (Hpos' : Forall (fun k => (0 <= k)%Z) (map fst (Dict.bump Z.eqb k d))).
      { unfold Dict.bump. rewrite (keys_set Z.eqb).
        destruct (Dict.has Z.eqb k d); [exact Hpos|].
        apply Forall_app. split; [exact Hpos|]. constructor; [subst k; lia | constructor]. }
      destruct (IH _ Hnd' Hpos') as (H1 & H2 & H3).
      repeat split; try assumption.
      rewrite H3, (sum_bump Z.eqb). cbn [List.length]. lia.
    + destruct (IH _ Hnd Hpos) as (H1 & H2 & H3). repeat split; assumption.
Qed.




Lemma names_fold :
  forall cs d,
    NoDup (map fst d) ->
    Forall (fun kv => (1 <= snd kv)%nat) d ->
    let d' := fold_left
                (fun names c => Dict.bump String.eqb (or_else (c_name c) "") names) cs d in
    NoDup (map fst d')
    /\ Forall (fun kv => (1 <= snd kv)%nat) d'
    /\ forall n,
         Dict.get_or String.eqb n 0%nat d'
         = (Dict.get_or String.eqb n 0%nat d
            + count_if (fun c => String.eqb n (or_else (c_name c) "")) cs)%nat.
Proof.
  unfold count_if.
  induction cs as [|c cs IH]; intros d Hnd Hpos; cbn [fold_left filter List.length].
  - repeat split; try assumption. intro n. lia.
  - destruct (IH (Dict.bump String.eqb (or_else (c_name c) "") d)) as (H1 & H2 & H3).
    + apply (keys_nodup_set String.eqb String.eqb_eq). exact Hnd.
    + apply (bump_positive String.eqb String.eqb_eq). exact Hpos.
    + repeat split; try assumption. intro n.
      rewrite H3, (get_or_bump String.eqb String.eqb_eq).
      destruct (String.eqb n (or_else (c_name c) "")); cbn [List.length]; lia.
Qed.

Lemma sorted_app_between :
  forall (A : Type) (R : A -> A -> Prop) l1 l2,
    StronglySorted R (l1 ++ l2) -> forall a b, In a l1 -> In b l2 -> R a b.
Proof.
  intros A R l1. induction l1 as [|x l1 IH]; intros l2 H a b Ha Hb; [destruct Ha|].
  cbn [app] in H. inversion H as [|? ? Hs Hall]; subst.
  destruct Ha as [<-|Ha].
  - rewrite Forall_forall in Hall. apply Hall. apply in_or_app. right. exact Hb.
  - exact (IH l2 Hs a b Ha Hb).
Qed.

(** The table of cookie names of the result: at most ten names, each once,
    most frequent first, each with the number of cookies of that name; and a
    name left out occurs no more often than any name kept. *)
Theorem top_cookie_names :
  forall cookie_files,
    let t := common_cookie_names (analyze_cookies cookie_files) in
    let occurrences n :=
      count_if (fun c => String.eqb n (or_else (c_name c) ""))
        (Spec.all_cookies cookie_files) in
    (List.length t <= 10)%nat
    /\ NoDup (map fst t)
    /\ StronglySorted (fun a b => (snd b <= snd a)%nat) t
    /\ (forall n k, In (n, k) t -> k = occurrences n /\ (1 <= k)%nat)
    /\ (forall n, (1 <= occurrences n)%nat -> ~ In n (map fst t) ->
          List.length t = 10%nat
          /\ forall m k, In (m, k) t -> (occurrences n <= k)%nat).
Proof.
  intros cookie_files t occurrences.
  pose proof (tally_analyze_cookies cookie_files) as Ht.
  unfold tally in Ht. cbv zeta in Ht.
  apply (f_equal (fun x => snd (fst (fst x)))) in Ht. cbn [fst snd] in Ht.
  fold t in Ht. rename Ht into Hn.
  destruct (names_fold (Spec.all_cookies cookie_files) [] (NoDup_nil _) (Forall_nil _))
    as (Hnd & Hpos & Hget).
  set (raw := fold_left
                (fun names c => Dict.bump String.eqb (or_else (c_name c) "") names)
                (Spec.all_cookies cookie_files) []) in *.
  destruct (sorted_desc_spec (@snd string nat) raw) as [Hperm Hsorted].
  set (sorted := Dict.sorted_desc snd raw) in *.
  assert (Hin_raw : forall n k, In (n, k) sorted -> k = occurrences n /\ (1 <= k)%nat).
  { intros n k Hin. apply (Permutation_in _ Hperm) in Hin. split.
    - pose proof (in_get String.eqb String.eqb_eq _ n k raw Hnd Hin) as Hg.
      specialize (Hget n). unfold Dict.get_or in Hget. rewrite Hg in Hget.
      cbn [Dict.get] in Hget. subst occurrences. cbn beta. lia.
    - rewrite Forall_forall in Hpos. exact (Hpos _ Hin). }
  assert (Hnd_sorted : NoDup (map fst sorted)).
  { apply (Permutation_NoDup (l := map fst raw)); [|exact Hnd].
    apply Permutation_map. apply Permutation_sym. exact Hperm. }
  split; [rewrite Hn; apply firstn_le_length|].
  split.
  { rewrite <- (firstn_skipn 10 sorted), map_app in Hnd_sorted.
    apply NoDup_app_remove_r in Hnd_sorted. rewrite Hn. exact Hnd_sorted. }
  split; [rewrite Hn; apply sorted_firstn; exact Hsorted|].
  split; [intros n k Hin; rewrite Hn in Hin; apply Hin_raw; exact (in_firstn _ _ _ Hin)|].
  intros n Hocc Hout.
  assert (Hraw : In (n, occurrences n) sorted).
  { apply (Permutation_in _ (Permutation_sym Hperm)).
    apply (get_in String.eqb String.eqb_eq).
    specialize (Hget n). unfold Dict.get_or in Hget. cbn [Dict.get] in Hget.
    fold (occurrences n) in Hget.
    destruct (Dict.get String.eqb n raw) as [k|]; [rewrite Hget; reflexivity | lia]. }
  rewrite <- (firstn_skipn 10 sorted) in Hraw. apply in_app_or in Hraw.
  rewrite <- Hn in Hraw. destruct Hraw as [Hraw|Hraw].
  { exfalso. apply Hout. apply (in_map fst) in Hraw. exact Hraw. }
  split.
  - rewrite Hn, length_firstn.
    assert (10 < List.length sorted)%nat; [|lia].
    destruct (Nat.le_gt_cases (List.length sorted) 10) as [Hle|Hgt]; [|exact Hgt].
    rewrite skipn_all2 in Hraw by exact Hle. destruct Hraw.
  - intros m k Hm. rewrite <- (firstn_skipn 10 sorted) in Hsorted. rewrite <- Hn in Hsorted.
    exact (sorted_app_between _ _ _ _ Hsorted (m, k) (n, occurrences n) Hm Hraw).
Qed.

(** The per-URL table keeps, for a URL that several snapshots share, the
    number of cookies of the last of them. *)
Theorem cookies_per_domain_last_wins :
  forall pre data post,
    (forall d, In d post -> or_else (d_url d) "unknown" <> or_else (d_url data) "unknown") ->
    sget (or_else (d_url data) "unknown")
      (cookies_per_domain (analyze_cookies (pre ++ data :: post)))
    = Some (List.length (or_else (d_cookies data) [])).
Proof.
  intros pre data post Hpost.
  pose proof (tally_analyze_cookies (pre ++ data :: post)) as Ht.
  unfold tally in Ht. cbv zeta in Ht. injection Ht as _ _ _ _ _ _ _ _ Hpd _.
  rewrite Hpd, fold_left_app. cbn [fold_left].
  set (u := or_else (d_url data) "unknown") in *.
  generalize (fold_left
                (fun pd d => sset (or_else (d_url d) "unknown")
                               (List.length (or_else (d_cookies d) [])) pd) pre []).
  intro pd0.
  assert (H : forall post pd,
            (forall d, In d post -> or_else (d_url d) "unknown" <> u) ->
            sget u (fold_left
                      (fun pd d => sset (or_else (d_url d) "unknown")
                                     (List.length (or_else (d_cookies d) [])) pd) post pd)
            = sget u pd).
  { clear. induction post as [|d post IH]; intros pd Hp; cbn [fold_left]; [reflexivity|].
    rewrite IH by (intros d' Hd'; apply Hp; right; exact Hd').
    apply sget_sset_other. intro E. apply (Hp d (or_introl eq_refl)). symmetry. exact E. }
  rewrite (H post _ Hpost). apply sget_sset_same.
Qed.

End Tally.

(** ** XSS report, further *)

Section XssShape.

Import Xss Views.

Variable unquote : string -> string.
Variable re_search : string -> string -> bool.

Let scan := _check_cookie_for_xss unquote re_search.

(** The domain table after [_update_xss_stats]: the entry of the domain is
    written once, counted once more and with one more cookie. *)
Lemma update_domains :
  forall st dom c name cdom matched,
    vulnerable_domains (_update_xss_stats st dom c name cdom matched)
    = (let e0 := sget_or dom (mk_vulnerable_domain 0 []) (vulnerable_domains st) in
       sset dom
         (mk_vulnerable_domain (count e0 + 1)
            (cookies e0 ++
             [mk_vulnerable_cookie name matched (or_else (c_httpOnly c) false)
                (or_else (c_secure c) false)]))
         (vulnerable_domains st)).
Proof.
  intros st dom c name cdom matched. unfold _update_xss_stats. cbv zeta.
  cbn [vulnerable_domains count cookies]. rewrite shas_sget.
  destruct (sget dom (vulnerable_domains st)) as [e|] eqn:E; cbn [negb].
  - reflexivity.
  - rewrite (sget_or_some _ _ _ _ (sget_sset_same dom (mk_vulnerable_domain 0 [])
                                     (vulnerable_domains st))).
    rewrite sset_sset. unfold sget_or, Dict.get_or. unfold sget in E. rewrite E.
    reflexivity.
Qed.

Lemma process_cookie_cases :
  forall dom st c,
    let st1 := mk_stats (total_cookies_analyzed st + 1) (potentially_vulnerable_cookies st)
                 (xss_findings st) (vulnerable_domains st) in
    process_cookie unquote re_search dom st c
    = if flagged scan c
      then _update_xss_stats st1 dom c (or_else (c_name c) "unknown")
             (or_else (c_domain c) dom) (scan (or_else (c_value c) ""))
      else st1.
Proof.
  intros dom st c st1. unfold process_cookie, flagged, scan. cbv zeta. fold st1.
  destruct (is_empty (or_else (c_value c) "")); [reflexivity|]. cbn [negb andb].
  destruct (_check_cookie_for_xss unquote re_search (or_else (c_value c) ""));
    reflexivity.
Qed.

Lemma xss_counts_fold :
  forall dom cs st,
    let r := fold_left (process_cookie unquote re_search dom) cs st in
    total_cookies_analyzed r = (total_cookies_analyzed st + List.length cs)%nat
    /\ potentially_vulnerable_cookies r
       = (potentially_vulnerable_cookies st + count_if (flagged scan) cs)%nat.
Proof.
  intros dom cs. unfold count_if.
  induction cs as [|c cs IH]; intro st; cbn [fold_left filter List.length].
  - split; lia.
  - destruct (IH (process_cookie unquote re_search dom st c)) as [H1 H2].
    rewrite H1, H2. rewrite process_cookie_cases. cbv zeta.
    destruct (flagged scan c); unfold _update_xss_stats;
      cbn [total_cookies_analyzed potentially_vulnerable_cookies List.length]; lia.
Qed.

(** The report counts every cookie as analysed, the same total as
    [analyze_cookies], and as potentially vulnerable those with a non-empty
    value in which a pattern is found; a cookie with an empty value is never
    reported. *)
Theorem xss_counts :
  forall cookie_files,
    let r := analyze_xss_vulnerabilities unquote re_search cookie_files in
    total_cookies_analyzed r = List.length (Spec.all_cookies cookie_files)
    /\ total_cookies_analyzed r = CookieStats.total_cookies (CookieStats.analyze_cookies cookie_files)
    /\ potentially_vulnerable_cookies r
       = count_if (flagged scan) (Spec.all_cookies cookie_files)
    /\ (potentially_vulnerable_cookies r
        <= count_if (fun c => negb (is_empty (or_else (c_value c) "")))
             (Spec.all_cookies cookie_files))%nat.
Proof.
  intros cookie_files r.
  assert (H : forall files st,
            let r := fold_left (process_file unquote re_search) files st in
            total_cookies_analyzed r
            = (total_cookies_analyzed st + List.length (Spec.all_cookies files))%nat
            /\ potentially_vulnerable_cookies r
               = (potentially_vulnerable_cookies st
                  + count_if (flagged scan) (Spec.all_cookies files))%nat).
  { unfold Spec.all_cookies.
    induction files as [|d files IH]; intro st; cbn [fold_left flat_map].
    - unfold count_if. cbn. split; lia.
    - destruct (IH (process_file unquote re_search st d)) as [H1 H2].
      cbv zeta. rewrite H1, H2. unfold process_file, _process_cookies_for_xss.
      destruct (xss_counts_fold (Url.netloc (or_else (d_url d) "unknown"))
                  (or_else (d_cookies d) []) st) as [H3 H4].
      rewrite H3, H4, count_if_app, length_app. split; lia. }
  assert (Hr : total_cookies_analyzed r = List.length (Spec.all_cookies cookie_files)
               /\ potentially_vulnerable_cookies r
                  = count_if (flagged scan) (Spec.all_cookies cookie_files)).
  { subst r. unfold analyze_xss_vulnerabilities.
    destruct cookie_files as [|d files]; [split; reflexivity|].
    destruct (H (d :: files) _initialize_xss_stats) as [H1 H2]. split; assumption. }
  destruct Hr as [Ht Hp].
  pose proof (view_analyze_cookies cookie_files) as Hv. unfold view in Hv.
  injection Hv as Htot _ _.
  repeat split; try assumption.
  - rewrite Ht, Htot. reflexivity.
  - rewrite Hp. apply count_if_mono. intros c Hc. unfold flagged in Hc.
    apply andb_true_iff in Hc. apply Hc.
Qed.

Lemma domains_consistent_update :
  forall st dom c name cdom matched,
    domains_consistent (vulnerable_domains st) ->
    domains_consistent (vulnerable_domains (_update_xss_stats st dom c name cdom matched)).
Proof.
  intros st dom c name cdom matched [Hnd Hall]. rewrite update_domains. cbv zeta. split.
  - unfold sset. apply (keys_nodup_set String.eqb String.eqb_eq). exact Hnd.
  - rewrite Forall_forall in *. intros [k e] Hin.
    destruct (in_sset _ _ _ _ _ _ Hin) as [[-> ->]|Hold]; [|exact (Hall _ Hold)].
    cbn [snd count cookies]. rewrite length_app. cbn [List.length].
    unfold sget_or, Dict.get_or.
    destruct (Dict.get String.eqb dom (vulnerable_domains st)) as [e0|] eqn:E.
    + apply (get_in String.eqb String.eqb_eq) in E.
      destruct (Hall _ E) as [H1 H2]. cbn [snd] in H1. split; lia.
    + cbn. split; lia.
Qed.

(** Every entry of ['vulnerable_domains'] of the report counts the cookies
    it lists and lists at least one; no domain has two entries. *)
Theorem vulnerable_domains_consistent :
  forall cookie_files,
    domains_consistent
      (vulnerable_domains (analyze_xss_vulnerabilities unquote re_search cookie_files)).
Proof.
  intro cookie_files.
  assert (Hc : forall dom cs st, domains_consistent (vulnerable_domains st) ->
            domains_consistent
              (vulnerable_domains (fold_left (process_cookie unquote re_search dom) cs st))).
  { intros dom cs. induction cs as [|c cs IH]; intros st H; cbn [fold_left]; [exact H|].
    apply IH. rewrite process_cookie_cases. cbv zeta.
    destruct (flagged scan c); [|exact H].
    apply domains_consistent_update. exact H. }
  assert (Hf : forall files st, domains_consistent (vulnerable_domains st) ->
            domains_consistent
              (vulnerable_domains (fold_left (process_file unquote re_search) files st))).
  { induction files as [|d files IH]; intros st H; cbn [fold_left]; [exact H|].
    apply IH. unfold process_file, _process_cookies_for_xss. apply Hc. exact H. }
  assert (H0 : domains_consistent []) by (split; constructor).
  unfold analyze_xss_vulnerabilities. destruct cookie_files; [exact H0 | apply Hf; exact H0].
Qed.

Lemma scan_in_table :
  forall value, incl (scan value) xss_patterns.
Proof.
  intros value p Hp. unfold scan, _check_cookie_for_xss in Hp.
  apply filter_In in Hp. apply Hp.
Qed.

(** Every finding names at least one pattern, only patterns of the table,
    and a domain that has an entry in ['vulnerable_domains']. *)
Theorem findings_shape :
  forall cookie_files,
    let r := analyze_xss_vulnerabilities unquote re_search cookie_files in
    Forall (fun f => f_matched_patterns f <> []
                     /\ incl (f_matched_patterns f) xss_patterns
                     /\ shas (f_domain f) (vulnerable_domains r) = true)
      (xss_findings r).
Proof.
  intros cookie_files r.
  set (good := fun st : stats =>
         Forall (fun f => f_matched_patterns f <> []
                          /\ incl (f_matched_patterns f) xss_patterns
                          /\ shas (f_domain f) (vulnerable_domains st) = true)
           (xss_findings st)).
  assert (Hu : forall st dom c,
            good st -> good (process_cookie unquote re_search dom st c)).
  { intros st dom c H. rewrite process_cookie_cases. cbv zeta.
    destruct (flagged scan c) eqn:Ef; [|exact H].
    unfold good in *. rewrite update_domains. cbv zeta.
    unfold _update_xss_stats. cbv zeta. cbn [xss_findings vulnerable_domains].
    apply Forall_app. split.
    - rewrite Forall_forall in *. intros f Hf. destruct (H f Hf) as (H1 & H2 & H3).
      repeat split; try assumption.
      rewrite shas_sget in *.
      destruct (String.eqb_spec (f_domain f) dom) as [->|Hne].
      + rewrite sget_sset_same. reflexivity.
      + rewrite sget_sset_other by exact Hne. exact H3.
    - constructor; [|constructor]. cbn [f_matched_patterns f_domain].
      repeat split.
      + unfold flagged in Ef. apply andb_true_iff in Ef. destruct Ef as [_ Ef].
        intro E. rewrite E in Ef. discriminate.
      + apply scan_in_table.
      + rewrite shas_sget, sget_sset_same. reflexivity. }
  assert (Hc : forall dom cs st, good st ->
            good (fold_left (process_cookie unquote re_search dom) cs st)).
  { intros dom cs. induction cs as [|c cs IH]; intros st H; cbn [fold_left]; [exact H|].
    apply IH. apply Hu. exact H. }
  assert (Hf : forall files st, good st ->
            good (fold_left (process_file unquote re_search) files st)).
  { induction files as [|d files IH]; intros st H; cbn [fold_left]; [exact H|].
    apply IH. unfold process_file, _process_cookies_for_xss. apply Hc. exact H. }
  assert (H0 : good (mk_stats 0 0 [] [])) by constructor.
  change (good r). subst r. unfold analyze_xss_vulnerabilities.
  destruct cookie_files; [exact H0 | apply Hf; exact H0].
Qed.

End XssShape.

(** ** Domain-relationship graph, further *)

Section GraphCounts.

Import Relationships Views.

Variable registered : string -> string.
Variable iter_order : list string -> list string.

Lemma consistent_write :
  forall fp e' rels,
    graph_consistent rels ->
    entry_consistent e' ->
    graph_consistent (sset fp e' rels)
    /\ (first_party_sum (sset fp e' rels)
        + match sget fp rels with
          | Some e0 => total_third_party_cookies e0
          | None => 0
          end)%nat
       = (first_party_sum rels + total_third_party_cookies e')%nat
    /\ sget fp (sset fp e' rels) = Some e'.
Proof.
  intros fp e' rels Hrels He'. split; [|split].
  - intros fp0 e0 Hin. destruct (in_sset _ _ _ _ _ _ Hin) as [[-> ->]|Hold].
    + exact He'.
    + exact (Hrels fp0 e0 Hold).
  - apply (sum_sset total_third_party_cookies).
  - apply sget_sset_same.
Qed.

(** The graph after one cookie is counted for a pair. *)
Lemma consistent_count_relation :
  forall fp tp name rels e,
    sget fp rels = Some e ->
    graph_consistent rels ->
    graph_consistent (count_relation fp tp name rels)
    /\ first_party_sum (count_relation fp tp name rels) = (first_party_sum rels + 1)%nat
    /\ exists e' t',
         sget fp (count_relation fp tp name rels) = Some e'
         /\ sget tp (third_parties e') = Some t'.
Proof.
  intros fp tp name rels e He Hrels.
  rewrite (count_relation_effect fp tp name rels e He). cbv zeta.
  set (t0 := sget_or tp (mk_third_party 0 [] []) (third_parties e)).
  set (t1 := mk_third_party (count t0 + 1) (purposes t0) (cookie_names t0 ++ [name])).
  set (e' := mk_first_party (sset tp t1 (third_parties e)) (total_third_party_cookies e + 1)).
  destruct (Hrels fp e (sget_in _ _ _ _ He)) as [Htot Htps].
  assert (Ht0 : count t0 = List.length (cookie_names t0)
                /\ count t0 = match sget tp (third_parties e) with
                              | Some v0 => count v0
                              | None => 0%nat
                              end).
  { subst t0. unfold sget_or, Dict.get_or, sget.
    destruct (Dict.get String.eqb tp (third_parties e)) as [t|] eqn:E.
    - split; [|reflexivity]. apply (Htps tp t). apply (get_in String.eqb String.eqb_eq).
      exact E.
    - split; reflexivity. }
  destruct Ht0 as [Hlen Hcount].
  assert (He' : entry_consistent e').
  { split.
    - subst e'. cbn [total_third_party_cookies third_parties].
      pose proof (sum_sset count tp t1 (third_parties e)) as Hs.
      rewrite <- Hcount in Hs. subst t1. cbn [count] in Hs.
      unfold third_party_sum in *. lia.
    - intros tp0 t Hin. subst e'. cbn [third_parties] in Hin.
      destruct (in_sset _ _ _ _ _ _ Hin) as [[-> ->]|Hold].
      + subst t1. cbn [count cookie_names]. rewrite length_app. cbn [List.length].
        split; lia.
      + exact (Htps tp0 t Hold). }
  destruct (consistent_write fp e' rels Hrels He') as (H1 & H2 & H3).
  rewrite He in H2. split; [exact H1|]. split.
  - subst e'. cbn [total_third_party_cookies] in H2. lia.
  - exists e', t1. split; [exact H3|]. subst e'. cbn [third_parties]. apply sget_sset_same.
Qed.

(** The graph after a pair's entry is changed without touching its count or
    its cookie names. *)
Lemma consistent_on_third_party :
  forall fp tp f rels e t,
    sget fp rels = Some e ->
    sget tp (third_parties e) = Some t ->
    count (f t) = count t ->
    cookie_names (f t) = cookie_names t ->
    graph_consistent rels ->
    graph_consistent (on_third_party fp tp f rels)
    /\ first_party_sum (on_third_party fp tp f rels) = first_party_sum rels
    /\ exists e', sget fp (on_third_party fp tp f rels) = Some e'.
Proof.
  intros fp tp f rels e t He Ht Hc Hn Hrels. unfold on_third_party.
  rewrite (on_first_party_hit fp _ rels e He). rewrite Ht.
  destruct (Hrels fp e (sget_in _ _ _ _ He)) as [Htot Htps].
  set (e' := mk_first_party (sset tp (f t) (third_parties e)) (total_third_party_cookies e)).
  assert (He' : entry_consistent e').
  { split.
    - subst e'. cbn [total_third_party_cookies third_parties].
      pose proof (sum_sset count tp (f t) (third_parties e)) as Hs.
      rewrite Ht in Hs. unfold third_party_sum in *. lia.
    - intros tp0 t0 Hin. subst e'. cbn [third_parties] in Hin.
      destruct (in_sset _ _ _ _ _ _ Hin) as [[-> ->]|Hold].
      + rewrite Hc, Hn. apply (Htps tp t). apply sget_in. exact Ht.
      + exact (Htps tp0 t0 Hold). }
  destruct (consistent_write fp e' rels Hrels He') as (H1 & H2 & H3).
  rewrite He in H2. split; [exact H1|]. split.
  - subst e'. cbn [total_third_party_cookies] in H2. lia.
  - exists e'. exact H3.
Qed.

Lemma counts_tagged_cookie :
  forall fp st c,
    counts_consistent st ->
    (exists e, sget fp (domain_relationships st) = Some e) ->
    counts_consistent (tagged_cookie registered fp st c)
    /\ exists e, sget fp (domain_relationships (tagged_cookie registered fp st c)) = Some e.
Proof.
  intros fp st c (Hg & Hs & Hnd) [e He]. unfold tagged_cookie. cbv zeta.
  destruct (is_empty (or_else (c_domain c) "")); [split; [exact (conj Hg (conj Hs Hnd)) | eauto]|].
  set (tp := registered (strip_dot (or_else (c_domain c) ""))).
  destruct (String.eqb tp fp); [split; [exact (conj Hg (conj Hs Hnd)) | eauto]|].
  destruct (consistent_count_relation fp tp (or_else (c_name c) "unknown") _ e He Hg)
    as (Hg1 & Hs1 & e1 & t1 & He1 & Ht1).
  destruct (consistent_on_third_party fp tp
              (fun t => mk_third_party (count t)
                          (set_add (or_else (c_tracking_purpose c) "Unknown") (purposes t))
                          (cookie_names t))
              _ e1 t1 He1 Ht1 eq_refl eq_refl Hg1) as (Hg2 & Hs2 & e2 & He2).
  match goal with
  | |- context [if ?b then _ else _] => destruct b
  end;
    unfold counts_consistent;
    cbn [domain_relationships third_party_domains on_third_party_purposes
         on_third_party_domains on_relationships];
    (split; [|exists e2; exact He2]);
    (split; [exact Hg2|]);
    (split; [rewrite (sum_bump String.eqb), Hs2, Hs1, Hs; reflexivity
            | apply (keys_nodup_set String.eqb String.eqb_eq); exact Hnd]).
Qed.

Lemma counts_untagged_cookie :
  forall fpd fp st c,
    counts_consistent st ->
    (exists e, sget fp (domain_relationships st) = Some e) ->
    counts_consistent (untagged_cookie registered fpd fp st c)
    /\ exists e, sget fp (domain_relationships (untagged_cookie registered fpd fp st c)) = Some e.
Proof.
  intros fpd fp st c (Hg & Hs & Hnd) [e He]. unfold untagged_cookie. cbv zeta.
  destruct (is_empty (or_else (c_domain c) "")); [split; [exact (conj Hg (conj Hs Hnd)) | eauto]|].
  match goal with
  | |- context [if (if ?a then true else ?b) then _ else _] =>
      destruct (if a then true else b)
  end; [|split; [exact (conj Hg (conj Hs Hnd)) | eauto]].
  match goal with
  | |- context [count_relation fp ?tp ?name] =>
      destruct (consistent_count_relation fp tp name _ e He Hg)
        as (Hg1 & Hs1 & e1 & t1 & He1 & Ht1)
  end.
  unfold counts_consistent.
  cbn [domain_relationships third_party_domains on_third_party_domains on_relationships].
  split; [|exists e1; exact He1].
  split; [exact Hg1|].
  split; [rewrite (sum_bump String.eqb), Hs1, Hs; reflexivity
         | apply (keys_nodup_set String.eqb String.eqb_eq); exact Hnd].
Qed.

Lemma counts_fold :
  forall fp (step : stats -> cookie -> stats),
    (forall st c,
       counts_consistent st ->
       (exists e, sget fp (domain_relationships st) = Some e) ->
       counts_consistent (step st c)
       /\ exists e, sget fp (domain_relationships (step st c)) = Some e) ->
    forall cs st,
      counts_consistent st ->
      (exists e, sget fp (domain_relationships st) = Some e) ->
      counts_consistent (fold_left step cs st).
Proof.
  intros fp step Hstep cs. induction cs as [|c cs IH]; intros st H He; cbn [fold_left].
  - exact H.
  - destruct (Hstep st c H He) as [H' He']. apply IH; assumption.
Qed.

Lemma counts_enter_first_party :
  forall fp st,
    counts_consistent st ->
    counts_consistent (enter_first_party fp st)
    /\ exists e, sget fp (domain_relationships (enter_first_party fp st)) = Some e.
Proof.
  intros fp st (Hg & Hs & Hnd). unfold enter_first_party. rewrite shas_sget.
  destruct (sget fp (domain_relationships st)) as [e|] eqn:E; cbn [negb].
  - split; [exact (conj Hg (conj Hs Hnd)) | exists e; exact E].
  - unfold counts_consistent.
    cbn [domain_relationships third_party_domains on_relationships].
    assert (He' : entry_consistent (mk_first_party [] 0)).
    { split; [reflexivity | intros tp t []]. }
    destruct (consistent_write fp (mk_first_party [] 0) _ Hg He')
      as (H1 & H2 & H3).
    rewrite E in H2. cbn [total_third_party_cookies] in H2.
    split; [|eexists; exact H3].
    split; [exact H1|]. split; [lia | exact Hnd].
Qed.

Lemma counts_relate_file :
  forall st data,
    counts_consistent st -> counts_consistent (relate_file registered st data).
Proof.
  intros st data H. unfold relate_file. cbv zeta.
  destruct (counts_enter_first_party
              (registered (Url.netloc (or_else (d_url data) "unknown"))) st H) as [H1 He].
  destruct (or_else (d_third_party_cookies data) []) as [|c cs].
  - destruct (d_cookies data) as [cookies|]; [|exact H1].
    apply (counts_fold _ _ (counts_untagged_cookie _ _)); assumption.
  - apply (counts_fold _ _ (counts_tagged_cookie _)); assumption.
Qed.

Lemma counts_relate_files :
  forall files, counts_consistent (relate_files registered files).
Proof.
  intro files. unfold relate_files.
  assert (Hall : forall fs st, counts_consistent st ->
            counts_consistent (fold_left (relate_file registered) fs st)).
  { induction fs as [|d fs IH]; intros st H; cbn [fold_left]; [exact H|].
    apply IH. apply counts_relate_file. exact H. }
  apply Hall. split; [intros fp e [] | split; [reflexivity | constructor]].
Qed.

Lemma third_party_sum_export :
  forall tps,
    third_party_sum
      (map (fun te => (fst te,
                       mk_third_party (count (snd te)) (iter_order (purposes (snd te)))
                         (cookie_names (snd te)))) tps)
    = third_party_sum tps.
Proof.
  unfold third_party_sum. induction tps as [|[tp t] tps IH]; [reflexivity|].
  cbn [map fold_right fst snd count]. rewrite IH. reflexivity.
Qed.

Lemma counts_export :
  forall rels,
    graph_consistent rels ->
    graph_consistent (export_purposes iter_order rels)
    /\ first_party_sum (export_purposes iter_order rels) = first_party_sum rels.
Proof.
  intros rels H. split.
  - intros fp e Hin. unfold export_purposes in Hin. apply in_map_iff in Hin.
    destruct Hin as ([fp0 e0] & Heq & Hin0). cbn [fst snd] in Heq.
    injection Heq as <- <-. destruct (H fp0 e0 Hin0) as [Htot Htps].
    cbn [total_third_party_cookies third_parties]. split.
    + rewrite third_party_sum_export. exact Htot.
    + intros tp t Ht. apply in_map_iff in Ht. destruct Ht as ([tp0 t0] & Heq & Ht0).
      cbn [fst snd] in Heq. injection Heq as <- <-. cbn [count cookie_names].
      exact (Htps tp0 t0 Ht0).
  - clear H. unfold first_party_sum, export_purposes.
    induction rels as [|[fp e] rels IH]; [reflexivity|].
    cbn [map fold_right fst snd total_third_party_cookies].
    rewrite IH. reflexivity.
Qed.

(** The counts of the result agree: every first party's total is the sum of
    the counts of its third parties, every pair has one cookie name per
    cookie counted, and the global per-domain counts add up to the sum of the
    totals. *)
Theorem relationship_counts_add_up :
  forall cookie_files,
    let r := analyze_domain_relationships registered iter_order cookie_files in
    graph_consistent (domain_relationships r)
    /\ table_sum (third_party_domains r) = first_party_sum (domain_relationships r).
Proof.
  intros cookie_files r. subst r. unfold analyze_domain_relationships.
  destruct cookie_files as [|d files].
  - split; [intros fp e [] | reflexivity].
  - destruct (counts_relate_files (d :: files)) as (Hg & Hs & _).
    destruct (counts_export _ Hg) as [Hg' Hs'].
    unfold finish. cbv zeta.
    cbn [domain_relationships third_party_domains on_relationships].
    split; [exact Hg' | rewrite Hs'; exact Hs].
Qed.

Lemma sorted_map :
  forall (A B : Type) (f : A -> B) (R : B -> B -> Prop) l,
    StronglySorted (fun a b => R (f a) (f b)) l -> StronglySorted R (map f l).
Proof.
  intros A B f R l H. induction H as [|x l Hs IH Hall]; cbn [map]; constructor.
  - exact IH.
  - rewrite Forall_forall in *. intros y Hy. apply in_map_iff in Hy.
    destruct Hy as (z & <- & Hz). exact (Hall z Hz).
Qed.

(** The ranking of the result: at most ten trackers, largest count first,
    each with its count of the per-domain table; and a domain left out has
    no larger count than any tracker listed. *)
Theorem top_trackers_ranked :
  forall cookie_files,
    let r := analyze_domain_relationships registered iter_order cookie_files in
    (List.length (top_trackers r) <= 10)%nat
    /\ StronglySorted (fun a b => (tracker_count b <= tracker_count a)%nat) (top_trackers r)
    /\ (forall t, In t (top_trackers r) ->
          sget (domain t) (third_party_domains r) = Some (tracker_count t))
    /\ (forall d n, sget d (third_party_domains r) = Some n ->
          ~ In d (map domain (top_trackers r)) ->
          List.length (top_trackers r) = 10%nat
          /\ forall t, In t (top_trackers r) -> (n <= tracker_count t)%nat).
Proof.
  intros cookie_files r. subst r. unfold analyze_domain_relationships.
  destruct cookie_files as [|d0 files].
  - cbn. repeat split; try constructor; try (intros ? []); try lia; discriminate.
  - destruct (counts_relate_files (d0 :: files)) as (_ & _ & Hnd).
    unfold finish. cbv zeta.
    cbn [top_trackers third_party_domains on_relationships].
    set (tpd := third_party_domains (relate_files registered (d0 :: files))) in *.
    destruct (sorted_desc_spec (@snd string nat) tpd) as [Hperm Hsorted].
    set (sorted := Dict.sorted_desc snd tpd) in *.
    set (top := firstn 10 sorted).
    assert (Htop : forall dc, In dc top -> In dc tpd).
    { intros dc H. apply (Permutation_in _ Hperm). exact (in_firstn _ _ _ H). }
    split; [rewrite length_map; apply firstn_le_length|].
    split.
    { apply sorted_map. cbn [tracker_count]. apply sorted_firstn. exact Hsorted. }
    split.
    { intros t Ht. apply in_map_iff in Ht. destruct Ht as ([dn n] & <- & Hin).
      cbn [domain tracker_count fst snd]. unfold sget.
      apply (in_get String.eqb String.eqb_eq); [exact Hnd | exact (Htop _ Hin)]. }
    intros d n Hget Hout.
    assert (Hin : In (d, n) sorted).
    { apply (Permutation_in _ (Permutation_sym Hperm)). apply sget_in. exact Hget. }
    rewrite <- (firstn_skipn 10 sorted) in Hin. apply in_app_or in Hin.
    destruct Hin as [Hin|Hin].
    { exfalso. apply Hout. rewrite map_map. cbn [domain].
      apply (in_map fst) in Hin. exact Hin. }
    split.
    + rewrite length_map. unfold top. rewrite length_firstn.
      assert (10 < List.length sorted)%nat; [|lia].
      destruct (Nat.le_gt_cases (List.length sorted) 10) as [Hle|Hgt]; [|exact Hgt].
      rewrite skipn_all2 in Hin by exact Hle. destruct Hin.
    + intros t Ht. apply in_map_iff in Ht. destruct Ht as ([dm m] & <- & Hm).
      cbn [tracker_count snd]. rewrite <- (firstn_skipn 10 sorted) in Hsorted.
      exact (sorted_app_between _ _ _ _ Hsorted (dm, m) (d, n) Hm Hin).
Qed.

End GraphCounts.

(** ** The collector and the analyses together *)

Section Collected.

Import Spider Collector CookieStats Views.

Variable registered : string -> string.
Variable float_of_str : string -> option Q.

Lemma collect_lists :
  forall md now raws cd tp,
    fold_left (collect_cookie registered float_of_str md now) raws (cd, tp)
    = (cd ++ map (cookie_info registered float_of_str md now) raws,
       tp ++ filter (fun c => or_else (c_is_third_party c) false)
               (map (cookie_info registered float_of_str md now) raws)).
Proof.
  intros md now raws. induction raws as [|raw raws IH]; intros cd tp.
  - cbn [fold_left map filter]. rewrite !app_nil_r. reflexivity.
  - cbn [fold_left map filter]. unfold collect_cookie at 2. cbv zeta. cbn [fst snd].
    rewrite IH.
    destruct (or_else (c_is_third_party (cookie_info registered float_of_str md now raw)) false);
      rewrite <- !app_assoc; reflexivity.
Qed.

(** The cookies and the tagged list of a collected page. *)
Lemma collect_page_lists :
  forall url now raws ls ss,
    let info := cookie_info registered float_of_str (Url.netloc url) now in
    collect_page registered float_of_str url now raws ls ss
    = mk_snapshot (Some url) (Some (map info raws)) (Some ls) (Some ss)
        (Some (filter (fun c => or_else (c_is_third_party c) false) (map info raws))).
Proof.
  intros url now raws ls ss info. unfold collect_page. cbv zeta.
  rewrite collect_lists. reflexivity.
Qed.

(** What [cookie_info] writes for a cookie: the flag is the outcome of the
    comparison of registered domains, and the age record is never empty. *)
Lemma cookie_info_fields :
  forall md now raw,
    let c := cookie_info registered float_of_str md now raw in
    or_else (c_is_third_party c) false = foreign registered (registered md) c
    /\ Spec.has_age c = true
    /\ (is_session_cookie c = true \/ has_known_days c = true)
    /\ c_name c <> None /\ c_value c <> None.
Proof.
  intros md now raw c. subst c. unfold cookie_info, foreign, is_third_party_cookie.
  cbv zeta.
  set (a := calculate_cookie_age float_of_str _ now).
  destruct (is_empty (or_else (s_domain raw) "")) eqn:Ed;
    cbn [c_is_third_party c_domain or_else]; rewrite Ed; cbn [negb andb].
  all: split; [try reflexivity|].
  all: try (rewrite String.eqb_sym; reflexivity).
  all: split; [reflexivity|].
  all: split; [|split; discriminate].
  all: unfold is_session_cookie, has_known_days, known_days, age_as_json;
    cbn [c_age age_is_session age_days or_else].
  all: subst a; unfold calculate_cookie_age; cbv zeta;
    destruct (expiry_falsy _); [left; reflexivity|];
    destruct (to_float float_of_str _) as [q|]; [|left; reflexivity];
    destruct (Qle_bool (q - now) 0); right; reflexivity.
Qed.

Lemma count_if_all :
  forall (A : Type) (p : A -> bool) l,
    Forall (fun x => p x = true) l -> count_if p l = List.length l.
Proof.
  intros A p l H. unfold count_if. induction H as [|x l Hx Hl IH]; [reflexivity|].
  cbn [filter]. rewrite Hx. cbn [List.length]. rewrite IH. reflexivity.
Qed.

Lemma count_if_split :
  forall (A : Type) (p q : A -> bool) l,
    Forall (fun x => p x = true \/ q x = true) l ->
    (forall x, p x = true -> q x = true -> False) ->
    (count_if p l + count_if q l)%nat = List.length l.
Proof.
  intros A p q l H Hex. unfold count_if. induction H as [|x l Hx Hl IH]; [reflexivity|].
  cbn [filter]. destruct (p x) eqn:Ep; destruct (q x) eqn:Eq; cbn [List.length].
  - exfalso. exact (Hex x Ep Eq).
  - lia.
  - lia.
  - destruct Hx; discriminate.
Qed.

Lemma collected_cookies :
  forall pages,
    Forall (fun c => Spec.has_age c = true
                     /\ (is_session_cookie c = true \/ has_known_days c = true)
                     /\ c_name c <> None /\ c_value c <> None)
      (Spec.all_cookies (collect_pages registered float_of_str pages)).
Proof.
  induction pages as [|[[[[url now] raws] ls] ss] pages IH]; [constructor|].
  cbn [collect_pages map Spec.all_cookies flat_map].
  apply Forall_app. split; [|exact IH].
  rewrite collect_page_lists. cbn [d_cookies or_else].
  apply Forall_forall. intros c Hc. apply in_map_iff in Hc. destruct Hc as (raw & <- & _).
  apply (cookie_info_fields (Url.netloc url) now raw).
Qed.

(** On the pages the collector saves, every cookie carries its age, so
    session and persistent cookies make up the total, and the five buckets
    of the age histogram hold every cookie once. *)
Theorem collected_cookies_all_counted :
  forall pages,
    let r := analyze_cookies (collect_pages registered float_of_str pages) in
    (session_cookies r + persistent_cookies r)%nat = total_cookies r
    /\ (cat_session (cookie_age_categories r)
        + categories_sum (cookie_age_categories r))%nat = total_cookies r.
Proof.
  intros pages r.
  set (files := collect_pages registered float_of_str pages) in *.
  pose proof (view_analyze_cookies files) as Hv. fold r in Hv. unfold view in Hv.
  injection Hv as Htot _ Hsum.
  pose proof (tally_analyze_cookies files) as Ht. fold r in Ht. unfold tally in Ht.
  cbv zeta in Ht. injection Ht as _ _ _ _ Hcats _ _ _ _ _.
  destruct (categories_fold (Spec.all_cookies files) zero_categories) as [H1 H2].
  rewrite <- Hcats in H1, H2. cbn [cat_session zero_categories] in H1.
  change (categories_sum zero_categories) with 0%nat in H2.
  pose proof (collected_cookies pages) as Hall. fold files in Hall.
  split.
  - rewrite Hsum, Htot. apply count_if_all.
    apply Forall_forall. intros c Hc. rewrite Forall_forall in Hall. apply (Hall c Hc).
  - rewrite H1, H2, Htot. cbn [Nat.add]. apply count_if_split.
    + apply Forall_forall. intros c Hc. rewrite Forall_forall in Hall. apply (Hall c Hc).
    + intros c Hs Hk. destruct (known_days_not_session c Hk) as [Hn _].
      rewrite Hs in Hn. discriminate.
Qed.

Variable iter_order : list string -> list string.

Import Relationships.

(** The tagged list of a collected page: the cookies of the page whose
    registered domain is not the page's. *)
Lemma collected_tagged_list :
  forall url now l,
    filter (fun c => or_else (c_is_third_party c) false)
      (map (cookie_info registered float_of_str (Url.netloc url) now) l)
    = filter (foreign registered (registered (Url.netloc url)))
        (map (cookie_info registered float_of_str (Url.netloc url) now) l).
Proof.
  intros url now. induction l as [|raw l IH]; [reflexivity|]. cbn [map filter].
  destruct (cookie_info_fields (Url.netloc url) now raw) as [Hf _]. cbv zeta in Hf.
  rewrite Hf, IH. reflexivity.
Qed.

(** The per-domain table after a tagged cookie: one more for its registered
    domain, unless the cookie is skipped. *)
Lemma domains_tagged_cookie :
  forall fp st c,
    third_party_domains (tagged_cookie registered fp st c)
    = if foreign registered fp c
      then Dict.bump String.eqb (registered (strip_dot (or_else (c_domain c) "")))
             (third_party_domains st)
      else third_party_domains st.
Proof.
  intros fp st c. unfold tagged_cookie, foreign. cbv zeta.
  destruct (PyStr.is_empty (or_else (c_domain c) "")); cbn [negb andb]; [reflexivity|].
  destruct (String.eqb (registered (strip_dot (or_else (c_domain c) ""))) fp);
    cbn [negb]; [reflexivity|].
  match goal with
  | |- context [if ?b then _ else _] => destruct b
  end; reflexivity.
Qed.

Lemma domains_tagged_fold :
  forall fp cs st,
    table_sum (third_party_domains (fold_left (tagged_cookie registered fp) cs st))
    = (table_sum (third_party_domains st) + count_if (foreign registered fp) cs)%nat.
Proof.
  intros fp cs. unfold count_if.
  induction cs as [|c cs IH]; intro st; cbn [fold_left filter].
  - cbn [List.length]. lia.
  - rewrite IH, domains_tagged_cookie.
    destruct (foreign registered fp c); cbn [List.length].
    + rewrite (sum_bump String.eqb). lia.
    + reflexivity.
Qed.

(** The fallback leaves a cookie of the page's own registered domain, or
    one without a domain, uncounted when it is not flagged. *)
Lemma untagged_home_cookie :
  forall fpd fp st c,
    or_else (c_is_third_party c) false = false ->
    foreign registered fp c = false ->
    untagged_cookie registered fpd fp st c = st.
Proof.
  intros fpd fp st c Hflag Hhome. unfold untagged_cookie. cbv zeta.
  unfold foreign in Hhome. rewrite Hflag.
  destruct (PyStr.is_empty (or_else (c_domain c) "")); [reflexivity|].
  cbn [negb andb] in Hhome.
  destruct (String.eqb (registered (strip_dot (or_else (c_domain c) ""))) fp);
    [reflexivity | discriminate].
Qed.

Lemma untagged_home_fold :
  forall fpd fp cs st,
    Forall (fun c => or_else (c_is_third_party c) false = false
                     /\ foreign registered fp c = false) cs ->
    fold_left (untagged_cookie registered fpd fp) cs st = st.
Proof.
  intros fpd fp cs st H. induction H as [|c cs [Hf Hh] Hcs IH]; [reflexivity|].
  cbn [fold_left]. rewrite (untagged_home_cookie fpd fp st c Hf Hh). exact IH.
Qed.

Lemma filter_nil_all :
  forall (A : Type) (p : A -> bool) l,
    filter p l = [] -> Forall (fun x => p x = false) l.
Proof.
  intros A p l. induction l as [|x l IH]; intro H; [constructor|].
  cbn [filter] in H. destruct (p x) eqn:E; [discriminate|].
  constructor; [exact E | exact (IH H)].
Qed.

Lemma count_if_filter :
  forall (A : Type) (p : A -> bool) l, count_if p (filter p l) = count_if p l.
Proof.
  intros A p l. unfold count_if. induction l as [|x l IH]; [reflexivity|].
  cbn [filter]. destruct (p x) eqn:E; [|exact IH].
  cbn [filter]. rewrite E. cbn [List.length]. rewrite IH. reflexivity.
Qed.

Lemma count_if_ext_in :
  forall (A : Type) (p q : A -> bool) l,
    Forall (fun x => p x = q x) l -> count_if p l = count_if q l.
Proof.
  intros A p q l H. unfold count_if. induction H as [|x l Hx Hl IH]; [reflexivity|].
  cbn [filter]. rewrite Hx. destruct (q x); cbn [List.length]; rewrite IH; reflexivity.
Qed.

(** One collected page in the relationship analysis: the per-domain table
    gains one count for every cookie of the page that is flagged. *)
Lemma relate_collected_page :
  forall st url now raws ls ss,
    let data := collect_page registered float_of_str url now raws ls ss in
    table_sum (third_party_domains (relate_file registered st data))
    = (table_sum (third_party_domains st)
       + count_if (fun c => or_else (c_is_third_party c) false)
           (or_else (d_cookies data) []))%nat.
Proof.
  intros st url now raws ls ss data. subst data. rewrite collect_page_lists. cbv zeta.
  unfold relate_file. cbv zeta. cbn [d_url d_cookies d_third_party_cookies or_else].
  set (fp := registered (Url.netloc url)).
  set (cs := map (cookie_info registered float_of_str (Url.netloc url) now) raws).
  assert (Hcs : Forall (fun c => or_else (c_is_third_party c) false = foreign registered fp c) cs).
  { apply Forall_forall. intros c Hc. apply in_map_iff in Hc. destruct Hc as (raw & <- & _).
    apply (cookie_info_fields (Url.netloc url) now raw). }
  assert (Hent : third_party_domains (enter_first_party fp st) = third_party_domains st).
  { unfold enter_first_party. destruct (negb _); reflexivity. }
  rewrite (count_if_ext_in _ _ _ _ Hcs).
  pose proof (collected_tagged_list url now raws) as Htag. fold cs fp in Htag.
  rewrite Htag.
  destruct (filter (foreign registered fp) cs) as [|c0 tagged] eqn:Ef.
  - rewrite untagged_home_fold.
    + rewrite Hent. unfold count_if. rewrite Ef. cbn [List.length]. lia.
    + pose proof (filter_nil_all _ _ _ Ef) as Hnone.
      rewrite Forall_forall in *. intros c Hc. split; [rewrite (Hcs c Hc)|]; exact (Hnone c Hc).
  - rewrite <- Ef. rewrite domains_tagged_fold, Hent, count_if_filter. reflexivity.
Qed.

(** A run of the collector through the relationship analysis: nothing the
    collector tagged is skipped, and nothing it left untagged is counted, so
    the per-domain counts and the first parties' totals both add up to the
    number of cookies flagged as third-party. *)
Theorem collected_relationships_count_flagged :
  forall pages,
    let files := collect_pages registered float_of_str pages in
    let r := analyze_domain_relationships registered iter_order files in
    let flagged :=
      count_if (fun c => or_else (c_is_third_party c) false) (Spec.all_cookies files) in
    table_sum (third_party_domains r) = flagged
    /\ first_party_sum (domain_relationships r) = flagged.
Proof.
  intros pages files r flagged.
  assert (Hfold : forall ps st,
            table_sum (third_party_domains
                         (fold_left (relate_file registered)
                            (collect_pages registered float_of_str ps) st))
            = (table_sum (third_party_domains st)
               + count_if (fun c => or_else (c_is_third_party c) false)
                   (Spec.all_cookies (collect_pages registered float_of_str ps)))%nat).
  { induction ps as [|[[[[url now] raws] ls] ss] ps IH]; intro st.
    - cbn. lia.
    - cbn [collect_pages map fold_left Spec.all_cookies flat_map].
      fold (collect_pages registered float_of_str ps).
      rewrite IH, relate_collected_page. cbv zeta.
      fold (Spec.all_cookies (collect_pages registered float_of_str ps)).
      rewrite count_if_app. lia. }
  assert (Hsum : table_sum (third_party_domains r) = flagged).
  { subst r flagged. unfold analyze_domain_relationships.
    destruct files as [|d fs] eqn:Efiles; [reflexivity|].
    unfold finish. cbv zeta. cbn [third_party_domains on_relationships].
    unfold relate_files. rewrite <- Efiles. subst files. rewrite Hfold. reflexivity. }
  split; [exact Hsum|].
  rewrite <- Hsum. subst r. unfold analyze_domain_relationships.
  destruct files as [|d fs]; [reflexivity|].
  destruct (counts_relate_files registered (d :: fs)) as (Hg & Hs & _).
  destruct (counts_export iter_order _ Hg) as [_ Hs'].
  unfold finish. cbv zeta. cbn [domain_relationships third_party_domains on_relationships].
  rewrite Hs'. symmetry. exact Hs.
Qed.

End Collected.

(** ** use_cookies.py: finding the saved file and building the cookie jar *)

Section Replay.

Import PyStr Collector UseCookies.

Lemma replace_char_app :
  forall a b s t,
    replace_char a b (s ++ t)%string = (replace_char a b s ++ replace_char a b t)%string.
Proof.
  intros a b s t. induction s as [|c s IH]; [reflexivity|].
  cbn -[Ascii.eqb]. rewrite IH. reflexivity.
Qed.

Lemma string_app_assoc :
  forall s t u : string, ((s ++ t) ++ u)%string = (s ++ (t ++ u))%string.
Proof.
  intros s t u. induction s as [|c s IH]; [reflexivity|]. cbn. rewrite IH. reflexivity.
Qed.

(** The file the spider saves for a page is taken for the page's domain by
    [load_cookies_for_domain]; so is the file of any domain that only
    starts with it. *)
Theorem saved_file_is_candidate :
  forall domain more timestamp,
    is_candidate domain (saved_filename (domain ++ more) timestamp) = true.
Proof.
  intros domain more timestamp. unfold is_candidate, saved_filename.
  apply andb_true_iff. split.
  - apply startswith_iff. rewrite replace_char_app.
    exists (replace_char "." "_" more ++ "_" ++ timestamp ++ ".json")%string.
    rewrite string_app_assoc. reflexivity.
  - apply endswith_iff.
    exists (replace_char "." "_" (domain ++ more) ++ "_" ++ timestamp)%string.
    rewrite !string_app_assoc. reflexivity.
Qed.


Lemma find_last :
  forall (A : Type) (p : A -> bool) l x,
    find p (l ++ [x])
    = match find p l with
      | Some y => Some y
      | None => if p x then Some x else None
      end.
Proof.
  intros A p l x. induction l as [|y l IH]; cbn [app find]; [reflexivity|].
  destruct (p y); [reflexivity | exact IH].
Qed.

Lemma fold_key_error :
  forall cookies key, fold_left add_cookie cookies (KeyError key) = KeyError key.
Proof.
  induction cookies as [|c cookies IH]; intro key; [reflexivity|]. cbn [fold_left add_cookie].
  apply IH.
Qed.

Lemma fold_add_cookie :
  forall cookies d0,
    match fold_left add_cookie cookies (Returned d0) with
    | Returned d =>
        Forall complete cookies
        /\ (NoDup (map fst d0) -> NoDup (map fst d))
        /\ forall name,
             sget name d
             = match find (named name) (rev cookies) with
               | Some c => c_value c
               | None => sget name d0
               end
    | KeyError key =>
        exists before c after,
          cookies = before ++ c :: after
          /\ Forall complete before
          /\ (c_name c = None /\ key = "name"
              \/ c_name c <> None /\ c_value c = None /\ key = "value")
    end.
Proof.
  induction cookies as [|c cookies IH]; intro d0.
  - cbn [fold_left rev find]. split; [constructor|]. split; [tauto | reflexivity].
  - cbn [fold_left]. unfold add_cookie at 2.
    destruct (c_name c) as [n|] eqn:En.
    2:{ rewrite fold_key_error. exists [], c, cookies.
        split; [reflexivity|]. split; [constructor|]. left. split; [exact En | reflexivity]. }
    destruct (c_value c) as [v|] eqn:Ev.
    2:{ rewrite fold_key_error. exists [], c, cookies.
        split; [reflexivity|]. split; [constructor|]. right.
        split; [rewrite En; discriminate|]. split; [exact Ev | reflexivity]. }
    assert (Hc : complete c).
    { unfold complete. rewrite En, Ev. split; discriminate. }
    specialize (IH (sset n v d0)).
    destruct (fold_left add_cookie cookies (Returned (sset n v d0))) as [d|key].
    + destruct IH as (Hall & Hnd & Hget). split; [constructor; assumption|]. split.
      * intro H0. apply Hnd. apply (keys_nodup_set String.eqb String.eqb_eq). exact H0.
      * intro name. rewrite Hget. cbn [rev]. rewrite find_last.
        destruct (find (named name) (rev cookies)); [reflexivity|].
        unfold named. rewrite En.
        destruct (String.eqb n name) eqn:E.
        -- apply String.eqb_eq in E. subst name. rewrite sget_sset_same. symmetry. exact Ev.
        -- apply String.eqb_neq in E. apply sget_sset_other. congruence.
    + destruct IH as (before & c' & after & Heq & Hbefore & Hkey).
      exists (c :: before), c', after. split; [rewrite Heq; reflexivity|].
      split; [constructor; assumption | exact Hkey].
Qed.


Lemma length_sset :
  forall (V : Type) k (v : V) d, (List.length (sset k v d) <= S (List.length d))%nat.
Proof.
  intros V k v d. unfold sset. induction d as [|[k' v'] d IH]; cbn [Dict.set List.length].
  - lia.
  - destruct (String.eqb k k'); cbn [List.length]; lia.
Qed.

Lemma length_fold_add_cookie :
  forall cookies d0 d,
    fold_left add_cookie cookies (Returned d0) = Returned d ->
    (List.length d <= List.length d0 + List.length cookies)%nat.
Proof.
  induction cookies as [|c cookies IH]; intros d0 d H; cbn [fold_left] in H.
  - injection H as <-. lia.
  - unfold add_cookie at 2 in H.
    destruct (c_name c) as [n|]; [|rewrite fold_key_error in H; discriminate].
    destruct (c_value c) as [v|]; [|rewrite fold_key_error in H; discriminate].
    apply IH in H. pose proof (length_sset _ n v d0). cbn [List.length]. lia.
Qed.

(** The cookies of a page the collector saved always make a cookie jar: no
    [KeyError], and an entry for the name of every cookie of the browser. *)
Theorem collected_page_makes_jar :
  forall registered float_of_str url now raws ls ss,
    let data := collect_page registered float_of_str url now raws ls ss in
    exists d,
      cookies_dict (or_else (d_cookies data) []) = Returned d
      /\ (List.length d <= List.length raws)%nat
      /\ forall raw, In raw raws -> shas (or_else (s_name raw) "") d = true.
Proof.
  intros registered float_of_str url now raws ls ss data. subst data.
  rewrite collect_page_lists. cbv zeta. cbn [d_cookies or_else].
  set (cs := map (cookie_info registered float_of_str (Url.netloc url) now) raws).
  pose proof (fold_add_cookie cs []) as H. unfold cookies_dict.
  destruct (fold_left add_cookie cs (Returned [])) as [d|key] eqn:Efold.
  - destruct H as (Hall & _ & Hget). exists d. split; [reflexivity|]. split.
    + apply length_fold_add_cookie in Efold. subst cs. rewrite length_map in Efold.
      cbn [List.length] in Efold. lia.
    + intros raw Hin. rewrite shas_sget, Hget.
      destruct (find (named (or_else (s_name raw) "")) (rev cs)) as [c|] eqn:Ef.
      * apply find_some in Ef. destruct Ef as [Hc _]. apply in_rev in Hc.
        rewrite Forall_forall in Hall. destruct (Hall c Hc) as [_ Hv].
        destruct (c_value c); [reflexivity | exfalso; apply Hv; reflexivity].
      * exfalso.
        assert (Hc : In (cookie_info registered float_of_str (Url.netloc url) now raw)
                       (rev cs)).
        { apply in_rev. rewrite rev_involutive. apply in_map. exact Hin. }
        pose proof (find_none _ _ Ef _ Hc) as Hno. unfold named, cookie_info in Hno.
        destruct (is_third_party_cookie registered _ _) in Hno. cbn [c_name] in Hno.
        rewrite String.eqb_refl in Hno. discriminate.
  - exfalso. destruct H as (before & c & after & Heq & _ & Hkey).
    assert (Hc : In c cs) by (rewrite Heq; apply in_or_app; right; left; reflexivity).
    apply in_map_iff in Hc. destruct Hc as (raw & <- & _).
    destruct (cookie_info_fields registered float_of_str (Url.netloc url) now raw)
      as (_ & _ & _ & Hn & Hv).
    destruct Hkey as [[H0 _]|(_ & H0 & _)]; [exact (Hn H0) | exact (Hv H0)].
Qed.

End Replay.

(** ** The report of the statistics *)

Section Reported.

Import CookieStats Views Report.





Variable format_1f : Q -> string.
Variable rest_of_report : stats -> list string -> printed.

(** [print_stats] on the result of an analysis: with no cookie in the files
    it stops with [ZeroDivisionError] after the line of the total; with a
    cookie it prints the three percentages and goes on. *)
Theorem report_needs_a_cookie :
  forall cookie_files,
    let stats := analyze_cookies cookie_files in
    let header :=
      ["=== Browser Storage Statistics ===";
       ("Total domains analyzed: " ++ of_nat (total_domains stats))%string;
       "";
       "--- Cookie Statistics ---";
       ("Total cookies found: " ++ of_nat (total_cookies stats))%string] in
    match Spec.all_cookies cookie_files with
    | [] =>
        total_cookies stats = 0%nat
        /\ print_stats format_1f rest_of_report stats = Raised header "ZeroDivisionError"
    | _ :: _ =>
        exists secure httponly third_party,
          print_stats format_1f rest_of_report stats
          = rest_of_report stats (header ++ [secure; httponly; third_party])
    end.
Proof.
  intros cookie_files stats header.
  pose proof (view_analyze_cookies cookie_files) as Hv. fold stats in Hv. unfold view in Hv.
  injection Hv as Htot _ _.
  unfold print_stats. cbv zeta. fold header. unfold share_line, percentage.
  destruct (Spec.all_cookies cookie_files) as [|c cs].
  - cbn [List.length] in Htot. rewrite Htot. cbn [Nat.eqb]. split; reflexivity.
  - cbn [List.length] in Htot. rewrite Htot. cbn [Nat.eqb].
    eexists _, _, _. rewrite <- !app_assoc. cbn [app]. reflexivity.
Qed.

End Reported.

(** ** Average and maximum age *)

Section AgeExtent.

Import CookieStats Views.

Lemma extent_on_cookies_per_domain f st : extent (on_cookies_per_domain f st) = extent st.
Proof. destruct st; reflexivity. Qed.
Lemma extent_on_storage_per_domain f st : extent (on_storage_per_domain f st) = extent st.
Proof. destruct st; reflexivity. Qed.
Lemma extent_on_common_cookie_names f st : extent (on_common_cookie_names f st) = extent st.
Proof. destruct st; reflexivity. Qed.
Lemma extent_on_common_storage_keys f st : extent (on_common_storage_keys f st) = extent st.
Proof. destruct st; reflexivity. Qed.
Lemma extent_on_secure_cookies f st : extent (on_secure_cookies f st) = extent st.
Proof. destruct st; reflexivity. Qed.
Lemma extent_on_httponly_cookies f st : extent (on_httponly_cookies f st) = extent st.
Proof. destruct st; reflexivity. Qed.
Lemma extent_on_third_party_cookies f st : extent (on_third_party_cookies f st) = extent st.
Proof. destruct st; reflexivity. Qed.
Lemma extent_on_session_cookies f st : extent (on_session_cookies f st) = extent st.
Proof. destruct st; reflexivity. Qed.
Lemma extent_on_persistent_cookies f st : extent (on_persistent_cookies f st) = extent st.
Proof. destruct st; reflexivity. Qed.
Lemma extent_on_cookie_age_categories f st : extent (on_cookie_age_categories f st) = extent st.
Proof. destruct st; reflexivity. Qed.
Lemma extent_on_cookie_age_distribution f st : extent (on_cookie_age_distribution f st) = extent st.
Proof. destruct st; reflexivity. Qed.
Lemma extent_on_samesite_stats f st : extent (on_samesite_stats f st) = extent st.
Proof. destruct st; reflexivity. Qed.
Lemma extent_on_samesite_by_domain f st : extent (on_samesite_by_domain f st) = extent st.
Proof. destruct st; reflexivity. Qed.

Create Rewrite HintDb extent_db.

#[local] Hint Rewrite extent_on_cookies_per_domain extent_on_storage_per_domain extent_on_common_cookie_names extent_on_common_storage_keys extent_on_secure_cookies extent_on_httponly_cookies extent_on_third_party_cookies extent_on_session_cookies extent_on_persistent_cookies extent_on_cookie_age_categories extent_on_cookie_age_distribution extent_on_samesite_stats extent_on_samesite_by_domain : extent_db.

Ltac extent_step :=
  first
    [ progress autorewrite with extent_db
    | match goal with
      | |- context [extent (if ?b then _ else _)] => destruct b
      | |- context [extent (match ?o with Some _ => _ | None => _ end)] => destruct o
      end ].

Lemma extent_count_cookie :
  forall dom md st c, extent (count_cookie dom md st c) = extent st.
Proof.
  intros dom md st c. unfold count_cookie, count_age. cbv zeta.
  repeat extent_step; reflexivity.
Qed.

Lemma extent_fold :
  forall (A : Type) (step : stats -> A -> stats),
    (forall st x, extent (step st x) = extent st) ->
    forall l st, extent (fold_left step l st) = extent st.
Proof.
  intros A step Hstep l. induction l as [|x l IH]; intro st; cbn [fold_left]; [reflexivity|].
  rewrite IH. apply Hstep.
Qed.

Lemma extent_count_file :
  forall st data, extent (count_file st data) = extent st.
Proof.
  intros st data. unfold count_file. cbv zeta.
  rewrite !extent_fold.
  - autorewrite with extent_db. reflexivity.
  - apply extent_count_cookie.
  - intros st0 kv. apply extent_on_common_storage_keys.
  - intros st0 kv. apply extent_on_common_storage_keys.
Qed.

Lemma finish_extent :
  forall st,
    extent (finish st)
    = match persistent_ages (cookie_age_distribution st) with
      | [] => extent st
      | a :: rest =>
          let ages := a :: rest in
          ((inject_Z (fold_right Z.add 0%Z ages) / inject_Z (Z.of_nat (List.length ages)))%Q,
           fold_right Z.max a rest)
      end.
Proof.
  intro st. destruct st. unfold finish. cbv zeta.
  cbn [on_common_cookie_names on_common_storage_keys cookie_age_distribution].
  destruct (persistent_ages _); reflexivity.
Qed.

Lemma finish_distribution :
  forall st,
    cookie_age_distribution (finish st) = Dict.sorted_asc fst (cookie_age_distribution st).
Proof.
  intro st. destruct st. unfold finish. cbv zeta.
  cbn [on_common_cookie_names on_common_storage_keys cookie_age_distribution].
  destruct (persistent_ages _); reflexivity.
Qed.

Lemma in_persistent_ages :
  forall a dist,
    In a (persistent_ages dist)
    <-> exists n, In (a, n) dist /\ (0 < a)%Z /\ (1 <= n)%nat.
Proof.
  intros a dist. unfold persistent_ages. rewrite in_flat_map. split.
  - intros ([k n] & Hin & Ha). cbn [fst snd] in Ha.
    destruct (Z.ltb_spec 0 k) as [Hk|Hk]; [|destruct Ha].
    pose proof (repeat_spec _ _ _ Ha) as ->. exists n. split; [exact Hin|].
    split; [exact Hk|]. destruct n; [destruct Ha | lia].
  - intros (n & Hin & Ha & Hn). exists (a, n). split; [exact Hin|]. cbn [fst snd].
    apply Z.ltb_lt in Ha. rewrite Ha. destruct n; [lia|]. left. reflexivity.
Qed.

Lemma max_of_list :
  forall (a : Z) rest,
    In (fold_right Z.max a rest) (a :: rest)
    /\ forall x, In x (a :: rest) -> (x <= fold_right Z.max a rest)%Z.
Proof.
  intros a rest. induction rest as [|b rest [IHin IHle]]; cbn [fold_right].
  - split; [left; reflexivity | intros x [<-|[]]; lia].
  - split.
    + destruct (Z.max_spec b (fold_right Z.max a rest)) as [[_ ->]|[_ ->]].
      * destruct IHin as [H|H]; [left; exact H | right; right; exact H].
      * right. left. reflexivity.
    + intros x [<-|[<-|Hx]].
      * specialize (IHle a (or_introl eq_refl)). lia.
      * lia.
      * specialize (IHle x (or_intror Hx)). lia.
Qed.

Lemma sum_between :
  forall (l : list Z) lo hi,
    (forall x, In x l -> (lo <= x <= hi)%Z) ->
    (lo * Z.of_nat (List.length l) <= fold_right Z.add 0 l
     <= hi * Z.of_nat (List.length l))%Z.
Proof.
  intros l lo hi. induction l as [|x l IH]; intro H.
  - cbn. lia.
  - cbn [fold_right List.length]. rewrite Nat2Z.inj_succ.
    assert (Hx := H x (or_introl eq_refl)).
    assert (Hl := IH (fun y Hy => H y (or_intror Hy))). nia.
Qed.

Lemma distribution_counts :
  forall cs d,
    Forall (fun kv => (1 <= snd kv)%nat) d ->
    Forall (fun kv => (1 <= snd kv)%nat)
      (fold_left (fun dist c => distribution_step c dist) cs d).
Proof.
  induction cs as [|c cs IH]; intros d H; cbn [fold_left]; [exact H|].
  apply IH. unfold distribution_step. destruct (known_days c); [|exact H].
  apply (bump_positive Z.eqb Z.eqb_eq). exact H.
Qed.

(** The loop's age table, before it is sorted, and the two fields as the
    loop leaves them. *)
Lemma loop_ages :
  forall files,
    let st := fold_left count_file files (initial_stats files) in
    cookie_age_distribution st
    = fold_left (fun dist c => distribution_step c dist) (Spec.all_cookies files) []
    /\ extent st = (0%Q, 0%Z).
Proof.
  intros files st. subst st. split.
  - pose proof (tally_files_by_field files (initial_stats files)) as Ht.
    unfold tally in Ht. cbv zeta in Ht.
    cbn [initial_stats secure_cookies httponly_cookies session_cookies persistent_cookies
         cookie_age_categories cookie_age_distribution samesite_stats common_cookie_names
         cookies_per_domain samesite_by_domain] in Ht.
    apply (f_equal (fun t => snd (fst (fst (fst (fst t)))))) in Ht. cbn [fst snd] in Ht.
    exact Ht.
  - rewrite (extent_fold _ _ extent_count_file). reflexivity.
Qed.

(** The maximum age of the result is the largest key of the age table, and
    the average lies between one day and the maximum; both stay zero when
    no cookie lasts a whole day. *)
Theorem age_extent_bounds :
  forall cookie_files,
    let r := analyze_cookies cookie_files in
    let dist := cookie_age_distribution r in
    (forall k n, In (k, n) dist -> (k <= max_cookie_age_days r)%Z)
    /\ (max_cookie_age_days r = 0%Z /\ avg_cookie_age_days r == 0
        \/ (exists n, In (max_cookie_age_days r, n) dist)
           /\ 1 <= avg_cookie_age_days r
           /\ avg_cookie_age_days r <= inject_Z (max_cookie_age_days r)).
Proof.
  intros cookie_files r dist. subst dist r. unfold analyze_cookies.
  destruct cookie_files as [|d0 files].
  { cbn [empty_stats cookie_age_distribution max_cookie_age_days avg_cookie_age_days].
    split; [intros k n [] | left; split; reflexivity]. }
  set (st := fold_left count_file (d0 :: files) (initial_stats (d0 :: files))).
  destruct (loop_ages (d0 :: files)) as [Hdist Hext]. cbv zeta in Hdist, Hext.
  fold st in Hdist, Hext.
  pose proof (finish_extent st) as Hfin. rewrite finish_distribution.
  set (raw := cookie_age_distribution st) in *.
  destruct (distribution_fold (Spec.all_cookies (d0 :: files)) [] (NoDup_nil _)
              (Forall_nil _)) as (_ & Hpos & _).
  cbv zeta in Hpos. rewrite <- Hdist in Hpos.
  pose proof (distribution_counts (Spec.all_cookies (d0 :: files)) [] (Forall_nil _)) as Hcnt.
  rewrite <- Hdist in Hcnt.
  destruct (sorted_asc_spec (@fst Z nat) raw) as [Hperm _].
  assert (Hraw : forall k n, In (k, n) (Dict.sorted_asc fst raw) <-> In (k, n) raw).
  { intros k n. split; intro H.
    - exact (Permutation_in _ Hperm H).
    - exact (Permutation_in _ (Permutation_sym Hperm) H). }
  assert (Hkey : forall k n, In (k, n) raw -> (k = 0 \/ In k (persistent_ages raw))%Z).
  { intros k n Hin. rewrite Forall_forall in Hpos, Hcnt.
    assert (0 <= k)%Z by (apply Hpos; apply (in_map fst) in Hin; exact Hin).
    specialize (Hcnt _ Hin). cbn [snd] in Hcnt.
    destruct (Z.eq_dec k 0) as [->|Hne]; [left; reflexivity|]. right.
    apply in_persistent_ages. exists n. split; [exact Hin|]. split; lia. }
  unfold extent in Hfin, Hext.
  destruct (persistent_ages raw) as [|a rest] eqn:Eages.
  - rewrite Hext in Hfin. injection Hfin as Havg Hmax. rewrite Hmax, Havg. split.
    + intros k n Hin. apply Hraw in Hin. destruct (Hkey k n Hin) as [->|[]]. lia.
    + left. split; reflexivity.
  - cbv zeta in Hfin. injection Hfin as Havg Hmax. rewrite Hmax, Havg.
    destruct (max_of_list a rest) as [Hin Hle].
    set (m := fold_right Z.max a rest) in *.
    assert (Hages : forall x, In x (a :: rest) -> (1 <= x <= m)%Z).
    { intros x Hx. split; [|exact (Hle x Hx)].
      rewrite <- Eages in Hx. apply in_persistent_ages in Hx.
      destruct Hx as (n & _ & H0 & _). lia. }
    split.
    + intros k n Hk. apply Hraw in Hk. destruct (Hkey k n Hk) as [->|Hk'].
      * specialize (Hages m Hin). lia.
      * exact (Hle k Hk').
    + right. split.
      * rewrite <- Eages in Hin. apply in_persistent_ages in Hin.
        destruct Hin as (n & Hn & _). exists n. apply Hraw. exact Hn.
      * destruct (sum_between (a :: rest) 1 m Hages) as [Hlo Hhi].
        assert (Hlen : 0 < inject_Z (Z.of_nat (List.length (a :: rest)))).
        { rewrite <- (Zlt_Qlt 0). cbn [List.length]. lia. }
        split.
        -- apply Qle_shift_div_l; [exact Hlen|].
           rewrite <- (inject_Z_mult 1), <- Zle_Qle. exact Hlo.
        -- apply Qle_shift_div_r; [exact Hlen|].
           rewrite <- inject_Z_mult, <- Zle_Qle. exact Hhi.
Qed.

End AgeExtent.

(** ** Instances of the conditional properties *)

Section FurtherInstances.

Import Spider CookieStats Samples.

Lemma extract_base_domain_ignores_port_witness :
  contains ":" "shop.example.co.uk" = false
  /\ extract_base_domain ("shop.example.co.uk" ++ ":" ++ "8080")
     = extract_base_domain "shop.example.co.uk".
Proof.
  split; [reflexivity|].
  apply (extract_base_domain_ignores_port "shop.example.co.uk" "8080"). reflexivity.
Defined.

Lemma cookies_per_domain_last_wins_witness :
  let first := page "http://a.com/" [raw_cookie "a" "a.com"; raw_cookie "b" "a.com"] in
  let last := page "http://a.com/" [raw_cookie "a" "a.com"] in
  let other := page "http://b.org/" [] in
  (forall d, In d [other] -> or_else (d_url d) "unknown" <> or_else (d_url last) "unknown")
  /\ sget (or_else (d_url last) "unknown")
       (cookies_per_domain (analyze_cookies ([first] ++ last :: [other])))
     = Some (List.length (or_else (d_cookies last) [])).
Proof.
  intros first last other.
  assert (H : forall d, In d [other]
                        -> or_else (d_url d) "unknown" <> or_else (d_url last) "unknown").
  { intros d [<-|[]]. discriminate. }
  split; [exact H|].
  exact (cookies_per_domain_last_wins [first] last [other] H).
Defined.

End FurtherInstances.

(** ** The exported table *)

Section Exported.

Import CookieStats Views CsvExport.

Lemma storage_totals_on_cookies_per_domain f st :
  storage_totals (on_cookies_per_domain f st) = storage_totals st.
Proof. destruct st; reflexivity. Qed.
Lemma storage_totals_on_storage_per_domain f st :
  storage_totals (on_storage_per_domain f st) = storage_totals st.
Proof. destruct st; reflexivity. Qed.
Lemma storage_totals_on_common_cookie_names f st :
  storage_totals (on_common_cookie_names f st) = storage_totals st.
Proof. destruct st; reflexivity. Qed.
Lemma storage_totals_on_common_storage_keys f st :
  storage_totals (on_common_storage_keys f st) = storage_totals st.
Proof. destruct st; reflexivity. Qed.
Lemma storage_totals_on_secure_cookies f st :
  storage_totals (on_secure_cookies f st) = storage_totals st.
Proof. destruct st; reflexivity. Qed.
Lemma storage_totals_on_httponly_cookies f st :
  storage_totals (on_httponly_cookies f st) = storage_totals st.
Proof. destruct st; reflexivity. Qed.
Lemma storage_totals_on_third_party_cookies f st :
  storage_totals (on_third_party_cookies f st) = storage_totals st.
Proof. destruct st; reflexivity. Qed.
Lemma storage_totals_on_session_cookies f st :
  storage_totals (on_session_cookies f st) = storage_totals st.
Proof. destruct st; reflexivity. Qed.
Lemma storage_totals_on_persistent_cookies f st :
  storage_totals (on_persistent_cookies f st) = storage_totals st.
Proof. destruct st; reflexivity. Qed.
Lemma storage_totals_on_cookie_age_categories f st :
  storage_totals (on_cookie_age_categories f st) = storage_totals st.
Proof. destruct st; reflexivity. Qed.
Lemma storage_totals_on_avg_cookie_age_days f st :
  storage_totals (on_avg_cookie_age_days f st) = storage_totals st.
Proof. destruct st; reflexivity. Qed.
Lemma storage_totals_on_max_cookie_age_days f st :
  storage_totals (on_max_cookie_age_days f st) = storage_totals st.
Proof. destruct st; reflexivity. Qed.
Lemma storage_totals_on_cookie_age_distribution f st :
  storage_totals (on_cookie_age_distribution f st) = storage_totals st.
Proof. destruct st; reflexivity. Qed.
Lemma storage_totals_on_samesite_stats f st :
  storage_totals (on_samesite_stats f st) = storage_totals st.
Proof. destruct st; reflexivity. Qed.
Lemma storage_totals_on_samesite_by_domain f st :
  storage_totals (on_samesite_by_domain f st) = storage_totals st.
Proof. destruct st; reflexivity. Qed.

Create Rewrite HintDb storage_db.

#[local] Hint Rewrite
  storage_totals_on_cookies_per_domain
  storage_totals_on_storage_per_domain
  storage_totals_on_common_cookie_names
  storage_totals_on_common_storage_keys
  storage_totals_on_secure_cookies
  storage_totals_on_httponly_cookies
  storage_totals_on_third_party_cookies
  storage_totals_on_session_cookies
  storage_totals_on_persistent_cookies
  storage_totals_on_cookie_age_categories
  storage_totals_on_avg_cookie_age_days
  storage_totals_on_max_cookie_age_days
  storage_totals_on_cookie_age_distribution
  storage_totals_on_samesite_stats
  storage_totals_on_samesite_by_domain : storage_db.

Ltac storage_step :=
  first
    [ progress autorewrite with storage_db
    | match goal with
      | |- context [storage_totals (if ?b then _ else _)] => destruct b
      | |- context [storage_totals (match ?o with Some _ => _ | None => _ end)] => destruct o
      end ].

Lemma storage_totals_fold :
  forall (A : Type) (step : stats -> A -> stats),
    (forall st x, storage_totals (step st x) = storage_totals st) ->
    forall l st, storage_totals (fold_left step l st) = storage_totals st.
Proof.
  intros A step Hstep l. induction l as [|x l IH]; intro st; cbn [fold_left]; [reflexivity|].
  rewrite IH. apply Hstep.
Qed.

Lemma storage_totals_count_cookie :
  forall dom md st c, storage_totals (count_cookie dom md st c) = storage_totals st.
Proof.
  intros dom md st c. unfold count_cookie, count_age. cbv zeta.
  repeat storage_step; reflexivity.
Qed.

Lemma storage_totals_count_file :
  forall st data, storage_totals (count_file st data) = storage_totals st.
Proof.
  intros st data. unfold count_file. cbv zeta.
  rewrite !storage_totals_fold.
  - autorewrite with storage_db. reflexivity.
  - apply storage_totals_count_cookie.
  - intros st0 kv. apply storage_totals_on_common_storage_keys.
  - intros st0 kv. apply storage_totals_on_common_storage_keys.
Qed.

Lemma storage_totals_finish : forall st, storage_totals (finish st) = storage_totals st.
Proof.
  intro st. unfold finish. cbv zeta.
  rewrite storage_totals_on_cookie_age_distribution.
  destruct (persistent_ages _); repeat storage_step; reflexivity.
Qed.

(** The storage items of a list of snapshots, file by file. *)
Lemma storage_totals_analyze_cookies :
  forall files,
    storage_totals (analyze_cookies files)
    = (sum_of (map (fun data => List.length (or_else (d_localStorage data) [])) files),
       sum_of (map (fun data => List.length (or_else (d_sessionStorage data) [])) files)).
Proof.
  intro files. unfold analyze_cookies. destruct files as [|data files]; [reflexivity|].
  rewrite storage_totals_finish, (storage_totals_fold _ _ storage_totals_count_file).
  reflexivity.
Qed.

Lemma fold_append_map :
  forall (A B : Type) (f : A -> B) l acc,
    fold_left (fun rows x => rows ++ [f x]) l acc = acc ++ map f l.
Proof.
  intros A B f l. induction l as [|x l IH]; intro acc; cbn [fold_left map].
  - rewrite app_nil_r. reflexivity.
  - rewrite IH, <- app_assoc. reflexivity.
Qed.

(** The rows of a list of files: one per cookie, and one per storage item. *)
Lemma export_rows :
  forall files cookie_rows storage_rows,
    let rows := fold_left export_file files (cookie_rows, storage_rows) in
    (exists added,
        fst rows = cookie_rows ++ added
        /\ List.length added = List.length (Spec.all_cookies files)
        /\ Forall (fun x => r_type x = "cookie") added)
    /\ (exists added,
          snd rows = storage_rows ++ added
          /\ List.length added
             = (sum_of (map (fun data => List.length (or_else (d_localStorage data) [])) files)
                + sum_of (map (fun data => List.length (or_else (d_sessionStorage data) []))
                            files))%nat
          /\ Forall (fun x => r_type x = "storage") added).
Proof.
  induction files as [|data files IH]; intros cookie_rows storage_rows.
  - cbn. split; exists []; rewrite app_nil_r; repeat split; constructor.
  - cbn [fold_left]. unfold export_file at 2 4. cbv zeta. cbn [fst snd].
    rewrite !fold_append_map.
    set (domain := or_else (d_url data) "unknown").
    set (cs := or_else (d_cookies data) []).
    set (ls := or_else (d_localStorage data) []).
    set (ss := or_else (d_sessionStorage data) []).
    destruct (IH (cookie_rows ++ map (cookie_row domain) cs)
                ((storage_rows ++ map (storage_row domain "localStorage") ls)
                 ++ map (storage_row domain "sessionStorage") ss))
      as [(c_added & Hc & Hclen & Hctype) (s_added & Hs & Hslen & Hstype)].
    cbv zeta in Hc, Hs. split.
    + exists (map (cookie_row domain) cs ++ c_added). split; [|split].
      * rewrite Hc, <- app_assoc. reflexivity.
      * cbn [Spec.all_cookies flat_map]. fold cs.
        rewrite !length_app, length_map, Hclen. reflexivity.
      * apply Forall_app. split; [|exact Hctype].
        apply Forall_forall. intros x Hx. apply in_map_iff in Hx.
        destruct Hx as (c & <- & _). reflexivity.
    + exists (map (storage_row domain "localStorage") ls
              ++ map (storage_row domain "sessionStorage") ss ++ s_added).
      split; [|split].
      * rewrite Hs, <- !app_assoc. reflexivity.
      * cbn [map sum_of fold_right]. fold ls ss. unfold sum_of in Hslen.
        rewrite !length_app, !length_map, Hslen. lia.
      * repeat (apply Forall_app; split); [| |exact Hstype];
          apply Forall_forall; intros x Hx; apply in_map_iff in Hx;
          destruct Hx as (kv & <- & _); reflexivity.
Qed.

Lemma length_take :
  forall n s, (String.length (take n s) <= n)%nat.
Proof.
  induction n as [|n IH]; intro s; [cbn; lia|].
  destruct s as [|c s]; cbn [take String.length]; [lia|]. specialize (IH s). lia.
Qed.

Lemma length_string_app :
  forall s t, String.length (s ++ t)%string = (String.length s + String.length t)%nat.
Proof.
  intros s t. induction s as [|c s IH]; [reflexivity|].
  cbn [append String.length]. rewrite IH. reflexivity.
Qed.

Lemma truncate_short :
  forall value, (String.length (truncate value) <= 33)%nat.
Proof.
  intro value. unfold truncate.
  destruct (Nat.ltb_spec 30 (String.length value)) as [Hlong|Hshort].
  - rewrite length_string_app. pose proof (length_take 30 value).
    change (String.length "...") with 3%nat. lia.
  - lia.
Qed.

(** The table exported for the files an analysis was run on: it has one row
    for every cookie and every storage item the analysis counted, the
    cookies first, no value in it is longer than 33 characters, and no file
    is written exactly when all three totals are zero. *)
Theorem exported_rows_match_totals :
  forall cookie_files,
    let r := analyze_cookies cookie_files in
    match export_cookies_to_csv cookie_files with
    | None =>
        total_cookies r = 0%nat /\ total_localStorage r = 0%nat
        /\ total_sessionStorage r = 0%nat
    | Some rows =>
        rows <> []
        /\ List.length rows
           = (total_cookies r + total_localStorage r + total_sessionStorage r)%nat
        /\ Forall (fun x => r_type x = "cookie") (firstn (total_cookies r) rows)
        /\ Forall (fun x => r_type x = "storage") (skipn (total_cookies r) rows)
        /\ Forall (fun x => (String.length (r_value x) <= 33)%nat) rows
    end.
Proof.
  intros cookie_files r.
  pose proof (view_analyze_cookies cookie_files) as Hv. fold r in Hv. unfold view in Hv.
  injection Hv as Htot _ _.
  pose proof (storage_totals_analyze_cookies cookie_files) as Hst. fold r in Hst.
  unfold storage_totals in Hst. injection Hst as Hls Hss.
  unfold export_cookies_to_csv. cbv zeta.
  destruct (export_rows cookie_files [] [])
    as [(c_added & Hc & Hclen & Hctype) (s_added & Hs & Hslen & Hstype)].
  cbv zeta in Hc, Hs. cbn [app] in Hc, Hs. rewrite Hc, Hs.
  rewrite <- Htot in Hclen. rewrite <- Hls, <- Hss in Hslen.
  assert (Hvalues : Forall (fun x => (String.length (r_value x) <= 33)%nat)
                      (c_added ++ s_added)).
  { clear - Hctype Hstype Hc Hs.
    assert (Hall : forall files cr sr,
              Forall (fun x => (String.length (r_value x) <= 33)%nat) cr ->
              Forall (fun x => (String.length (r_value x) <= 33)%nat) sr ->
              let rows := fold_left export_file files (cr, sr) in
              Forall (fun x => (String.length (r_value x) <= 33)%nat) (fst rows ++ snd rows)).
    { induction files as [|data files IH]; intros cr sr Hcr Hsr.
      - cbn. apply Forall_app. split; assumption.
      - cbn [fold_left]. unfold export_file at 2 4. cbv zeta. cbn [fst snd].
        rewrite !fold_append_map. apply IH.
        + apply Forall_app. split; [exact Hcr|].
          apply Forall_forall. intros x Hx. apply in_map_iff in Hx.
          destruct Hx as (c & <- & _). apply truncate_short.
        + repeat (apply Forall_app; split); [exact Hsr| |];
            apply Forall_forall; intros x Hx; apply in_map_iff in Hx;
            destruct Hx as (kv & <- & _); apply truncate_short. }
    specialize (Hall cookie_files [] [] (Forall_nil _) (Forall_nil _)). cbv zeta in Hall.
    rewrite Hc, Hs in Hall. exact Hall. }
  destruct (c_added ++ s_added) as [|x rows] eqn:Erows.
  - apply app_eq_nil in Erows. destruct Erows as [-> ->].
    cbn [List.length] in Hclen, Hslen. lia.
  - rewrite <- Erows. split; [rewrite Erows; discriminate|].
    split; [rewrite length_app; lia|].
    rewrite <- Hclen.
    rewrite firstn_app, Nat.sub_diag, firstn_all, firstn_O, app_nil_r.
    rewrite skipn_app, Nat.sub_diag, skipn_all, skipn_O.
    cbn [app]. split; [exact Hctype|]. split; [exact Hstype|].
    rewrite Erows. exact Hvalues.
Qed.

End Exported.
